(** * A shallow embedding of the todo-app core

    The development follows the three classes that make up the core of the
    application:

    - [TodoValidator]  (validation and sanitisation of records),
    - [StorageManager] (the persisted envelope under one localStorage key),
    - [TodoManager]    (the in-memory list, its operations and notifications).

    JavaScript strings are sequences of UTF-16 code units, objects live in an
    explicit store so that aliasing is visible, and everything the program
    reads from its environment (the clock, [Math.random], whether a write to
    localStorage succeeds, engine-dependent built-ins) is supplied by a
    [Runtime] record. *)

From Stdlib Require Import ZArith NArith QArith Ascii String List Lia Bool.
From Stdlib Require Import Floats.PrimFloat Floats.SpecFloat Floats.FloatOps.
From Stdlib Require Import Floats.FloatAxioms Uint63.
From Stdlib Require Import Sorting.Sorted.
From stdpp Require Import base option list.

Set Warnings "-register-all".
Set Warnings "-inexact-float".
Set Warnings "-notation-overridden".
Set Warnings "-ambiguous-paths".
Local Open Scope N_scope.

(* ===================================================================== *)
(** ** JavaScript strings *)
(* ===================================================================== *)

Module JsString.

(** A string is the list of its UTF-16 code units; [length] is then
    [String.prototype.length]. *)
Definition jsstring := list N.

(** A literal of the source, written with ASCII characters only. *)
Definition js (s : string) : jsstring :=
  map N_of_ascii (list_ascii_of_string s).

Definition eqb (a b : jsstring) : bool := bool_decide (a = b).

(** WhiteSpace and LineTerminator code points of ECMAScript, the
    characters removed by [String.prototype.trim]. *)
Definition is_ws (c : N) : bool :=
  (c =? 9) || (c =? 10) || (c =? 11) || (c =? 12) || (c =? 13) || (c =? 32)
  || (c =? 160) || (c =? 5760) || ((8192 <=? c) && (c <=? 8202))
  || (c =? 8232) || (c =? 8233) || (c =? 8239) || (c =? 8287)
  || (c =? 12288) || (c =? 65279).

Fixpoint trimStart (s : jsstring) : jsstring :=
  match s with
  | c :: s' => if is_ws c then trimStart s' else s
  | [] => []
  end.

Definition trimEnd (s : jsstring) : jsstring := rev (trimStart (rev s)).

(** [s.trim()] *)
Definition trim (s : jsstring) : jsstring := trimEnd (trimStart s).

(** [s.replace(/c/g, by)] for a single character [c]. *)
Definition replaceAll (c : N) (by_ : jsstring) (s : jsstring) : jsstring :=
  flat_map (fun d => if d =? c then by_ else [d]) s.

Fixpoint startsWith (p s : jsstring) : bool :=
  match p, s with
  | [], _ => true
  | a :: p', b :: s' => (a =? b) && startsWith p' s'
  | _ :: _, [] => false
  end.

(** [s.includes(sub)] *)
Fixpoint includes (s sub : jsstring) : bool :=
  startsWith sub s ||
  match s with
  | [] => false
  | _ :: s' => includes s' sub
  end.

Definition is_digit (c : N) : bool := (48 <=? c) && (c <=? 57).
Definition is_lower (c : N) : bool := (97 <=? c) && (c <=? 122).
Definition is_upper (c : N) : bool := (65 <=? c) && (c <=? 90).

(** [n.toString(radix)] for a non-negative integer [n]. *)
Definition digit (d : N) : N := if d <? 10 then 48 + d else 87 + d.

Fixpoint toString_aux (radix : N) (fuel : nat) (n : N) (acc : jsstring)
  : jsstring :=
  match fuel with
  | O => acc
  | S fuel' =>
      let acc' := digit (n mod radix) :: acc in
      if n / radix =? 0 then acc' else toString_aux radix fuel' (n / radix) acc'
  end.

Definition toString (radix : N) (n : N) : jsstring :=
  toString_aux radix (S (N.to_nat (N.log2 n))) n [].

Definition toString36 : N -> jsstring := toString 36.

End JsString.
Export JsString.

(* ===================================================================== *)
(** ** JavaScript values *)
(* ===================================================================== *)

(** The values that reach the validator: what [JSON.parse] can return, plus
    [undefined] for a missing property.  Of a number the code only ever
    observes its type and whether it is zero. *)
Inductive JSVal : Type :=
| JUndefined
| JNull
| JBool (b : bool)
| JNum (q : Q)
| JStr (s : jsstring)
| JArr (elems : list JSVal)
| JObj (props : list (jsstring * JSVal)).

(** ToBoolean *)
Definition truthy (v : JSVal) : bool :=
  match v with
  | JUndefined | JNull => false
  | JBool b => b
  | JNum q => negb (Qnum q =? 0)%Z
  | JStr s => negb (eqb s [])
  | JArr _ | JObj _ => true
  end.

Definition is_string (v : JSVal) : bool :=
  match v with JStr _ => true | _ => false end.

Definition is_boolean (v : JSVal) : bool :=
  match v with JBool _ => true | _ => false end.

Definition is_undefined (v : JSVal) : bool :=
  match v with JUndefined => true | _ => false end.

(** [typeof v === 'object'] *)
Definition is_object (v : JSVal) : bool :=
  match v with JNull | JArr _ | JObj _ => true | _ => false end.

(** [a || b] *)
Definition js_or (a b : JSVal) : JSVal := if truthy a then a else b.

(** [v.trim()]: only strings have the method; calling it on any other value
    that reaches the call raises a TypeError, rendered as [None]. *)
Definition call_trim (v : JSVal) : option jsstring :=
  match v with
  | JStr s => Some (trim s)
  | _ => None
  end.

(** Property read [v[k]] for the named keys the program uses.  Reading a
    property of [null] or [undefined] raises a TypeError ([None]); primitives
    and arrays have none of these keys. *)
Fixpoint assoc (k : jsstring) (props : list (jsstring * JSVal)) : JSVal :=
  match props with
  | [] => JUndefined
  | (k', v) :: rest => if eqb k' k then v else assoc k rest
  end.

Definition get_prop (v : JSVal) (k : jsstring) : option JSVal :=
  match v with
  | JUndefined | JNull => None
  | JObj props => Some (assoc k props)
  | _ => Some JUndefined
  end.

Fixpoint set_assoc (k : jsstring) (x : JSVal) (props : list (jsstring * JSVal))
  : list (jsstring * JSVal) :=
  match props with
  | [] => [(k, x)]
  | (k', v) :: rest =>
      if eqb k' k then (k, x) :: rest else (k', v) :: set_assoc k x rest
  end.

(** SameValueZero on the values a [Map] key can be here.  Two objects or
    arrays obtained from [JSON.parse] are never the same object. *)
Definition same_value_zero (a b : JSVal) : bool :=
  match a, b with
  | JUndefined, JUndefined | JNull, JNull => true
  | JBool x, JBool y => Bool.eqb x y
  | JNum x, JNum y => Qeq_bool x y
  | JStr x, JStr y => eqb x y
  | _, _ => false
  end.

(* ===================================================================== *)
(** ** TodoValidator: the pure part *)
(* ===================================================================== *)

Inductive TsField := CreatedAt | UpdatedAt.

(** The messages pushed onto [errors]. *)
Inductive Msg : Type :=
| TextEmpty          (* 任务内容不能为空 *)
| TextNotString      (* 任务内容必须是字符串 *)
| TextTooShort       (* 任务内容至少需要1个字符 *)
| TextTooLong        (* 任务内容不能超过200个字符 *)
| TextIllegal        (* 任务内容包含非法字符 *)
| IdEmpty            (* ID不能为空 *)
| IdNotString        (* ID必须是字符串 *)
| IdBadFormat        (* ID格式不正确 *)
| CompletedMissing   (* 完成状态不能为空 *)
| CompletedNotBool   (* 完成状态必须是布尔值 *)
| TsEmpty (f : TsField)        (* ...不能为空 *)
| TsNotString (f : TsField)    (* ...必须是字符串 *)
| TsBadFormat (f : TsField)    (* ...格式不正确 *)
| TsInvalidDate (f : TsField)  (* ...不是有效的日期 *)
| UpdatesNotObject             (* 更新数据必须是对象 *)
| FieldNotAllowed (field : jsstring). (* 不允许更新字段: ... *)

(** [errors.length === 0] *)
Definition no_errors {A} (errors : list A) : bool :=
  match errors with [] => true | _ => false end.

(** [if (c) errors.push(m)] *)
Definition push_if {A} (c : bool) (m : A) (errors : list A) : list A :=
  if c then errors ++ [m] else errors.

Module Rules.
(** [this.rules] of the validator. *)
Definition text_minLength : nat := 1.
Definition text_maxLength : nat := 200.

(** [/^[^<>]*$/] *)
Definition text_pattern (s : jsstring) : bool :=
  forallb (fun c => negb ((c =? 60) || (c =? 62))) s.

(** [/^[a-zA-Z0-9_-]+$/] *)
Definition id_pattern (s : jsstring) : bool :=
  negb (eqb s []) &&
  forallb (fun c => is_lower c || is_upper c || is_digit c
                    || (c =? 95) || (c =? 45)) s.

(** [/^\d{4}-\d{2}-\d{2}T\d{2}:\d{2}:\d{2}\.\d{3}Z$/] *)
Definition timestamp_pattern (s : jsstring) : bool :=
  match s with
  | [y1; y2; y3; y4; d1; m1; m2; d2; a1; a2; t; h1; h2; c1; i1; i2; c2;
     s1; s2; p; f1; f2; f3; z] =>
      forallb is_digit [y1; y2; y3; y4; m1; m2; a1; a2; h1; h2; i1; i2;
                        s1; s2; f1; f2; f3]
      && (d1 =? 45) && (d2 =? 45) && (t =? 84) && (c1 =? 58) && (c2 =? 58)
      && (p =? 46) && (z =? 90)
  | _ => false
  end.
End Rules.

(** [sanitizeInput(input)] *)
Definition sanitizeInput (input : JSVal) : jsstring :=
  match input with
  | JStr s =>
      if eqb s [] then []
      else
        let sanitized := trim s in
        let sanitized := replaceAll 38 (js "&amp;") sanitized in
        let sanitized := replaceAll 60 (js "&lt;") sanitized in
        let sanitized := replaceAll 62 (js "&gt;") sanitized in
        let sanitized := replaceAll 34 (js "&quot;") sanitized in
        let sanitized := replaceAll 39 (js "&#39;") sanitized in
        let sanitized :=
          List.filter (fun c => negb ((c <=? 31) || (c =? 127))) sanitized in
        if (Rules.text_maxLength <? length sanitized)%nat
        then take Rules.text_maxLength sanitized
        else sanitized
  | _ => []
  end.

Record TextValidation := mkTextValidation {
  tv_isValid : bool;
  tv_errors : list Msg;
  tv_sanitizedText : jsstring
}.

(** [text.length] once [text] is known to be truthy and to have passed the
    [trim] call, that is, to be a string. *)
Definition js_length (v : JSVal) : nat :=
  match v with JStr s => length s | _ => 0%nat end.

Definition str_of (v : JSVal) : jsstring :=
  match v with JStr s => s | _ => [] end.

Definition bool_of (v : JSVal) : bool :=
  match v with JBool b => b | _ => false end.

(** [validateTodoText(text)].  [rules.text.required] is [true], so the first
    early return is never taken.  [None] is the TypeError of [text.trim()]
    on a truthy value that is not a string. *)
Definition validateTodoText (text : JSVal) : option TextValidation :=
  let errors := [] in
  blank ← (if negb (truthy text) then Some true
           else t ← call_trim text; Some (eqb t []));
  let errors := push_if blank TextEmpty errors in
  let errors := push_if (truthy text && negb (is_string text))
                        TextNotString errors in
  let errors := push_if (truthy text &&
                         (js_length text <? Rules.text_minLength)%nat)
                        TextTooShort errors in
  let errors := push_if (truthy text &&
                         (Rules.text_maxLength <? js_length text)%nat)
                        TextTooLong errors in
  let errors := push_if (truthy text &&
                         negb (Rules.text_pattern (str_of text)))
                        TextIllegal errors in
  Some {| tv_isValid := no_errors errors;
          tv_errors := errors;
          tv_sanitizedText := sanitizeInput text |}.

Record Validation := mkValidation {
  v_isValid : bool;
  v_errors : list Msg
}.

(** [validateTodoId(id)] *)
Definition validateTodoId (id : JSVal) : option Validation :=
  let errors := [] in
  blank ← (if negb (truthy id) then Some true
           else t ← call_trim id; Some (eqb t []));
  let errors := push_if blank IdEmpty errors in
  let errors := push_if (truthy id && negb (is_string id))
                        IdNotString errors in
  let errors := push_if (truthy id && negb (Rules.id_pattern (str_of id)))
                        IdBadFormat errors in
  Some {| v_isValid := no_errors errors; v_errors := errors |}.

(** [validateCompleted(completed)] *)
Definition validateCompleted (completed : JSVal) : Validation :=
  let errors := [] in
  let errors := push_if (is_undefined completed) CompletedMissing errors in
  let errors := push_if (negb (is_undefined completed) &&
                         negb (is_boolean completed))
                        CompletedNotBool errors in
  {| v_isValid := no_errors errors; v_errors := errors |}.

(* ===================================================================== *)
(** ** The environment and the program state *)
(* ===================================================================== *)

(** The kinds of storage failure [handleStorageError] tells apart. *)
Inductive StorageErrorType := quota_exceeded | security_error | unknown_error.

(** What the program obtains from the JavaScript engine and the browser.
    The clock, the random source and the outcome of a write are indexed by
    the number of earlier accesses of the same kind. *)
Record Runtime := mkRuntime {
  (** [Date.now()] at the [k]-th access of the clock *)
  Date_now : nat -> N;
  (** [new Date().toISOString()] at the [k]-th access of the clock *)
  now_toISOString : nat -> jsstring;
  (** [new Date(s).getTime()], [None] for [NaN] *)
  Date_parse : jsstring -> option Z;
  (** [Math.random().toString(36).substr(2)] at the [k]-th call *)
  Math_random36 : nat -> jsstring;
  (** the [k]-th [localStorage.setItem]: [None] when it goes through, else
      the exception it raises *)
  setItem : nat -> option StorageErrorType;
  (** [String.prototype.toLowerCase] *)
  toLowerCase : jsstring -> jsstring
}.

(** A record of the in-memory list. *)
Record Todo := mkTodo {
  t_id : jsstring;
  t_text : jsstring;
  t_completed : bool;
  t_createdAt : jsstring;
  t_updatedAt : jsstring
}.

(** An object with the five record properties holding arbitrary values, as
    [StorageManager.loadTodos] builds them from the persisted data. *)
Record RawTodo := mkRawTodo {
  r_id : JSVal;
  r_text : JSVal;
  r_completed : JSVal;
  r_createdAt : JSVal;
  r_updatedAt : JSVal
}.

(** A valid candidate has well-typed properties (lemma [valid_typed]
    below), so reading it as a [Todo] loses nothing. *)
Definition todo_of_raw (r : RawTodo) : Todo :=
  {| t_id := str_of (r_id r);
     t_text := str_of (r_text r);
     t_completed := bool_of (r_completed r);
     t_createdAt := str_of (r_createdAt r);
     t_updatedAt := str_of (r_updatedAt r) |}.

(** JSON text is represented by the value it denotes: [None] is text that
    [JSON.parse] rejects, [JSON.stringify v] is [Some v]. *)
Definition JSONText := option JSVal.

(** Address of an object in the store. *)
Abbreviation loc := nat (only parsing).

Inductive OpType := op_add | op_toggle | op_delete | op_update | op_clear
                  | op_batch.

Inductive ErrorType := err_initialization | err_save | err_batch | err_load
                     | err_import.

(** [sanitizedUpdates] of [validateUpdates]: the properties it may hold. *)
Record Patch := mkPatch {
  p_text : option jsstring;
  p_completed : option bool;
  p_updatedAt : option jsstring
}.

(** The calls of [emit(event, data)], with the part of [data] that
    identifies the notification. *)
Inductive Event : Type :=
| ev_initialized
| ev_todos_loaded
| ev_todos_saved
| ev_todo_added (todo : loc)
| ev_todo_toggled (todo : loc)
| ev_todo_deleted (todo : loc)
| ev_todo_updated (todo : loc) (updates : Patch)
| ev_all_todos_cleared
| ev_batch_operation (action : jsstring) (processed : nat)
| ev_data_imported
| ev_not_found (type : OpType) (id : jsstring)
| ev_validation_error (type : OpType) (errors : list Msg)
| ev_error (type : ErrorType) (action : option OpType).

(** The fields of [TodoManager], the object store its array points into,
    the item kept under [storageKey], and the counters of the environment.
    [listeners] are observers: [emit] is recorded in [emitted], and a
    listener does not call back into the manager. *)
Record State := mkState {
  heap : list Todo;
  todos : list loc;
  initialized : bool;
  emitted : list Event;
  localStorage : option JSONText;
  storage_errors : list StorageErrorType;
  clock_reads : nat;
  random_reads : nat;
  setItem_calls : nat
}.

Definition set_heap (h : list Todo) (s : State) : State :=
  mkState h (todos s) (initialized s) (emitted s) (localStorage s)
          (storage_errors s) (clock_reads s) (random_reads s) (setItem_calls s).
Definition set_todos (l : list loc) (s : State) : State :=
  mkState (heap s) l (initialized s) (emitted s) (localStorage s)
          (storage_errors s) (clock_reads s) (random_reads s) (setItem_calls s).
Definition set_initialized (b : bool) (s : State) : State :=
  mkState (heap s) (todos s) b (emitted s) (localStorage s)
          (storage_errors s) (clock_reads s) (random_reads s) (setItem_calls s).
Definition set_emitted (e : list Event) (s : State) : State :=
  mkState (heap s) (todos s) (initialized s) e (localStorage s)
          (storage_errors s) (clock_reads s) (random_reads s) (setItem_calls s).
Definition set_localStorage (d : option JSONText) (s : State) : State :=
  mkState (heap s) (todos s) (initialized s) (emitted s) d
          (storage_errors s) (clock_reads s) (random_reads s) (setItem_calls s).
Definition set_storage_errors (e : list StorageErrorType) (s : State) : State :=
  mkState (heap s) (todos s) (initialized s) (emitted s) (localStorage s)
          e (clock_reads s) (random_reads s) (setItem_calls s).
Definition set_clock_reads (n : nat) (s : State) : State :=
  mkState (heap s) (todos s) (initialized s) (emitted s) (localStorage s)
          (storage_errors s) n (random_reads s) (setItem_calls s).
Definition set_random_reads (n : nat) (s : State) : State :=
  mkState (heap s) (todos s) (initialized s) (emitted s) (localStorage s)
          (storage_errors s) (clock_reads s) n (setItem_calls s).
Definition set_setItem_calls (n : nat) (s : State) : State :=
  mkState (heap s) (todos s) (initialized s) (emitted s) (localStorage s)
          (storage_errors s) (clock_reads s) (random_reads s) n.

(** *** Computations: state passing with exceptions *)

Inductive Exn := TypeError | SyntaxError | InvalidFormat | InvalidTodoData.

Inductive Res (A : Type) : Type :=
| Ok (a : A)
| Throw (e : Exn).
Arguments Ok {A} a.
Arguments Throw {A} e.

Definition M (A : Type) : Type := State -> Res A * State.

#[global] Instance M_ret : MRet M := fun A a s => (Ok a, s).

#[global] Instance M_bind : MBind M := fun A B f m s =>
  match m s with
  | (Ok a, s') => f a s'
  | (Throw e, s') => (Throw e, s')
  end.

Definition throw {A} (e : Exn) : M A := fun s => (Throw e, s).

(** [try { m } catch (error) { h }] *)
Definition try_catch {A} (m : M A) (h : Exn -> M A) : M A := fun s =>
  match m s with
  | (Ok a, s') => (Ok a, s')
  | (Throw e, s') => h e s'
  end.

(** A pure computation in which [None] is a TypeError. *)
Definition liftE {A} (o : option A) : M A :=
  match o with
  | Some a => mret a
  | None => throw TypeError
  end.

(** [isNaN(x)] for a number that is an integer or [NaN]. *)
Definition isNaN (x : option Z) : bool :=
  match x with None => true | Some _ => false end.

Definition is_Some_b {A} (o : option A) : bool :=
  match o with Some _ => true | None => false end.

Definition gets {A} (f : State -> A) : M A := fun s => (Ok (f s), s).
Definition modify (f : State -> State) : M unit := fun s => (Ok tt, f s).

(** The observable content of the list: what [getAllTodos()] shows, each
    reference followed to its record. *)
Definition contents (s : State) : list (option Todo) :=
  map (fun l => heap s !! l) (todos s).

(** The property names of the persisted envelope and of a record. *)
Definition k_todos := js "todos".
Definition k_version := js "version".
Definition k_lastSync := js "lastSync".
Definition k_id := js "id".
Definition k_text := js "text".
Definition k_completed := js "completed".
Definition k_createdAt := js "createdAt".
Definition k_updatedAt := js "updatedAt".

Section Program.

Variable rt : Runtime.

(** [emit(event, data)] *)
Definition emit (e : Event) : M unit :=
  modify (fun s => set_emitted (emitted s ++ [e]) s).

(** [new Date().toISOString()] *)
Definition new_Date_toISOString : M jsstring := fun s =>
  (Ok (now_toISOString rt (clock_reads s)),
   set_clock_reads (S (clock_reads s)) s).

(** [generateId()], the same in the validator and in the storage manager:
    [Date.now().toString(36) + Math.random().toString(36).substr(2)] *)
Definition generateId : M jsstring := fun s =>
  (Ok (toString36 (Date_now rt (clock_reads s))
       ++ Math_random36 rt (random_reads s)),
   set_random_reads (S (random_reads s))
     (set_clock_reads (S (clock_reads s)) s)).

(** [{}] or an object literal: a new object in the store. *)
Definition alloc (t : Todo) : M loc := fun s =>
  (Ok (length (heap s)), set_heap (heap s ++ [t]) s).

Fixpoint alloc_all (ts : list Todo) : M (list loc) :=
  match ts with
  | [] => mret []
  | t :: ts' => l ← alloc t; ls ← alloc_all ts'; mret (l :: ls)
  end.

(** Assignment to the properties of the object at [l]. *)
Definition update_obj (l : loc) (f : Todo -> Todo) : M unit :=
  modify (fun s => set_heap (alter f l (heap s)) s).

(* ------------------------------------------------------------------- *)
(** *** TodoValidator, continued *)

(** [validateTimestamp(timestamp, fieldName)] *)
Definition validateTimestamp (timestamp : JSVal) (fieldName : TsField)
  : option Validation :=
  let errors := [] in
  blank ← (if negb (truthy timestamp) then Some true
           else t ← call_trim timestamp; Some (eqb t []));
  let errors := push_if blank (TsEmpty fieldName) errors in
  let errors := push_if (truthy timestamp && negb (is_string timestamp))
                        (TsNotString fieldName) errors in
  let errors := push_if (truthy timestamp &&
                         negb (Rules.timestamp_pattern (str_of timestamp)))
                        (TsBadFormat fieldName) errors in
  let errors := push_if (truthy timestamp &&
                         Rules.timestamp_pattern (str_of timestamp) &&
                         isNaN (Date_parse rt (str_of timestamp)))
                        (TsInvalidDate fieldName) errors in
  Some {| v_isValid := no_errors errors; v_errors := errors |}.

Record TodoValidation := mkTodoValidation {
  td_isValid : bool;
  td_errors : list Msg;
  td_sanitizedTodo : RawTodo
}.

(** [errors.push(...more)] when [valid] is false *)
Definition push_all (valid : bool) (more errors : list Msg) : list Msg :=
  if valid then errors else errors ++ more.

(** [v || new Date().toISOString()] *)
Definition or_now (v : JSVal) : M JSVal :=
  if truthy v then mret v
  else now ← new_Date_toISOString; mret (JStr now).

(** [validateTodoData(todo)].  The argument is always one of the objects
    built by [StorageManager.loadTodos], so the guard against a non-object
    is not taken. *)
Definition validateTodoData (todo : RawTodo) : M TodoValidation :=
  let errors := [] in
  textValidation ← liftE (validateTodoText (r_text todo));
  let errors := push_all (tv_isValid textValidation)
                         (tv_errors textValidation) errors in
  let s_text := JStr (tv_sanitizedText textValidation) in
  idValidation ← liftE (validateTodoId (r_id todo));
  let errors := push_all (v_isValid idValidation)
                         (v_errors idValidation) errors in
  let s_id := r_id todo in
  let completedValidation := validateCompleted (r_completed todo) in
  let errors := push_all (v_isValid completedValidation)
                         (v_errors completedValidation) errors in
  let s_completed := js_or (r_completed todo) (JBool false) in
  createdValidation ← liftE (validateTimestamp (r_createdAt todo) CreatedAt);
  let errors := push_all (v_isValid createdValidation)
                         (v_errors createdValidation) errors in
  s_createdAt ← or_now (r_createdAt todo);
  updatedValidation ← liftE (validateTimestamp (r_updatedAt todo) UpdatedAt);
  let errors := push_all (v_isValid updatedValidation)
                         (v_errors updatedValidation) errors in
  s_updatedAt ← or_now (r_updatedAt todo);
  mret {| td_isValid := no_errors errors;
          td_errors := errors;
          td_sanitizedTodo :=
            mkRawTodo s_id s_text s_completed s_createdAt s_updatedAt |}.

(** The messages of [validateTodoArray]. *)
Inductive ArrayMsg : Type :=
| DuplicateId (id : JSVal) (first second : nat)  (* 发现重复ID *)
| ItemInvalid (position : nat) (errors : list Msg). (* 待办事项 n 验证失败 *)

Record ArrayValidation := mkArrayValidation {
  av_isValid : bool;
  av_errors : list ArrayMsg;
  av_validTodos : list Todo
}.

(** [idMap.get(id)] and [idMap.has(id)] *)
Fixpoint idMap_get (idMap : list (JSVal * nat)) (id : JSVal) : option nat :=
  match idMap with
  | [] => None
  | (k, i) :: rest =>
      if same_value_zero k id then Some i else idMap_get rest id
  end.

(** The first [forEach]: the duplicate check.  It only reports; the set
    [duplicateIds] it fills is read nowhere. *)
Fixpoint check_duplicates (todos : list RawTodo) (index : nat)
         (idMap : list (JSVal * nat)) (errors : list ArrayMsg)
  : list ArrayMsg :=
  match todos with
  | [] => errors
  | todo :: rest =>
      if truthy (r_id todo) then
        match idMap_get idMap (r_id todo) with
        | Some first =>
            check_duplicates rest (S index) idMap
              (errors ++ [DuplicateId (r_id todo) first index])
        | None =>
            check_duplicates rest (S index)
              (idMap ++ [(r_id todo, index)]) errors
        end
      else check_duplicates rest (S index) idMap errors
  end.

(** The second [forEach]: every candidate is validated on its own. *)
Fixpoint validate_each (todos : list RawTodo) (index : nat)
         (errors : list ArrayMsg) (validTodos : list Todo)
  : M (list ArrayMsg * list Todo) :=
  match todos with
  | [] => mret (errors, validTodos)
  | todo :: rest =>
      validation ← validateTodoData todo;
      if td_isValid validation then
        validate_each rest (S index) errors
          (validTodos ++ [todo_of_raw (td_sanitizedTodo validation)])
      else
        validate_each rest (S index)
          (errors ++ [ItemInvalid (index + 1) (td_errors validation)])
          validTodos
  end.

(** [validateTodoArray(todos)], called on [data.todos], which
    [StorageManager.loadTodos] has made an array. *)
Definition validateTodoArray (todos : list RawTodo) : M ArrayValidation :=
  let errors := check_duplicates todos 0 [] [] in
  r ← validate_each todos 0 errors [];
  mret {| av_isValid := no_errors r.1;
          av_errors := r.1;
          av_validTodos := r.2 |}.

Record CreateResult := mkCreateResult {
  cr_isValid : bool;
  cr_errors : list Msg;
  cr_todo : option Todo
}.

(** [createValidTodo(text)] *)
Definition createValidTodo (text : JSVal) : M CreateResult :=
  textValidation ← liftE (validateTodoText text);
  if negb (tv_isValid textValidation) then
    mret {| cr_isValid := false;
            cr_errors := tv_errors textValidation;
            cr_todo := None |}
  else
    now ← new_Date_toISOString;
    id ← generateId;
    mret {| cr_isValid := true;
            cr_errors := [];
            cr_todo := Some {| t_id := id;
                               t_text := tv_sanitizedText textValidation;
                               t_completed := false;
                               t_createdAt := now;
                               t_updatedAt := now |} |}.

Record UpdatesValidation := mkUpdatesValidation {
  uv_isValid : bool;
  uv_errors : list Msg;
  uv_sanitizedUpdates : option Patch
}.

(** The keys that [for (let field in updates)] visits. *)
Definition own_keys (updates : JSVal) : list jsstring :=
  match updates with
  | JObj props => map fst props
  | JArr elems =>
      map (fun i => toString 10 (N.of_nat i)) (seq 0 (length elems))
  | _ => []
  end.

(** The body of the loop of [validateUpdates]. *)
Fixpoint validate_fields (updates : JSVal) (fields : list jsstring)
         (errors : list Msg) (sanitizedUpdates : Patch)
  : option (list Msg * Patch) :=
  match fields with
  | [] => Some (errors, sanitizedUpdates)
  | field :: rest =>
      if eqb field k_text then
        v ← get_prop updates k_text;
        textValidation ← validateTodoText v;
        if negb (tv_isValid textValidation) then
          validate_fields updates rest
            (errors ++ tv_errors textValidation) sanitizedUpdates
        else
          validate_fields updates rest errors
            (mkPatch (Some (tv_sanitizedText textValidation))
                     (p_completed sanitizedUpdates)
                     (p_updatedAt sanitizedUpdates))
      else if eqb field k_completed then
        v ← get_prop updates k_completed;
        let completedValidation := validateCompleted v in
        if negb (v_isValid completedValidation) then
          validate_fields updates rest
            (errors ++ v_errors completedValidation) sanitizedUpdates
        else
          validate_fields updates rest errors
            (mkPatch (p_text sanitizedUpdates) (Some (bool_of v))
                     (p_updatedAt sanitizedUpdates))
      else
        validate_fields updates rest
          (errors ++ [FieldNotAllowed field]) sanitizedUpdates
  end.

(** [validateUpdates(updates)] *)
Definition validateUpdates (updates : JSVal) : M UpdatesValidation :=
  if negb (truthy updates) || negb (is_object updates) then
    mret {| uv_isValid := false;
            uv_errors := [UpdatesNotObject];
            uv_sanitizedUpdates := None |}
  else
    r ← liftE (validate_fields updates (own_keys updates) []
                               (mkPatch None None None));
    let errors := r.1 in
    let sanitizedUpdates := r.2 in
    sanitizedUpdates ←
      (if is_Some_b (p_text sanitizedUpdates)
          || is_Some_b (p_completed sanitizedUpdates)
       then now ← new_Date_toISOString;
            mret (mkPatch (p_text sanitizedUpdates)
                          (p_completed sanitizedUpdates) (Some now))
       else mret sanitizedUpdates);
    mret {| uv_isValid := no_errors errors;
            uv_errors := errors;
            uv_sanitizedUpdates := Some sanitizedUpdates |}.

(** [Object.assign(todo, sanitizedUpdates)] *)
Definition assign_patch (p : Patch) (t : Todo) : Todo :=
  {| t_id := t_id t;
     t_text := default (t_text t) (p_text p);
     t_completed := default (t_completed t) (p_completed p);
     t_createdAt := t_createdAt t;
     t_updatedAt := default (t_updatedAt t) (p_updatedAt p) |}.

(* ------------------------------------------------------------------- *)
(** *** StorageManager *)

Definition json_of_raw (r : RawTodo) : JSVal :=
  JObj [(k_id, r_id r); (k_text, r_text r); (k_completed, r_completed r);
        (k_createdAt, r_createdAt r); (k_updatedAt, r_updatedAt r)].

(** What [JSON.stringify] makes of a record of the list. *)
Definition json_of_todo (t : Todo) : JSVal :=
  JObj [(k_id, JStr (t_id t)); (k_text, JStr (t_text t));
        (k_completed, JBool (t_completed t));
        (k_createdAt, JStr (t_createdAt t));
        (k_updatedAt, JStr (t_updatedAt t))].

(** [this.version] *)
Definition version : jsstring := js "1.0".

(** [handleStorageError(error)]: one [storage-error] event dispatched on
    the document. *)
Definition handleStorageError (e : StorageErrorType) : M unit :=
  modify (fun s => set_storage_errors (storage_errors s ++ [e]) s).

(** [save(key, data)] for [key = storageKey].  The write is either
    [localStorage.setItem] or, when localStorage was found unavailable at
    construction, an assignment to [fallbackStorage], which is the case
    of a [setItem] that always goes through. *)
Definition save (data : JSVal) : M bool := fun s =>
  let k := setItem_calls s in
  match setItem rt k with
  | None =>
      (Ok true, set_localStorage (Some (Some data)) (set_setItem_calls (S k) s))
  | Some e =>
      (_ ← handleStorageError e; mret false) (set_setItem_calls (S k) s)
  end.

(** [load(key, defaultValue)] for [key = storageKey].  Text that does not
    parse raises a SyntaxError inside the [try], reported as unknown. *)
Definition load (defaultValue : JSVal) : M JSVal := fun s =>
  match localStorage s with
  | None => (Ok defaultValue, s)
  | Some None => (_ ← handleStorageError unknown_error; mret defaultValue) s
  | Some (Some v) => (Ok v, s)
  end.

(** [StorageManager.saveTodos(todos)] *)
Definition Storage_saveTodos (todos : list JSVal) : M bool :=
  lastSync ← new_Date_toISOString;
  save (JObj [(k_todos, JArr todos); (k_version, JStr version);
              (k_lastSync, JStr lastSync)]).

(** The function mapped over [data.todos]. *)
Definition migrate (todo : JSVal) : M RawTodo :=
  id ← liftE (get_prop todo k_id);
  id ← (if truthy id then mret id else g ← generateId; mret (JStr g));
  text ← liftE (get_prop todo k_text);
  completed ← liftE (get_prop todo k_completed);
  createdAt ← liftE (get_prop todo k_createdAt);
  createdAt ← or_now createdAt;
  updatedAt ← liftE (get_prop todo k_updatedAt);
  updatedAt ← or_now updatedAt;
  mret (mkRawTodo id (js_or text (JStr [])) (js_or completed (JBool false))
                  createdAt updatedAt).

Fixpoint map_migrate (elems : list JSVal) : M (list RawTodo) :=
  match elems with
  | [] => mret []
  | todo :: rest =>
      r ← migrate todo; rs ← map_migrate rest; mret (r :: rs)
  end.

(** The result of [StorageManager.loadTodos]: the loaded object and the
    array now in its [todos] property. *)
Record StoredData := mkStoredData {
  sd_data : JSVal;
  sd_todos : list RawTodo
}.

(** [StorageManager.loadTodos()].  The class body is strict code, so
    [data.todos = []] on a primitive raises a TypeError. *)
Definition Storage_loadTodos : M StoredData :=
  let defaultData := JObj [(k_todos, JArr []); (k_version, JStr version);
                           (k_lastSync, JNull)] in
  data ← load defaultData;
  t ← liftE (get_prop data k_todos);
  match t with
  | JArr elems =>
      rs ← map_migrate elems;
      mret (mkStoredData data rs)
  | _ =>
      match data with
      | JObj _ | JArr _ => mret (mkStoredData data [])
      | _ => throw TypeError
      end
  end.

(** [JSON.stringify(data, null, 2)] of the result of [loadTodos]; of an
    array only the elements are written. *)
Definition stringify_data (d : StoredData) : JSONText :=
  match sd_data d with
  | JObj props =>
      Some (JObj (set_assoc k_todos (JArr (map json_of_raw (sd_todos d)))
                            props))
  | v => Some v
  end.

(** [StorageManager.exportData()] *)
Definition Storage_exportData : M JSONText :=
  data ← Storage_loadTodos;
  mret (stringify_data data).

(** The loop of [importData] over [data.todos]. *)
Fixpoint check_import (elems : list JSVal) : M unit :=
  match elems with
  | [] => mret tt
  | todo :: rest =>
      text ← liftE (get_prop todo k_text);
      if negb (truthy text) || negb (is_string text)
      then throw InvalidTodoData
      else check_import rest
  end.

(** [StorageManager.importData(jsonData)] *)
Definition Storage_importData (jsonData : JSONText) : M bool :=
  try_catch
    (data ← (match jsonData with
             | Some v => mret v
             | None => throw SyntaxError
             end);
     t ← liftE (get_prop data k_todos);
     match t with
     | JArr elems =>
         _ ← check_import elems;
         Storage_saveTodos elems
     | _ => throw InvalidFormat
     end)
    (fun _ => mret false).

(* ------------------------------------------------------------------- *)
(** *** TodoManager *)

(** The records the array points to, in order. *)
Definition deref_all (s : State) : list Todo :=
  omap (fun l => heap s !! l) (todos s).

Definition has_id (s : State) (id : jsstring) (l : loc) : bool :=
  match heap s !! l with
  | Some t => eqb (t_id t) id
  | None => false
  end.

(** [this.todos.find(t => t.id === id)] *)
Definition find_todo (id : jsstring) (s : State) : option loc :=
  List.find (has_id s id) (todos s).

(** [this.todos.findIndex(t => t.id === id)], [None] for [-1] *)
Fixpoint findIndex_from (s : State) (id : jsstring) (l : list loc) (i : nat)
  : option nat :=
  match l with
  | [] => None
  | x :: l' => if has_id s id x then Some i else findIndex_from s id l' (S i)
  end.

Definition findIndex (id : jsstring) (s : State) : option nat :=
  findIndex_from s id (todos s) 0.

(** [saveTodos()] *)
Definition saveTodos : M bool :=
  try_catch
    (ts ← gets deref_all;
     success ← Storage_saveTodos (map json_of_todo ts);
     _ ← (if (success : bool) then emit ev_todos_saved else mret tt);
     mret success)
    (fun _ => _ ← emit (ev_error err_save None); mret false).

(** [addTodo(text)]: the new record, or [None] for [null]. *)
Definition addTodo (text : JSVal) : M (option loc) :=
  init ← gets initialized;
  if negb init then mret None
  else
    result ← createValidTodo text;
    match cr_isValid result, cr_todo result with
    | true, Some t =>
        todo ← alloc t;
        _ ← modify (fun s => set_todos (todo :: todos s) s);
        ok ← saveTodos;
        if (ok : bool) then
          _ ← emit (ev_todo_added todo);
          mret (Some todo)
        else
          _ ← modify (fun s => set_todos (tail (todos s)) s);
          _ ← emit (ev_error err_save (Some op_add));
          mret None
    | _, _ =>
        _ ← emit (ev_validation_error op_add (cr_errors result));
        mret None
    end.

Definition flip_completed (t : Todo) : Todo :=
  mkTodo (t_id t) (t_text t) (negb (t_completed t))
         (t_createdAt t) (t_updatedAt t).

Definition with_completed (b : bool) (t : Todo) : Todo :=
  mkTodo (t_id t) (t_text t) b (t_createdAt t) (t_updatedAt t).

Definition with_updatedAt (now : jsstring) (t : Todo) : Todo :=
  mkTodo (t_id t) (t_text t) (t_completed t) (t_createdAt t) now.

(** [toggleTodo(id)] *)
Definition toggleTodo (id : jsstring) : M bool :=
  init ← gets initialized;
  if negb init then mret false
  else
    found ← gets (find_todo id);
    match found with
    | None =>
        _ ← emit (ev_not_found op_toggle id);
        mret false
    | Some todo =>
        _ ← update_obj todo flip_completed;
        now ← new_Date_toISOString;
        _ ← update_obj todo (with_updatedAt now);
        ok ← saveTodos;
        if (ok : bool) then
          _ ← emit (ev_todo_toggled todo);
          mret true
        else
          _ ← update_obj todo flip_completed;
          _ ← emit (ev_error err_save (Some op_toggle));
          mret false
    end.

(** [a.splice(index, 0, x)] *)
Definition splice_in {A} (index : nat) (x : A) (a : list A) : list A :=
  take index a ++ x :: drop index a.

(** [deleteTodo(id)]; [a.splice(index, 1)] is [delete index a]. *)
Definition deleteTodo (id : jsstring) : M bool :=
  init ← gets initialized;
  if negb init then mret false
  else
    found ← gets (findIndex id);
    match found with
    | None =>
        _ ← emit (ev_not_found op_delete id);
        mret false
    | Some index =>
        deletedTodo ← gets (fun s => default O (todos s !! index));
        _ ← modify (fun s => set_todos (delete index (todos s)) s);
        ok ← saveTodos;
        if (ok : bool) then
          _ ← emit (ev_todo_deleted deletedTodo);
          mret true
        else
          _ ← modify (fun s =>
                 set_todos (splice_in index deletedTodo (todos s)) s);
          _ ← emit (ev_error err_save (Some op_delete));
          mret false
    end.

(** [updateTodo(id, updates)] *)
Definition updateTodo (id : jsstring) (updates : JSVal) : M bool :=
  init ← gets initialized;
  if negb init then mret false
  else
    found ← gets (find_todo id);
    match found with
    | None =>
        _ ← emit (ev_not_found op_update id);
        mret false
    | Some todo =>
        validation ← validateUpdates updates;
        match uv_isValid validation, uv_sanitizedUpdates validation with
        | true, Some sanitizedUpdates =>
            originalTodo ← gets (fun s => heap s !! todo);
            _ ← update_obj todo (assign_patch sanitizedUpdates);
            ok ← saveTodos;
            if (ok : bool) then
              _ ← emit (ev_todo_updated todo sanitizedUpdates);
              mret true
            else
              _ ← update_obj todo (fun t => default t originalTodo);
              _ ← emit (ev_error err_save (Some op_update));
              mret false
        | _, _ =>
            _ ← emit (ev_validation_error op_update (uv_errors validation));
            mret false
        end
    end.

(** [clearAllTodos()] *)
Definition clearAllTodos : M bool :=
  init ← gets initialized;
  if negb init then mret false
  else
    clearedTodos ← gets todos;
    _ ← modify (set_todos []);
    ok ← saveTodos;
    if (ok : bool) then
      _ ← emit ev_all_todos_cleared;
      mret true
    else
      _ ← modify (set_todos clearedTodos);
      _ ← emit (ev_error err_save (Some op_clear));
      mret false.

(** The loop of [batchOperation].  The copies pushed onto
    [affectedTodos] only travel in the payload of the notification. *)
Fixpoint batch_loop (action : jsstring) (ids : list jsstring)
         (processed : nat) : M nat :=
  match ids with
  | [] => mret processed
  | id :: rest =>
      found ← gets (find_todo id);
      match found with
      | None => batch_loop action rest processed
      | Some todo =>
          done_ ← gets (fun s => from_option t_completed false (heap s !! todo));
          if eqb action (js "complete") then
            if negb done_ then
              _ ← update_obj todo (with_completed true);
              now ← new_Date_toISOString;
              _ ← update_obj todo (with_updatedAt now);
              batch_loop action rest (S processed)
            else batch_loop action rest processed
          else if eqb action (js "incomplete") then
            if (done_ : bool) then
              _ ← update_obj todo (with_completed false);
              now ← new_Date_toISOString;
              _ ← update_obj todo (with_updatedAt now);
              batch_loop action rest (S processed)
            else batch_loop action rest processed
          else if eqb action (js "delete") then
            index ← gets (findIndex id);
            match index with
            | Some i =>
                _ ← modify (fun s => set_todos (delete i (todos s)) s);
                batch_loop action rest (S processed)
            | None => batch_loop action rest processed
            end
          else batch_loop action rest processed
      end
  end.

Definition validActions : list jsstring :=
  [js "complete"; js "incomplete"; js "delete"].

(** [batchOperation(ids, action)]: the pair [(success, processed)]. *)
Definition batchOperation (ids : list jsstring) (action : jsstring)
  : M (bool * nat) :=
  init ← gets initialized;
  if negb init then mret (false, O)
  else if (length ids =? 0)%nat then mret (false, O)
  else if negb (existsb (eqb action) validActions) then mret (false, O)
  else
    originalTodos ← gets todos;
    try_catch
      (processed ← batch_loop action ids 0;
       ok ← (if (0 <? processed)%nat then saveTodos else mret false);
       if (ok : bool) then
         _ ← emit (ev_batch_operation action processed);
         mret (true, processed)
       else
         _ ← modify (set_todos originalTodos);
         _ ← emit (ev_error err_save (Some op_batch));
         mret (false, O))
      (fun _ =>
         _ ← modify (set_todos originalTodos);
         _ ← emit (ev_error err_batch None);
         mret (false, O)).

(** [new Date(b.createdAt) - new Date(a.createdAt)], [None] for [NaN] *)
Definition compare_created (s : State) (a b : loc) : option Z :=
  match heap s !! a, heap s !! b with
  | Some ta, Some tb =>
      match Date_parse rt (t_createdAt tb), Date_parse rt (t_createdAt ta) with
      | Some x, Some y => Some (x - y)%Z
      | _, _ => None
      end
  | _, _ => None
  end.

(** [a] is to come after [b]: the comparison function is positive. *)
Definition comes_after (s : State) (a b : loc) : bool :=
  match compare_created s a b with
  | Some d => (0 <? d)%Z
  | None => false
  end.

(** [Array.prototype.sort(compareFn)]: the sort is stable, so for a
    consistent comparison function its result is the one a stable
    insertion sort computes. *)
Fixpoint sort_insert {A} (after : A -> A -> bool) (x : A) (l : list A)
  : list A :=
  match l with
  | [] => [x]
  | y :: l' => if after x y then y :: sort_insert after x l' else x :: l
  end.

Definition Array_sort {A} (after : A -> A -> bool) (l : list A) : list A :=
  foldr (sort_insert after) [] l.

(** [loadTodos()] of the manager *)
Definition loadTodos : M bool :=
  try_catch
    (data ← Storage_loadTodos;
     validation ← validateTodoArray (sd_todos data);
     validTodos ← alloc_all (av_validTodos validation);
     _ ← modify (set_todos validTodos);
     _ ← modify (fun s => set_todos (Array_sort (comes_after s) (todos s)) s);
     _ ← emit ev_todos_loaded;
     mret true)
    (fun _ =>
       _ ← modify (set_todos []);
       _ ← emit (ev_error err_load None);
       mret false).

(** [initialize()] *)
Definition initialize : M bool :=
  try_catch
    (_ ← loadTodos;
     _ ← modify (set_initialized true);
     _ ← emit ev_initialized;
     mret true)
    (fun _ =>
       _ ← emit (ev_error err_initialization None);
       mret false).

(** [exportData()] of the manager *)
Definition exportData : M JSONText := Storage_exportData.

(** [importData(jsonData)] of the manager *)
Definition importData (jsonData : JSONText) : M bool :=
  try_catch
    (success ← Storage_importData jsonData;
     _ ← (if (success : bool) then
            _ ← loadTodos; emit ev_data_imported
          else mret tt);
     mret success)
    (fun _ =>
       _ ← emit (ev_error err_import None);
       mret false).

(** [getAllTodos()]: a new array of the same references. *)
Definition getAllTodos (s : State) : list loc := todos s.

Definition completed_at (s : State) (l : loc) : bool :=
  from_option t_completed false (heap s !! l).



(** [searchTodos(query)] *)
Definition searchTodos (query : JSVal) (s : State) : list loc :=
  if negb (truthy query) || negb (is_string query) then []
  else
    let searchTerm := trim (toLowerCase rt (str_of query)) in
    List.filter
      (fun l => match heap s !! l with
                | Some todo => includes (toLowerCase rt (t_text todo)) searchTerm
                | None => false
                end)
      (todos s).

End Program.

(* ===================================================================== *)
(** ** Statistics: IEEE 754 double arithmetic *)
(* ===================================================================== *)

Module Number.

(** The Number value of a length.  Lengths are far below [2^53], where
    the conversion is exact. *)
Definition of_nat (n : nat) : float :=
  PrimFloat.of_uint63 (Uint63.of_Z (Z.of_nat n)).

Definition of_Z (z : Z) : float :=
  if (z <? 0)%Z then PrimFloat.opp (PrimFloat.of_uint63 (Uint63.of_Z (- z)))
  else PrimFloat.of_uint63 (Uint63.of_Z z).


End Number.



(* ===================================================================== *)
(** ** Running the program *)
(* ===================================================================== *)

(** The state after [new TodoManager(storageManager, validator)], over a
    store that holds [item] under [storageKey]. *)
Definition constructed (item : option JSONText) : State :=
  {| heap := []; todos := []; initialized := false; emitted := [];
     localStorage := item; storage_errors := [];
     clock_reads := 0; random_reads := 0; setItem_calls := 0 |}.

Definition result {A} (r : Res A * State) : Res A := r.1.
Definition after {A} (r : Res A * State) : State := r.2.

(** A concrete environment, used to run the program on examples: a clock
    that starts at 2024-01-01T00:00:00.000Z and advances by one millisecond
    at each access, ISO 8601 formatting and parsing of such instants, and a
    choice of which writes to localStorage fail. *)
Module Browser.

Local Open Scope Z_scope.

(** Days since 1970-01-01 of a date of the proleptic Gregorian calendar,
    and back. *)
Definition days_from_civil (y m d : Z) : Z :=
  let y := if m <=? 2 then y - 1 else y in
  let era := y / 400 in
  let yoe := y - era * 400 in
  let doy := (153 * (if 2 <? m then m - 3 else m + 9) + 2) / 5 + d - 1 in
  let doe := yoe * 365 + yoe / 4 - yoe / 100 + doy in
  era * 146097 + doe - 719468.

Definition civil_from_days (z : Z) : Z * Z * Z :=
  let z := z + 719468 in
  let era := z / 146097 in
  let doe := z - era * 146097 in
  let yoe := (doe - doe / 1460 + doe / 36524 - doe / 146096) / 365 in
  let doy := doe - (365 * yoe + yoe / 4 - yoe / 100) in
  let mp := (5 * doy + 2) / 153 in
  let d := doy - (153 * mp + 2) / 5 + 1 in
  let m := if mp <? 10 then mp + 3 else mp - 9 in
  ((if m <=? 2 then yoe + era * 400 + 1 else yoe + era * 400), m, d).

Fixpoint digits (width : nat) (n : Z) (acc : jsstring) : jsstring :=
  match width with
  | O => acc
  | S w => digits w (n / 10) ((48 + Z.to_N (n mod 10))%N :: acc)
  end.

(** [new Date(ms).toISOString()] for a year of four digits *)
Definition toISOString (ms : Z) : jsstring :=
  let '(y, m, d) := civil_from_days (ms / 86400000) in
  let t := ms mod 86400000 in
  digits 4 y [] ++ js "-" ++ digits 2 m [] ++ js "-" ++ digits 2 d []
  ++ js "T" ++ digits 2 (t / 3600000) [] ++ js ":"
  ++ digits 2 (t / 60000 mod 60) [] ++ js ":"
  ++ digits 2 (t / 1000 mod 60) [] ++ js "." ++ digits 3 (t mod 1000) []
  ++ js "Z".

Fixpoint number (ds : list N) (acc : Z) : Z :=
  match ds with
  | [] => acc
  | c :: ds' => number ds' (10 * acc + (Z.of_N c - 48))
  end.

(** [Date.parse] on the extended format with milliseconds and [Z]; any
    other text is rejected. *)
Definition parse (s : jsstring) : option Z :=
  if Rules.timestamp_pattern s then
    match s with
    | [y1; y2; y3; y4; _; m1; m2; _; d1; d2; _; h1; h2; _; i1; i2; _;
       s1; s2; _; f1; f2; f3; _] =>
        let y := number [y1; y2; y3; y4] 0 in
        let m := number [m1; m2] 0 in
        let d := number [d1; d2] 0 in
        let h := number [h1; h2] 0 in
        let i := number [i1; i2] 0 in
        let sec := number [s1; s2] 0 in
        let f := number [f1; f2; f3] 0 in
        let days := days_from_civil y m d in
        if (1 <=? m) && (m <=? 12) && (1 <=? d)
           && bool_decide (civil_from_days days = (y, m, d))
           && (h <? 24) && (i <? 60) && (sec <? 60)
        then Some (days * 86400000 + h * 3600000 + i * 60000
                   + sec * 1000 + f)
        else None
    | _ => None
    end
  else None.

Definition lower (c : N) : N :=
  if is_upper c
     || ((192 <=? c)%N && (c <=? 222)%N && negb (c =? 215)%N)
  then (c + 32)%N else c.

Definition epoch : Z := 1704067200000.

Definition runtime (failing : nat -> option StorageErrorType) : Runtime :=
  {| Date_now := fun k => Z.to_N (epoch + Z.of_nat k);
     now_toISOString := fun k => toISOString (epoch + Z.of_nat k);
     Date_parse := parse;
     Math_random36 := fun k =>
       toString36 ((806515533049393 * N.of_nat (S k)) mod 131621703842267136)%N;
     setItem := failing;
     toLowerCase := map lower |}.

(** Every write goes through. *)
Definition reliable : Runtime := runtime (fun _ => None).

(** The quota is exhausted: every write fails. *)
Definition full : Runtime := runtime (fun _ => Some quota_exceeded).

End Browser.

#[global] Arguments js : simpl never.
#[global] Arguments toString : simpl never.
#[global] Arguments toString36 : simpl never.
#[global] Arguments trim : simpl never.
#[global] Arguments sanitizeInput : simpl never.
#[global] Arguments k_todos : simpl never.
#[global] Arguments k_version : simpl never.
#[global] Arguments k_lastSync : simpl never.
#[global] Arguments k_id : simpl never.
#[global] Arguments k_text : simpl never.
#[global] Arguments k_completed : simpl never.
#[global] Arguments k_createdAt : simpl never.
#[global] Arguments k_updatedAt : simpl never.
#[global] Arguments version : simpl never.
#[global] Arguments json_of_todo : simpl never.
#[global] Arguments json_of_raw : simpl never.
#[global] Arguments validActions : simpl never.

(* ===================================================================== *)
(** ** Properties of strings and of the pure validators *)
(* ===================================================================== *)

Definition blank (s : jsstring) : bool := forallb is_ws s.

Lemma eqb_nil (s : jsstring) : eqb s [] = true <-> s = [].
Proof. unfold eqb. rewrite bool_decide_eq_true. tauto. Qed.

Lemma eqb_nil_false (s : jsstring) : eqb s [] = false <-> s <> [].
Proof. unfold eqb. rewrite bool_decide_eq_false. tauto. Qed.

Lemma eqb_refl (s : jsstring) : eqb s s = true.
Proof. unfold eqb. now rewrite bool_decide_eq_true. Qed.

Lemma trimStart_nil (s : jsstring) : trimStart s = [] <-> blank s = true.
Proof.
  induction s as [|c s IH]; simpl; [tauto|].
  destruct (is_ws c); simpl; [exact IH|].
  split; discriminate.
Qed.

Lemma trimStart_blank_iff (s : jsstring) :
  blank (trimStart s) = true <-> blank s = true.
Proof.
  induction s as [|c s IH]; simpl; [tauto|].
  destruct (is_ws c) eqn:E; simpl; [exact IH|].
  rewrite E. simpl. tauto.
Qed.

Lemma blank_rev (s : jsstring) : blank (rev s) = blank s.
Proof.
  unfold blank. induction s as [|c s IH]; simpl; [reflexivity|].
  rewrite forallb_app, IH. simpl. rewrite andb_true_r. apply andb_comm.
Qed.

(** A string trims to the empty string exactly when it consists of white
    space only. *)
Lemma trim_nil (s : jsstring) : trim s = [] <-> blank s = true.
Proof.
  unfold trim, trimEnd.
  rewrite <- (trimStart_blank_iff s), <- (blank_rev (trimStart s)).
  rewrite <- trimStart_nil.
  split; intros H.
  - apply (f_equal (@rev N)) in H. rewrite rev_involutive in H. exact H.
  - rewrite H. reflexivity.
Qed.

Lemma no_errors_push_if {A} (c : bool) (m : A) (errors : list A) :
  no_errors (push_if c m errors) = negb c && no_errors errors.
Proof.
  destruct c; simpl; [|reflexivity].
  destruct errors; reflexivity.
Qed.

Lemma truthy_JStr (s : jsstring) : truthy (JStr s) = negb (eqb s []).
Proof. reflexivity. Qed.

(** The verdict of [validateTodoText] on a string, as a formula. *)
Lemma validateTodoText_string (s : jsstring) :
  exists r,
    validateTodoText (JStr s) = Some r /\
    tv_sanitizedText r = sanitizeInput (JStr s) /\
    tv_isValid r = no_errors (tv_errors r) /\
    tv_isValid r =
      negb (blank s) && negb (200 <? length s)%nat && Rules.text_pattern s.
Proof.
  unfold validateTodoText. rewrite truthy_JStr.
  destruct (eqb s []) eqn:E.
  - apply eqb_nil in E. subst s. eexists. split; [reflexivity|].
    split; [reflexivity|]. split; reflexivity.
  - simpl negb. cbn [call_trim mbind option_bind is_string js_length str_of].
    eexists. split; [reflexivity|]. split; [reflexivity|].
    split; [reflexivity|].
    cbn [tv_isValid]. rewrite !no_errors_push_if. cbn [no_errors negb andb].
    assert (Hb : eqb (trim s) [] = blank s).
    { destruct (blank s) eqn:B.
      - apply eqb_nil, trim_nil, B.
      - apply eqb_nil_false. intros H. apply trim_nil in H. congruence. }
    rewrite Hb.
    assert (Hl : (length s <? Rules.text_minLength)%nat = false).
    { apply Nat.ltb_ge. apply eqb_nil_false in E.
      destruct s; [congruence|]. unfold Rules.text_minLength. simpl. lia. }
    rewrite Hl. unfold Rules.text_maxLength.
    destruct (200 <? length s)%nat, (Rules.text_pattern s), (blank s);
      reflexivity.
Qed.

(** C4, as amended.  [validateTodoText] rejects a string exactly when it is
    blank after trimming, when its length as given (before trimming) exceeds
    200, or when it contains [<] or [>]; so a string that is not blank, is at
    most 200 characters long as given and has no angle bracket is valid. *)
Theorem validateTodoText_rejects_iff (s : jsstring) :
  exists r,
    validateTodoText (JStr s) = Some r /\
    (tv_isValid r = false <->
       trim s = [] \/ (200 < length s)%nat \/ Rules.text_pattern s = false) /\
    (trim s <> [] -> (length s <= 200)%nat -> Rules.text_pattern s = true ->
       tv_isValid r = true).
Proof.
  destruct (validateTodoText_string s) as (r & Hr & _ & _ & Hv).
  exists r. split; [exact Hr|]. rewrite Hv, trim_nil.
  destruct (blank s) eqn:B; simpl.
  { split; [split; auto|]. intros H. exfalso. now apply H. }
  destruct (Nat.ltb_spec 200 (length s)) as [L|L]; simpl.
  { split; [split; auto|]. intros _ H. lia. }
  destruct (Rules.text_pattern s) eqn:P.
  - split; [|reflexivity].
    split; [discriminate|]. intros [H|[H|H]]; [discriminate|lia|discriminate].
  - split; [split; auto|]. intros _ _ H. discriminate.
Qed.

(** C4, counterexample.  One space followed by 200 letters [a] is not blank,
    is 200 characters long after trimming and has no angle bracket, and is
    nevertheless rejected: the length that is checked is the one before
    trimming, 201. *)
Lemma validateTodoText_length_is_raw :
  let s := js " " ++ repeat 97 200 in
  trim s <> [] /\ length (trim s) = 200%nat /\ Rules.text_pattern s = true /\
  exists r, validateTodoText (JStr s) = Some r /\ tv_isValid r = false
            /\ tv_errors r = [TextTooLong].
Proof.
  cbv zeta. split; [|split; [|split]].
  - intros H. apply (f_equal (@length N)) in H. vm_compute in H. discriminate.
  - vm_compute. reflexivity.
  - vm_compute. reflexivity.
  - eexists. split; [vm_compute; reflexivity|]. split; reflexivity.
Qed.

(** C4, instance.  ["Buy milk"] between spaces is valid. *)
Lemma validateTodoText_rejects_iff_witness :
  exists r, validateTodoText (JStr (js "  Buy milk ")) = Some r
            /\ tv_isValid r = true.
Proof.
  destruct (validateTodoText_rejects_iff (js "  Buy milk ")) as (r & H & _ & Hv).
  exists r. split; [exact H|]. apply Hv.
  - intros E. vm_compute in E. discriminate.
  - simpl. lia.
  - vm_compute. reflexivity.
Defined.

(* ===================================================================== *)
(** ** Reasoning about computations *)
(* ===================================================================== *)

Lemma bind_Ok {A B} (m : M A) (f : A -> M B) (s s' : State) (a : A) :
  m s = (Ok a, s') -> (m ≫= f) s = f a s'.
Proof. intros H. unfold mbind, M_bind. rewrite H. reflexivity. Qed.

Lemma bind_Throw {A B} (m : M A) (f : A -> M B) (s s' : State) (e : Exn) :
  m s = (Throw e, s') -> (m ≫= f) s = (Throw e, s').
Proof. intros H. unfold mbind, M_bind. rewrite H. reflexivity. Qed.

Lemma try_catch_Ok {A} (m : M A) (h : Exn -> M A) (s s' : State) (a : A) :
  m s = (Ok a, s') -> try_catch m h s = (Ok a, s').
Proof. intros H. unfold try_catch. rewrite H. reflexivity. Qed.

Lemma set_todos_same (s : State) : set_todos (todos s) s = s.
Proof. destruct s; reflexivity. Qed.

Lemma set_todos_same_after (s : State) (f : State -> State) :
  todos (f s) = todos s -> set_todos (todos s) (f s) = f s.
Proof. intros <-. apply set_todos_same. Qed.

Lemma set_heap_same (s : State) : set_heap (heap s) s = s.
Proof. destruct s; reflexivity. Qed.

Ltac munfold :=
  unfold mbind, M_bind, mret, M_ret, gets, modify, emit, liftE, throw,
         try_catch.

Section AddTodo.

Variable rt : Runtime.

(** [createValidTodo] on a string the validator rejects. *)
Lemma createValidTodo_invalid (text : jsstring) (s : State) :
  trim text = [] \/ (200 < length text)%nat \/ Rules.text_pattern text = false ->
  exists errors,
    errors <> [] /\
    createValidTodo rt (JStr text) s = (Ok (mkCreateResult false errors None), s).
Proof.
  intros H.
  destruct (validateTodoText_rejects_iff text) as (r & Hr & Hv & _).
  apply Hv in H. exists (tv_errors r). split.
  - destruct (validateTodoText_string text) as (r' & Hr' & _ & He & _).
    rewrite Hr in Hr'. injection Hr' as <-. rewrite H in He.
    intros E. rewrite E in He. discriminate.
  - unfold createValidTodo. rewrite Hr. munfold. cbn. rewrite H. reflexivity.
Qed.

End AddTodo.

(** The envelope [StorageManager.saveTodos] writes. *)
Definition envelope (ts : list Todo) (lastSync : jsstring) : JSVal :=
  JObj [(k_todos, JArr (map json_of_todo ts)); (k_version, JStr version);
        (k_lastSync, JStr lastSync)].

Section SaveTodos.

Variable rt : Runtime.

(** The state after a [saveTodos()] that went through ... *)
Definition saved (s : State) : State :=
  set_emitted (emitted s ++ [ev_todos_saved])
    (set_localStorage
       (Some (Some (envelope (deref_all s) (now_toISOString rt (clock_reads s)))))
       (set_setItem_calls (S (setItem_calls s))
          (set_clock_reads (S (clock_reads s)) s))).

(** ... and after one that failed with [e]. *)
Definition save_failed (e : StorageErrorType) (s : State) : State :=
  set_storage_errors (storage_errors s ++ [e])
    (set_setItem_calls (S (setItem_calls s))
       (set_clock_reads (S (clock_reads s)) s)).

Lemma saveTodos_ok (s : State) :
  setItem rt (setItem_calls s) = None ->
  saveTodos rt s = (Ok true, saved s).
Proof.
  intros H. unfold saveTodos, Storage_saveTodos, save. munfold. cbn.
  rewrite H. reflexivity.
Qed.

Lemma saveTodos_fail (s : State) (e : StorageErrorType) :
  setItem rt (setItem_calls s) = Some e ->
  saveTodos rt s = (Ok false, save_failed e s).
Proof.
  intros H. unfold saveTodos, Storage_saveTodos, save, handleStorageError.
  munfold. cbn. rewrite H. reflexivity.
Qed.

End SaveTodos.

#[global] Arguments saveTodos : simpl never.
#[global] Arguments saved : simpl never.
#[global] Arguments save_failed : simpl never.

Section AddTodoCases.

Variable rt : Runtime.

(** The record [createValidTodo] builds in state [s]. *)
Definition new_todo (text : jsstring) (s : State) : Todo :=
  {| t_id := toString36 (Date_now rt (S (clock_reads s)))
             ++ Math_random36 rt (random_reads s);
     t_text := sanitizeInput (JStr text);
     t_completed := false;
     t_createdAt := now_toISOString rt (clock_reads s);
     t_updatedAt := now_toISOString rt (clock_reads s) |}.

(** The state in which [addTodo] calls [saveTodos()]. *)
Definition inserted (text : jsstring) (s : State) : State :=
  set_todos (length (heap s) :: todos s)
    (set_heap (heap s ++ [new_todo text s])
       (set_random_reads (S (random_reads s))
          (set_clock_reads (S (S (clock_reads s))) s))).

Lemma addTodo_invalid (text : jsstring) (s : State) :
  initialized s = true ->
  trim text = [] \/ (200 < length text)%nat \/ Rules.text_pattern text = false ->
  exists errors,
    errors <> [] /\
    addTodo rt (JStr text) s =
      (Ok None, set_emitted (emitted s ++ [ev_validation_error op_add errors]) s).
Proof.
  intros Hi H.
  destruct (createValidTodo_invalid rt text s H) as (errors & Hn & Hc).
  exists errors. split; [exact Hn|].
  unfold addTodo. munfold. cbn -[createValidTodo]. rewrite Hi. cbn -[createValidTodo].
  rewrite Hc. reflexivity.
Qed.

Lemma createValidTodo_valid (text : jsstring) (s : State) :
  trim text <> [] -> (length text <= 200)%nat ->
  Rules.text_pattern text = true ->
  createValidTodo rt (JStr text) s =
    (Ok (mkCreateResult true [] (Some (new_todo text s))),
     set_random_reads (S (random_reads s))
       (set_clock_reads (S (S (clock_reads s))) s)).
Proof.
  intros Ht Hl Hp.
  destruct (validateTodoText_rejects_iff text) as (r & Hr & _ & Hv).
  specialize (Hv Ht Hl Hp).
  destruct (validateTodoText_string text) as (r' & Hr' & Hs & _).
  rewrite Hr in Hr'. injection Hr' as <-.
  unfold createValidTodo. rewrite Hr. munfold. cbn. rewrite Hv. cbn.
  unfold new_todo. rewrite Hs. reflexivity.
Qed.

Lemma addTodo_saved (text : jsstring) (s : State) :
  initialized s = true ->
  trim text <> [] -> (length text <= 200)%nat ->
  Rules.text_pattern text = true ->
  setItem rt (setItem_calls s) = None ->
  addTodo rt (JStr text) s =
    (Ok (Some (length (heap s))),
     set_emitted (emitted (saved rt (inserted text s))
                  ++ [ev_todo_added (length (heap s))])
                 (saved rt (inserted text s))).
Proof.
  intros Hi Ht Hl Hp Hw.
  unfold addTodo. munfold. cbn -[createValidTodo]. rewrite Hi.
  cbn -[createValidTodo]. rewrite (createValidTodo_valid text s Ht Hl Hp).
  cbn. fold (inserted text s).
  rewrite saveTodos_ok by exact Hw. reflexivity.
Qed.

Lemma addTodo_save_failed (text : jsstring) (s : State) (e : StorageErrorType) :
  initialized s = true ->
  trim text <> [] -> (length text <= 200)%nat ->
  Rules.text_pattern text = true ->
  setItem rt (setItem_calls s) = Some e ->
  addTodo rt (JStr text) s =
    (Ok None,
     set_emitted (emitted s ++ [ev_error err_save (Some op_add)])
       (set_todos (todos s) (save_failed e (inserted text s)))).
Proof.
  intros Hi Ht Hl Hp Hw.
  unfold addTodo. munfold. cbn -[createValidTodo]. rewrite Hi.
  cbn -[createValidTodo]. rewrite (createValidTodo_valid text s Ht Hl Hp).
  cbn. fold (inserted text s).
  rewrite (saveTodos_fail rt _ e) by exact Hw. reflexivity.
Qed.

End AddTodoCases.

(* ===================================================================== *)
(** ** Adding a record *)
(* ===================================================================== *)

(** The identifier [generateId()] returns when [addTodo] runs in [s]: the
    clock has been read once, for [now], before it is read for the id. *)
Definition next_id (rt : Runtime) (s : State) : jsstring :=
  toString36 (Date_now rt (S (clock_reads s))) ++ Math_random36 rt (random_reads s).

(** C6, as amended.  On an initialized manager, for every text that is
    empty after trimming or longer than 200 characters, [addTodo] returns
    null, leaves the list, its records and the persisted item as they were,
    attempts no write, and emits a [validation-error] of type [add]. *)
Theorem addTodo_rejects_blank_or_long
    (rt : Runtime) (text : jsstring) (s : State) :
  initialized s = true ->
  trim text = [] \/ (200 < length text)%nat ->
  let r := addTodo rt (JStr text) s in
  result r = Ok None /\
  contents (after r) = contents s /\
  todos (after r) = todos s /\ heap (after r) = heap s /\
  setItem_calls (after r) = setItem_calls s /\
  localStorage (after r) = localStorage s /\
  exists errors,
    errors <> [] /\
    emitted (after r) = emitted s ++ [ev_validation_error op_add errors].
Proof.
  intros Hi H.
  assert (H' : trim text = [] \/ (200 < length text)%nat
               \/ Rules.text_pattern text = false) by tauto.
  destruct (addTodo_invalid rt text s Hi H') as (errors & Hn & Ha).
  cbv zeta. rewrite Ha. cbn.
  repeat (split; [reflexivity|]).
  exists errors. split; [exact Hn|reflexivity].
Qed.

(** C6, instance: three spaces, on a manager initialized over an empty
    store. *)
Lemma addTodo_rejects_blank_or_long_witness :
  let s := after (initialize Browser.reliable (constructed None)) in
  let r := addTodo Browser.reliable (JStr (js "   ")) s in
  result r = Ok None /\ contents (after r) = contents s /\
  setItem_calls (after r) = setItem_calls s.
Proof.
  cbv zeta.
  destruct (addTodo_rejects_blank_or_long Browser.reliable (js "   ")
              (after (initialize Browser.reliable (constructed None))))
    as (H1 & H2 & _ & _ & H5 & _).
  - reflexivity.
  - left. vm_compute. reflexivity.
  - exact (conj H1 (conj H2 H5)).
Defined.

(** C6, counterexample.  Before [initialize()] has run, [addTodo] of a
    blank text returns null without emitting anything: the guard on
    [initialized] comes before validation. *)
Lemma addTodo_uninitialized_is_silent :
  let s := constructed None in
  let r := addTodo Browser.reliable (JStr (js "   ")) s in
  trim (js "   ") = [] /\ result r = Ok None /\ emitted (after r) = [].
Proof. cbv zeta. split; [|split]; vm_compute; reflexivity. Qed.

(** The number a digit character of [toString] stands for, and the number
    a string of them stands for in base [radix]. *)
Definition undigit (c : N) : N := if c <? 58 then c - 48 else c - 87.

Definition of_digits (radix : N) (ds : jsstring) : N :=
  fold_left (fun acc c => acc * radix + undigit c) ds 0.

Lemma undigit_digit (d : N) : d < 36 -> undigit (digit d) = d.
Proof.
  intros H. unfold undigit, digit.
  destruct (N.ltb_spec d 10).
  - destruct (N.ltb_spec (48 + d) 58); lia.
  - destruct (N.ltb_spec (87 + d) 58); lia.
Qed.

Lemma of_digits_snoc (radix : N) (ds : jsstring) (c : N) :
  of_digits radix (ds ++ [c]) = of_digits radix ds * radix + undigit c.
Proof. unfold of_digits. rewrite fold_left_app. reflexivity. Qed.

Lemma toString_aux_digits (fuel : nat) :
  forall n acc,
    n < 36 ^ N.of_nat fuel ->
    exists ds, toString_aux 36 fuel n acc = ds ++ acc /\ of_digits 36 ds = n.
Proof.
  induction fuel as [|fuel IH]; intros n acc Hn.
  - cbn in Hn. exists []. split; [reflexivity|]. cbn. lia.
  - cbn [toString_aux].
    assert (Hm : n mod 36 < 36) by (apply N.mod_lt; discriminate).
    destruct (N.eqb_spec (n / 36) 0) as [Hz|Hz].
    + exists [digit (n mod 36)]. split; [reflexivity|].
      cbn. rewrite undigit_digit by exact Hm.
      pose proof (N.div_mod n 36 ltac:(discriminate)). lia.
    + destruct (IH (n / 36) (digit (n mod 36) :: acc)) as (ds & E & V).
      { apply N.Div0.div_lt_upper_bound.
        rewrite Nat2N.inj_succ, N.pow_succ_r' in Hn. exact Hn. }
      exists (ds ++ [digit (n mod 36)]). split.
      * rewrite E, <- app_assoc. reflexivity.
      * rewrite of_digits_snoc, V, undigit_digit by exact Hm.
        pose proof (N.div_mod n 36 ltac:(discriminate)). lia.
Qed.

(** Reading [n.toString(36)] back gives [n]. *)
Lemma of_digits_toString36 (n : N) : of_digits 36 (toString36 n) = n.
Proof.
  unfold toString36, toString.
  destruct (toString_aux_digits (S (N.to_nat (N.log2 n))) n []) as (ds & E & V).
  - rewrite Nat2N.inj_succ, N2Nat.id.
    destruct (N.eq_dec n 0) as [->|Hn]; [reflexivity|].
    pose proof (N.log2_spec n ltac:(lia)) as [_ Hlt].
    eapply N.lt_le_trans; [exact Hlt|].
    apply N.pow_le_mono_l. lia.
  - rewrite E, app_nil_r. exact V.
Qed.

Lemma toString36_inj (n m : N) : toString36 n = toString36 m -> n = m.
Proof.
  intros H. rewrite <- (of_digits_toString36 n), <- (of_digits_toString36 m).
  now rewrite H.
Qed.

(** Two ids made from different clock readings that have as many digits
    in base 36 are different, whatever the random suffixes. *)
Lemma generated_ids_differ (n m : N) (r r' : jsstring) :
  length (toString36 n) = length (toString36 m) ->
  n <> m ->
  toString36 n ++ r <> toString36 m ++ r'.
Proof.
  intros Hl Hne E. apply Hne, toString36_inj.
  apply (app_inj_1 _ _ _ _ Hl E).
Qed.

(** C5, as amended.  On an initialized manager whose write goes through,
    for every text that is not blank after trimming, is at most 200
    characters long and has no [<] or [>], [addTodo] returns a new record,
    placed at the head of the list, with [completed] false and [createdAt]
    equal to [updatedAt].  Its id is the generated one: the clock reading
    [now] in base 36 followed by the random suffix.  That id differs from the id of every record of
    the list that was made from another clock reading with as many digits
    in base 36, whatever the suffixes; nothing else makes it new: when a
    record of the list already has that very id, the call succeeds all the
    same and the list holds two records with one id. *)
Theorem addTodo_creates_record
    (rt : Runtime) (text : jsstring) (s : State) :
  initialized s = true ->
  trim text <> [] -> (length text <= 200)%nat ->
  Rules.text_pattern text = true ->
  setItem rt (setItem_calls s) = None ->
  let r := addTodo rt (JStr text) s in
  let now := Date_now rt (S (clock_reads s)) in
  exists l t,
    result r = Ok (Some l) /\
    heap (after r) !! l = Some t /\
    todos (after r) = l :: todos s /\
    t_completed t = false /\
    t_createdAt t = t_updatedAt t /\
    t_id t = next_id rt s /\
    (forall l' t' n suffix,
        l' ∈ todos s -> heap s !! l' = Some t' ->
        t_id t' = toString36 n ++ suffix ->
        length (toString36 n) = length (toString36 now) ->
        n <> now ->
        t_id t' <> t_id t) /\
    (forall l' t',
        l' ∈ todos s -> heap s !! l' = Some t' ->
        t_id t' = next_id rt s ->
        l' <> l /\ l' ∈ todos (after r) /\
        heap (after r) !! l' = Some t' /\ t_id t' = t_id t).
Proof.
  intros Hi Ht Hl Hp Hw. cbv zeta.
  rewrite (addTodo_saved rt text s Hi Ht Hl Hp Hw).
  exists (length (heap s)), (new_todo rt text s).
  unfold saved, inserted. cbn [result after fst snd heap todos set_emitted
    set_localStorage set_setItem_calls set_clock_reads set_todos set_heap
    set_random_reads].
  split; [reflexivity|]. split.
  { rewrite lookup_app_r by lia. now rewrite Nat.sub_diag. }
  split; [reflexivity|]. split; [reflexivity|]. split; [reflexivity|].
  split; [reflexivity|]. split.
  - intros l' t' n suffix _ _ E Hlen Hne. rewrite E. cbn [t_id new_todo].
    apply generated_ids_differ; assumption.
  - intros l' t' Hin Hl' E.
    assert (Hlt : (l' < length (heap s))%nat)
      by (apply lookup_lt_is_Some; eauto).
    split; [lia|]. split; [now right|]. split.
    + rewrite lookup_app_l by exact Hlt. exact Hl'.
    + exact E.
Qed.

(** C5, instance: ["Walk dog"] added after ["Buy milk"]; the two ids are
    made from different clock readings and differ. *)
Lemma addTodo_creates_record_witness :
  let rt := Browser.reliable in
  let s0 := after (initialize rt (constructed None)) in
  let s1 := after (addTodo rt (JStr (js "Buy milk")) s0) in
  let r := addTodo rt (JStr (js "Walk dog")) s1 in
  exists l t t0,
    result r = Ok (Some l) /\ heap (after r) !! l = Some t /\
    todos (after r) = l :: todos s1 /\
    t_completed t = false /\ t_createdAt t = t_updatedAt t /\
    contents s1 = [Some t0] /\ t_id t0 <> t_id t.
Proof.
  cbv zeta.
  destruct (addTodo_creates_record Browser.reliable (js "Walk dog")
              (after (addTodo Browser.reliable (JStr (js "Buy milk"))
                        (after (initialize Browser.reliable (constructed None))))))
    as (l & t & H1 & H2 & H3 & H4 & H5 & _ & Hu & _).
  - vm_compute. reflexivity.
  - intros E. vm_compute in E. discriminate E.
  - vm_compute. lia.
  - vm_compute. reflexivity.
  - vm_compute. reflexivity.
  - exists l, t,
      (new_todo Browser.reliable (js "Buy milk")
         (after (initialize Browser.reliable (constructed None)))).
    split; [exact H1|]. split; [exact H2|]. split; [exact H3|].
    split; [exact H4|]. split; [exact H5|].
    split; [vm_compute; reflexivity|].
    apply (Hu 0%nat _ (Date_now Browser.reliable 1)
              (Math_random36 Browser.reliable 0)).
    + vm_compute. left.
    + vm_compute. reflexivity.
    + vm_compute. reflexivity.
    + vm_compute. reflexivity.
    + intros E. vm_compute in E. discriminate E.
Defined.

(** A record persisted by an earlier session (or brought in by an import). *)
Definition earlier_record : Todo :=
  {| t_id := js "lqu5m2o17xvw4crho1";
     t_text := js "Buy milk";
     t_completed := false;
     t_createdAt := js "2023-12-31T10:00:00.000Z";
     t_updatedAt := js "2023-12-31T10:00:00.000Z" |}.

(** C5, counterexample.  (a) A single space is a text of one character
    without angle brackets, and [addTodo] returns null for it.  (b) Over a
    store that already holds a record with the id the generator produces
    next, [addTodo] returns a record with that same id: the list then has
    two records with one id. *)
Lemma addTodo_blank_or_repeated_id :
  (let s := after (initialize Browser.reliable (constructed None)) in
   let text := js " " in
   length text = 1%nat /\ Rules.text_pattern text = true /\
   initialized s = true /\
   setItem Browser.reliable (setItem_calls s) = None /\
   result (addTodo Browser.reliable (JStr text) s) = Ok None)
  /\
  (let item := envelope [earlier_record] (js "2023-12-31T10:00:00.001Z") in
   let s := after (initialize Browser.reliable (constructed (Some (Some item)))) in
   let r := addTodo Browser.reliable (JStr (js "Walk dog")) s in
   contents s = [Some earlier_record] /\
   initialized s = true /\
   setItem Browser.reliable (setItem_calls s) = None /\
   result r = Ok (Some 1%nat) /\
   map (fmap t_id) (contents (after r))
     = [Some (t_id earlier_record); Some (t_id earlier_record)]).
Proof.
  split; cbv zeta.
  - repeat split; vm_compute; reflexivity.
  - repeat split; vm_compute; reflexivity.
Qed.

(* ===================================================================== *)
(** ** Searching *)
(* ===================================================================== *)

(** Every reference held by the array points to an object of the store. *)
Definition well_formed (s : State) : Prop :=
  Forall (fun l => is_Some (heap s !! l)) (todos s).

Lemma includes_empty (s : jsstring) : includes s [] = true.
Proof. destruct s; reflexivity. Qed.

Lemma filter_all {A} (f : A -> bool) (l : list A) :
  Forall (fun x => f x = true) l -> List.filter f l = l.
Proof.
  induction 1 as [|x l Hx _ IH]; simpl; [reflexivity|].
  rewrite Hx, IH. reflexivity.
Qed.

(** C9.  For a query that is not empty and consists of white space only
    (which lower-casing leaves as it is), [searchTodos] returns every record
    of the list, in list order; the empty string and values that are not
    strings give the empty result. *)
Theorem searchTodos_whitespace_query
    (rt : Runtime) (query : jsstring) (s : State) :
  well_formed s ->
  query <> [] -> blank query = true -> toLowerCase rt query = query ->
  searchTodos rt (JStr query) s = getAllTodos s /\
  searchTodos rt (JStr []) s = [] /\
  (forall v, is_string v = false -> searchTodos rt v s = []).
Proof.
  intros Hwf Hne Hb Hlow. split; [|split].
  - unfold searchTodos, getAllTodos. rewrite truthy_JStr.
    apply eqb_nil_false in Hne. rewrite Hne. cbn [negb is_string orb str_of].
    rewrite Hlow. apply trim_nil in Hb. rewrite Hb.
    apply filter_all. eapply Forall_impl; [exact Hwf|].
    intros l [t Ht]. cbn beta. rewrite Ht. apply includes_empty.
  - reflexivity.
  - intros v Hv. unfold searchTodos. rewrite Hv.
    cbn [negb]. rewrite orb_true_r. reflexivity.
Qed.

(** C9, instance: the query of two spaces over a list of two records. *)
Lemma searchTodos_whitespace_query_witness :
  let rt := Browser.reliable in
  let s := after (addTodo rt (JStr (js "Walk dog"))
             (after (addTodo rt (JStr (js "Buy milk"))
                (after (initialize rt (constructed None)))))) in
  searchTodos rt (JStr (js "  ")) s = [1; 0]%nat.
Proof.
  cbv zeta.
  destruct (searchTodos_whitespace_query Browser.reliable (js "  ")
              (after (addTodo Browser.reliable (JStr (js "Walk dog"))
                 (after (addTodo Browser.reliable (JStr (js "Buy milk"))
                    (after (initialize Browser.reliable (constructed None))))))))
    as (H & _).
  - vm_compute. repeat constructor; eexists; reflexivity.
  - intros E. vm_compute in E. discriminate.
  - vm_compute. reflexivity.
  - vm_compute. reflexivity.
  - rewrite H. vm_compute. reflexivity.
Defined.

(* ===================================================================== *)
(** ** Batch operations *)
(* ===================================================================== *)

(** The record with this id, if it is in the list, is already in the state
    the action would put it in; for [delete] it has to be absent. *)
Definition nothing_to_do (action id : jsstring) (s : State) : Prop :=
  match find_todo id s with
  | None => True
  | Some l =>
      (action = js "complete" /\ completed_at s l = true) \/
      (action = js "incomplete" /\ completed_at s l = false)
  end.

Lemma batch_loop_nothing_to_do
    (rt : Runtime) (action : jsstring) (ids : list jsstring) (s : State)
    (processed : nat) :
  Forall (fun id => nothing_to_do action id s) ids ->
  batch_loop rt action ids processed s = (Ok processed, s).
Proof.
  induction 1 as [|id ids Hid _ IH]; [reflexivity|].
  cbn [batch_loop]. munfold. cbn beta iota.
  unfold nothing_to_do in Hid.
  destruct (find_todo id s) as [l|]; [|exact IH].
  fold (completed_at s l).
  destruct Hid as [[-> Hc]|[-> Hc]]; rewrite Hc.
  - change (eqb (js "complete") (js "complete")) with true. exact IH.
  - change (eqb (js "incomplete") (js "complete")) with false.
    change (eqb (js "incomplete") (js "incomplete")) with true. exact IH.
Qed.

(** C10.  On an initialized manager, a batch call with a non-empty array of
    ids and a valid action that changes no record performs no write,
    returns [{success: false, processed: 0}], emits an [error] of type
    [save], and leaves the list as it was. *)
Theorem batchOperation_without_change
    (rt : Runtime) (ids : list jsstring) (action : jsstring) (s : State) :
  initialized s = true ->
  ids <> [] ->
  In action validActions ->
  Forall (fun id => nothing_to_do action id s) ids ->
  let r := batchOperation rt ids action s in
  result r = Ok (false, O) /\
  setItem_calls (after r) = setItem_calls s /\
  localStorage (after r) = localStorage s /\
  emitted (after r) = emitted s ++ [ev_error err_save (Some op_batch)] /\
  todos (after r) = todos s /\ heap (after r) = heap s /\
  contents (after r) = contents s.
Proof.
  intros Hi Hne Hact Hnoop. cbv zeta.
  assert (E : batchOperation rt ids action s =
              (Ok (false, O),
               set_emitted (emitted s ++ [ev_error err_save (Some op_batch)]) s)).
  { unfold batchOperation. munfold. cbn beta iota. rewrite Hi. cbn [negb].
    destruct ids as [|id ids]; [congruence|]. cbn [length Nat.eqb].
    assert (Hv : existsb (eqb action) validActions = true).
    { apply existsb_exists. exists action. split; [exact Hact|apply eqb_refl]. }
    rewrite Hv. cbn [negb].
    rewrite (batch_loop_nothing_to_do rt action (id :: ids) s 0 Hnoop).
    cbn. rewrite set_todos_same. reflexivity. }
  rewrite E. cbn. repeat split; reflexivity.
Qed.

(** C10, instance: completing a record that is completed already, together
    with an id that is not in the list. *)
Lemma batchOperation_without_change_witness :
  let rt := Browser.reliable in
  let item := envelope [with_completed true earlier_record]
                       (js "2023-12-31T10:00:00.001Z") in
  let s := after (initialize rt (constructed (Some (Some item)))) in
  let r := batchOperation rt [t_id earlier_record; js "absent"] (js "complete") s in
  result r = Ok (false, O) /\ setItem_calls (after r) = setItem_calls s /\
  contents (after r) = contents s.
Proof.
  cbv zeta.
  destruct (batchOperation_without_change Browser.reliable
              [t_id earlier_record; js "absent"] (js "complete")
              (after (initialize Browser.reliable
                 (constructed (Some (Some
                    (envelope [with_completed true earlier_record]
                              (js "2023-12-31T10:00:00.001Z"))))))))
    as (H1 & H2 & _ & _ & _ & _ & H7).
  - reflexivity.
  - discriminate.
  - left. reflexivity.
  - constructor; [|constructor; [|constructor]].
    + vm_compute. left. split; reflexivity.
    + vm_compute. exact I.
  - exact (conj H1 (conj H2 H7)).
Defined.

(* ===================================================================== *)
(** ** Statistics *)
(* ===================================================================== *)


























(* ===================================================================== *)
(** ** What a failed save leaves behind *)
(* ===================================================================== *)

Lemma well_formed_lookup_app (s : State) (extra : list Todo) :
  well_formed s ->
  map (fun l => (heap s ++ extra) !! l) (todos s) = contents s.
Proof.
  unfold well_formed, contents. intros H.
  apply map_ext_Forall. eapply Forall_impl; [exact H|].
  intros l Hl. cbn beta. apply lookup_app_l, lookup_lt_is_Some, Hl.
Qed.

Lemma findIndex_from_Some (s : State) (id : jsstring) (l : list loc) (i k : nat) :
  findIndex_from s id l i = Some k ->
  (i <= k)%nat /\ is_Some (l !! (k - i)%nat).
Proof.
  revert i. induction l as [|x l IH]; intros i H; simpl in H; [discriminate|].
  destruct (has_id s id x).
  - injection H as <-. rewrite Nat.sub_diag. split; [lia|]. eexists. reflexivity.
  - apply IH in H as [H1 H2]. split; [lia|].
    replace (k - i)%nat with (S (k - S i)) by lia. exact H2.
Qed.

Lemma splice_in_delete {A} (l : list A) (i : nat) (x : A) :
  l !! i = Some x -> splice_in i x (delete i l) = l.
Proof.
  intros H. unfold splice_in. rewrite delete_take_drop.
  assert (Hi : (i < length l)%nat) by (apply lookup_lt_is_Some; eauto).
  rewrite take_app_length' by (rewrite length_take; lia).
  rewrite drop_app_length' by (rewrite length_take; lia).
  apply take_drop_middle, H.
Qed.

Section FailedSave.

Variable rt : Runtime.
Variable s : State.
Variable e : StorageErrorType.
Hypothesis Hinit : initialized s = true.
Hypothesis Hfail : setItem rt (setItem_calls s) = Some e.

(** [addTodo] takes the new record off the array again. *)
Lemma addTodo_rolls_back (text : jsstring) :
  well_formed s ->
  let r := addTodo rt (JStr text) s in
  result r = Ok None /\ contents (after r) = contents s /\
  (trim text <> [] -> (length text <= 200)%nat ->
   Rules.text_pattern text = true ->
   emitted (after r) = emitted s ++ [ev_error err_save (Some op_add)]).
Proof.
  intros Hwf. cbv zeta.
  assert (Hinv : trim text = [] \/ (200 < length text)%nat
                 \/ Rules.text_pattern text = false ->
                 result (addTodo rt (JStr text) s) = Ok None /\
                 contents (after (addTodo rt (JStr text) s)) = contents s /\
                 (trim text <> [] -> (length text <= 200)%nat ->
                  Rules.text_pattern text = true ->
                  emitted (after (addTodo rt (JStr text) s))
                  = emitted s ++ [ev_error err_save (Some op_add)])).
  { intros H. destruct (addTodo_invalid rt text s Hinit H) as (errs & _ & ->).
    cbn. split; [reflexivity|]. split; [reflexivity|].
    intros H1 H2 H3. destruct H as [H|[H|H]]; [contradiction|lia|congruence]. }
  destruct (eqb (trim text) []) eqn:Et.
  { apply Hinv. left. apply eqb_nil, Et. }
  destruct (Nat.ltb_spec 200 (length text)) as [Hl|Hl].
  { apply Hinv. right. left. exact Hl. }
  destruct (Rules.text_pattern text) eqn:Hp.
  2: { apply Hinv. right. right. reflexivity. }
  clear Hinv.
  apply eqb_nil_false in Et.
  rewrite (addTodo_save_failed rt text s e Hinit Et Hl Hp Hfail).
  cbn. split; [reflexivity|]. split; [|reflexivity].
  unfold contents. cbn. apply well_formed_lookup_app, Hwf.
Qed.

(** [deleteTodo] puts the reference back where it was. *)
Lemma deleteTodo_rolls_back (id : jsstring) (index : nat) :
  findIndex id s = Some index ->
  let r := deleteTodo rt id s in
  result r = Ok false /\ contents (after r) = contents s /\
  emitted (after r) = emitted s ++ [ev_error err_save (Some op_delete)].
Proof.
  intros Hf. cbv zeta. unfold deleteTodo. munfold. cbn beta iota.
  rewrite Hinit. cbn [negb]. cbn beta iota. rewrite Hf. cbn beta iota.
  destruct (findIndex_from_Some s id (todos s) 0 index Hf) as [_ [l Hl]].
  rewrite Nat.sub_0_r in Hl. rewrite Hl.
  rewrite (saveTodos_fail rt _ e) by exact Hfail.
  unfold save_failed. cbn -[splice_in delete].
  rewrite (splice_in_delete _ _ _ Hl).
  repeat split; reflexivity.
Qed.

(** [clearAllTodos] restores the array. *)
Lemma clearAllTodos_rolls_back :
  let r := clearAllTodos rt s in
  result r = Ok false /\ contents (after r) = contents s /\
  emitted (after r) = emitted s ++ [ev_error err_save (Some op_clear)].
Proof.
  cbv zeta. unfold clearAllTodos. munfold. cbn beta iota.
  rewrite Hinit. cbn [negb].
  rewrite (saveTodos_fail rt _ e) by exact Hfail.
  cbn. repeat split; reflexivity.
Qed.

(** [toggleTodo] flips [completed] back, and leaves the new [updatedAt]. *)
Lemma toggleTodo_keeps_updatedAt (id : jsstring) (todo : loc) (t : Todo) :
  find_todo id s = Some todo ->
  heap s !! todo = Some t ->
  let r := toggleTodo rt id s in
  result r = Ok false /\
  todos (after r) = todos s /\
  heap (after r) =
    <[todo := with_updatedAt (now_toISOString rt (clock_reads s)) t]> (heap s) /\
  emitted (after r) = emitted s ++ [ev_error err_save (Some op_toggle)].
Proof.
  intros Hf Ht. cbv zeta. unfold toggleTodo, update_obj, new_Date_toISOString.
  munfold. cbn beta iota. rewrite Hinit. cbn [negb]. cbn beta iota.
  rewrite Hf. cbn beta iota.
  rewrite (saveTodos_fail rt _ e) by exact Hfail.
  unfold save_failed. cbn -[alter insert lookup].
  split; [reflexivity|]. split; [reflexivity|]. split; [|reflexivity].
  rewrite !list_alter_alter_eq.
  apply list_eq. intros i. destruct (decide (i = todo)) as [->|Hne].
  - rewrite list_lookup_alter_eq, Ht.
    rewrite list_lookup_insert_eq by (apply lookup_lt_is_Some; eauto).
    destruct t as [a b [|] d u]; reflexivity.
  - rewrite list_lookup_alter_ne, list_lookup_insert_ne by congruence.
    reflexivity.
Qed.

End FailedSave.

(** [validateUpdates] touches nothing but the clock. *)
Lemma validateUpdates_frame (rt : Runtime) (updates : JSVal) (s : State) :
  after (validateUpdates rt updates s) = s \/
  after (validateUpdates rt updates s) = set_clock_reads (S (clock_reads s)) s.
Proof.
  unfold validateUpdates.
  destruct (negb (truthy updates) || negb (is_object updates)); [left; reflexivity|].
  munfold.
  destruct (validate_fields updates (own_keys updates) [] (mkPatch None None None))
    as [[errors p]|]; [|left; reflexivity].
  cbn. unfold new_Date_toISOString.
  destruct (is_Some_b (p_text p) || is_Some_b (p_completed p));
    [right|left]; reflexivity.
Qed.

(** [updateTodo] copies the saved properties back onto the record. *)
Lemma updateTodo_rolls_back
    (rt : Runtime) (s : State) (e : StorageErrorType)
    (id : jsstring) (updates : JSVal) (todo : loc) (t : Todo) :
  initialized s = true ->
  setItem rt (setItem_calls s) = Some e ->
  find_todo id s = Some todo ->
  heap s !! todo = Some t ->
  contents (after (updateTodo rt id updates s)) = contents s.
Proof.
  intros Hinit Hfail Hf Ht. unfold updateTodo. munfold. cbn beta iota.
  rewrite Hinit. cbn [negb]. cbn beta iota. rewrite Hf. cbn beta iota.
  pose proof (validateUpdates_frame rt updates s) as Hfr.
  destruct (validateUpdates rt updates s) as [[v|x] s1]; cbn [after snd] in Hfr;
    [|cbn; destruct Hfr as [->| ->]; reflexivity].
  assert (Hs1 : heap s1 = heap s /\ todos s1 = todos s /\
                setItem_calls s1 = setItem_calls s).
  { destruct Hfr as [->| ->]; repeat split; reflexivity. }
  destruct Hs1 as (Hh & Htd & Hc).
  destruct (uv_isValid v), (uv_sanitizedUpdates v) as [p|];
    try (cbn; unfold contents; cbn; rewrite Hh, Htd; reflexivity).
  unfold update_obj. munfold. cbn beta iota.
  rewrite (saveTodos_fail rt _ e) by (cbn; rewrite Hc; exact Hfail).
  unfold save_failed. cbn -[alter lookup].
  unfold contents. cbn -[alter lookup].
  rewrite list_alter_alter_eq, Htd, Hh, Ht.
  match goal with
  | |- context [alter ?f todo (heap s)] =>
      assert (Ha : alter f todo (heap s) = heap s)
  end.
  { apply list_eq. intros i. destruct (decide (i = todo)) as [->|Hne].
    - rewrite list_lookup_alter_eq, Ht. reflexivity.
    - rewrite list_lookup_alter_ne by congruence. reflexivity. }
  rewrite Ha. reflexivity.
Qed.

(** C1, the failing inputs.  Over a store holding one record, with every
    write failing: [toggleTodo] returns false and emits the [save] error,
    and the record is left with a new [updatedAt]; [batchOperation] with
    [complete] returns [{success: false, processed: 0}] and emits the [save]
    error, and the record is left completed, with a new [updatedAt]: the
    array put back by the rollback holds the same objects that the loop
    has changed. *)
Theorem failed_save_leaves_changes :
  let rt := Browser.full in
  let item := envelope [earlier_record] (js "2023-12-31T10:00:00.001Z") in
  let s := after (initialize rt (constructed (Some (Some item)))) in
  let now := js "2024-01-01T00:00:00.000Z" in
  (initialized s = true /\ contents s = [Some earlier_record]) /\
  (let r := toggleTodo rt (t_id earlier_record) s in
   result r = Ok false /\
   last (emitted (after r)) = Some (ev_error err_save (Some op_toggle)) /\
   setItem_calls (after r) = 1%nat /\ localStorage (after r) = localStorage s /\
   contents (after r) = [Some (with_updatedAt now earlier_record)] /\
   contents (after r) <> contents s) /\
  (let r := batchOperation rt [t_id earlier_record] (js "complete") s in
   result r = Ok (false, O) /\
   last (emitted (after r)) = Some (ev_error err_save (Some op_batch)) /\
   setItem_calls (after r) = 1%nat /\ localStorage (after r) = localStorage s /\
   contents (after r)
     = [Some (with_completed true (with_updatedAt now earlier_record))] /\
   contents (after r) <> contents s).
Proof.
  cbv zeta. split; [split; vm_compute; reflexivity|].
  split.
  - repeat split; try (vm_compute; reflexivity).
    intros E. vm_compute in E. discriminate.
  - repeat split; try (vm_compute; reflexivity).
    intros E. vm_compute in E. discriminate.
Qed.

(* ===================================================================== *)
(** ** Validation of a candidate record *)
(* ===================================================================== *)

(** The verdicts of the field validators, as formulas. *)
Definition text_ok (v : JSVal) : bool :=
  match v with
  | JStr s => negb (blank s) && negb (200 <? length s)%nat && Rules.text_pattern s
  | _ => false
  end.

Definition id_ok (v : JSVal) : bool :=
  match v with
  | JStr s => negb (blank s) && Rules.id_pattern s
  | _ => false
  end.

Definition timestamp_ok (rt : Runtime) (v : JSVal) : bool :=
  match v with
  | JStr s => negb (blank s) && Rules.timestamp_pattern s
              && negb (isNaN (Date_parse rt s))
  | _ => false
  end.

(** A candidate that [validateTodoData] accepts. *)
Definition valid_raw (rt : Runtime) (r : RawTodo) : bool :=
  text_ok (r_text r) && id_ok (r_id r) && is_boolean (r_completed r)
  && timestamp_ok rt (r_createdAt r) && timestamp_ok rt (r_updatedAt r).

(** What [validateTodoData] returns as [sanitizedTodo] for it. *)
Definition sanitized (r : RawTodo) : RawTodo :=
  mkRawTodo (r_id r) (JStr (sanitizeInput (r_text r))) (r_completed r)
            (r_createdAt r) (r_updatedAt r).

Lemma eqb_trim_blank (s : jsstring) : eqb (trim s) [] = blank s.
Proof.
  destruct (blank s) eqn:B.
  - apply eqb_nil, trim_nil, B.
  - apply eqb_nil_false. intros H. apply trim_nil in H. congruence.
Qed.

Lemma validateTodoText_spec (v : JSVal) (r : TextValidation) :
  validateTodoText v = Some r ->
  tv_isValid r = text_ok v /\ tv_isValid r = no_errors (tv_errors r) /\
  tv_sanitizedText r = sanitizeInput v.
Proof.
  destruct v as [| |b|q|s|l|p].
  5: { intros H. destruct (validateTodoText_string s) as (r' & Hr & Hs & He & Hv).
       rewrite H in Hr. injection Hr as <-. auto. }
  all: unfold validateTodoText; try destruct b;
    try destruct (truthy (JNum q)); cbn; intros H;
    try discriminate; injection H as <-; auto.
Qed.

Lemma validateTodoId_spec (v : JSVal) (r : Validation) :
  validateTodoId v = Some r ->
  v_isValid r = id_ok v /\ v_isValid r = no_errors (v_errors r).
Proof.
  destruct v as [| |b|q|s|l|p].
  5: { unfold validateTodoId. rewrite truthy_JStr.
       destruct (eqb s []) eqn:E.
       - apply eqb_nil in E. subst s. intros H. injection H as <-. auto.
       - cbn [negb call_trim mbind option_bind is_string str_of andb].
         intros H. injection H as <-. cbn [v_isValid v_errors].
         split; [|reflexivity].
         rewrite !no_errors_push_if, eqb_trim_blank. cbn.
         destruct (blank s), (Rules.id_pattern s); reflexivity. }
  all: unfold validateTodoId; try destruct b;
    try destruct (truthy (JNum q)); cbn; intros H;
    try discriminate; injection H as <-; auto.
Qed.

Lemma validateTimestamp_spec
    (rt : Runtime) (v : JSVal) (f : TsField) (r : Validation) :
  validateTimestamp rt v f = Some r ->
  v_isValid r = timestamp_ok rt v /\ v_isValid r = no_errors (v_errors r).
Proof.
  destruct v as [| |b|q|s|l|p].
  5: { unfold validateTimestamp. rewrite truthy_JStr.
       destruct (eqb s []) eqn:E.
       - apply eqb_nil in E. subst s. intros H. injection H as <-. auto.
       - cbn [negb call_trim mbind option_bind is_string str_of andb].
         intros H. injection H as <-. cbn [v_isValid v_errors].
         split; [|reflexivity].
         rewrite !no_errors_push_if, eqb_trim_blank. cbn.
         destruct (blank s), (Rules.timestamp_pattern s),
           (isNaN (Date_parse rt s)); reflexivity. }
  all: unfold validateTimestamp; try destruct b;
    try destruct (truthy (JNum q)); cbn; intros H;
    try discriminate; injection H as <-; auto.
Qed.

Lemma validateCompleted_spec (v : JSVal) :
  v_isValid (validateCompleted v) = is_boolean v /\
  v_isValid (validateCompleted v) = no_errors (v_errors (validateCompleted v)).
Proof. destruct v; split; reflexivity. Qed.

Lemma no_errors_push_all (valid : bool) (more errors : list Msg) :
  valid = no_errors more ->
  no_errors (push_all valid more errors) = valid && no_errors errors.
Proof.
  intros ->. destruct more as [|m more]; cbn; [reflexivity|].
  destruct errors; reflexivity.
Qed.

Lemma push_all_valid (more errors : list Msg) :
  push_all true more errors = errors.
Proof. reflexivity. Qed.

Lemma timestamp_ok_truthy (rt : Runtime) (v : JSVal) :
  timestamp_ok rt v = true -> truthy v = true.
Proof.
  destruct v as [| |b|q|s|l|p]; try discriminate. cbn.
  destruct s; [discriminate|reflexivity].
Qed.

Lemma or_now_truthy (rt : Runtime) (v : JSVal) (s : State) :
  truthy v = true -> or_now rt v s = (Ok v, s).
Proof. intros H. unfold or_now. rewrite H. reflexivity. Qed.

Lemma js_or_boolean (v : JSVal) :
  is_boolean v = true -> js_or v (JBool false) = v.
Proof. destruct v as [| |[|]|q|s|l|p]; try discriminate; reflexivity. Qed.

(** [validateTodoData] accepts exactly the candidates satisfying
    [valid_raw]; for those it reads no clock and returns [sanitized]. *)
Lemma validateTodoData_spec (rt : Runtime) (r : RawTodo) (s : State) :
  match validateTodoData rt r s with
  | (Ok v, s') =>
      td_isValid v = valid_raw rt r /\
      (valid_raw rt r = true ->
       td_errors v = [] /\ td_sanitizedTodo v = sanitized r /\ s' = s)
  | (Throw _, _) => True
  end.
Proof.
  unfold validateTodoData, valid_raw, or_now, new_Date_toISOString.
  destruct (validateTodoText (r_text r)) as [tv|] eqn:Htv; [|exact I].
  destruct (validateTodoText_spec _ _ Htv) as (Ht1 & Ht2 & Ht3).
  destruct (validateTodoId (r_id r)) as [iv|] eqn:Hiv; [|exact I].
  destruct (validateTodoId_spec _ _ Hiv) as (Hi1 & Hi2).
  destruct (validateCompleted_spec (r_completed r)) as (Hc1 & Hc2).
  remember (validateCompleted (r_completed r)) as bv eqn:Hbv in *.
  destruct (validateTimestamp rt (r_createdAt r) CreatedAt) as [cv|] eqn:Hcv;
    [|exact I].
  destruct (validateTimestamp_spec _ _ _ _ Hcv) as (Hcr1 & Hcr2).
  destruct (validateTimestamp rt (r_updatedAt r) UpdatedAt) as [uv|] eqn:Huv;
    [|munfold; cbn; destruct (truthy (r_createdAt r)); exact I].
  destruct (validateTimestamp_spec _ _ _ _ Huv) as (Hu1 & Hu2).
  assert (Hvalid :
    no_errors
      (push_all (v_isValid uv) (v_errors uv)
         (push_all (v_isValid cv) (v_errors cv)
            (push_all (v_isValid bv) (v_errors bv)
               (push_all (v_isValid iv) (v_errors iv)
                  (push_all (tv_isValid tv) (tv_errors tv) [])))))
    = text_ok (r_text r) && id_ok (r_id r) && is_boolean (r_completed r)
      && timestamp_ok rt (r_createdAt r) && timestamp_ok rt (r_updatedAt r)).
  { rewrite !no_errors_push_all by assumption. cbn [no_errors].
    rewrite andb_true_r, <- Ht1, <- Hi1, <- Hc1, <- Hcr1, <- Hu1.
    destruct (tv_isValid tv), (v_isValid iv), (v_isValid bv),
      (v_isValid cv), (v_isValid uv); reflexivity. }
  munfold.
  destruct (truthy (r_createdAt r)) eqn:Tc, (truthy (r_updatedAt r)) eqn:Tu;
    cbn -[push_all no_errors]; (split; [exact Hvalid|]); intros Hv;
    rewrite !andb_true_iff in Hv; destruct Hv as ((((V1 & V2) & V3) & V4) & V5);
    try (apply timestamp_ok_truthy in V4; congruence);
    try (apply timestamp_ok_truthy in V5; congruence).
  rewrite <- Ht1 in V1. rewrite <- Hi1 in V2. rewrite <- Hc1 in V3.
  rewrite <- Hcr1 in V4. rewrite <- Hu1 in V5.
  rewrite V1, V2, V3, V4, V5, !push_all_valid.
  split; [reflexivity|]. split; [|reflexivity].
  unfold sanitized. rewrite Ht3, js_or_boolean by congruence. reflexivity.
Qed.

(** The candidates kept by [validateTodoArray]: those valid on their own,
    sanitized, in their order; two candidates with one id are both kept. *)
Definition kept (rt : Runtime) (rs : list RawTodo) : list Todo :=
  map (fun r => todo_of_raw (sanitized r)) (List.filter (valid_raw rt) rs).

Lemma validate_each_spec (rt : Runtime) (rs : list RawTodo) :
  forall (index : nat) (errors : list (ArrayMsg)) (validTodos : list Todo)
         (s : State),
    match validate_each rt rs index errors validTodos s with
    | (Ok (errors', validTodos'), _) =>
        validTodos' = validTodos ++ kept rt rs /\
        exists more, errors' = errors ++ more
    | (Throw _, _) => True
    end.
Proof.
  induction rs as [|r rs IH]; intros index errors validTodos s.
  - cbn. split; [now rewrite app_nil_r|]. exists []. now rewrite app_nil_r.
  - cbn [validate_each]. munfold.
    pose proof (validateTodoData_spec rt r s) as Hr.
    destruct (validateTodoData rt r s) as [[v|x] s1]; [|exact I].
    destruct Hr as [Hv Hs]. unfold kept. cbn [List.filter]. rewrite <- Hv.
    destruct (td_isValid v) eqn:Ev.
    + destruct (Hs (eq_sym Hv)) as (_ & Hsan & _).
      specialize (IH (S index) errors
                     (validTodos ++ [todo_of_raw (td_sanitizedTodo v)]) s1).
      destruct (validate_each rt rs (S index) errors _ s1)
        as [[[errors' validTodos']|x] s2]; [|exact I].
      destruct IH as [-> Hm]. split; [|exact Hm].
      rewrite Hsan, <- app_assoc. reflexivity.
    + specialize (IH (S index)
                     (errors ++ [ItemInvalid (index + 1) (td_errors v)])
                     validTodos s1).
      destruct (validate_each rt rs (S index) _ validTodos s1)
        as [[[errors' validTodos']|x] s2]; [|exact I].
      destruct IH as [-> [more ->]]. split; [reflexivity|].
      exists (ItemInvalid (index + 1) (td_errors v) :: more).
      now rewrite <- app_assoc.
Qed.

(** [validateTodoArray] returns the candidates that are valid on their own,
    all of them. *)
Lemma validateTodoArray_spec (rt : Runtime) (rs : list RawTodo) (s : State) :
  match validateTodoArray rt rs s with
  | (Ok v, _) =>
      av_validTodos v = kept rt rs /\
      av_isValid v = no_errors (av_errors v) /\
      exists more, av_errors v = check_duplicates rs 0 [] [] ++ more
  | (Throw _, _) => True
  end.
Proof.
  unfold validateTodoArray. munfold.
  pose proof (validate_each_spec rt rs 0 (check_duplicates rs 0 [] []) [] s) as H.
  destruct (validate_each rt rs 0 _ [] s) as [[[errors' validTodos']|x] s1];
    [|exact I].
  destruct H as [-> Hm]. cbn. auto.
Qed.

(* ===================================================================== *)
(** ** Steps that only consult the environment *)
(* ===================================================================== *)

(** The manager and the persisted item are as before; the clock, the random
    source and the log of storage errors may have moved. *)
Definition env_step (s s' : State) : Prop :=
  heap s' = heap s /\ todos s' = todos s /\ initialized s' = initialized s /\
  emitted s' = emitted s /\ localStorage s' = localStorage s /\
  setItem_calls s' = setItem_calls s.

Definition env_only {A} (m : M A) : Prop :=
  forall s, env_step s (after (m s)).

Lemma env_step_refl (s : State) : env_step s s.
Proof. repeat split. Qed.

Lemma env_step_trans (s1 s2 s3 : State) :
  env_step s1 s2 -> env_step s2 s3 -> env_step s1 s3.
Proof.
  unfold env_step. intros (A1 & A2 & A3 & A4 & A5 & A6) (B1 & B2 & B3 & B4 & B5 & B6).
  repeat split; congruence.
Qed.

Lemma env_only_ret {A} (a : A) : env_only (mret a).
Proof. intros s. apply env_step_refl. Qed.

Lemma env_only_throw {A} (e : Exn) : env_only (@throw A e).
Proof. intros s. apply env_step_refl. Qed.

Lemma env_only_liftE {A} (o : option A) : env_only (liftE o).
Proof. destruct o; [apply env_only_ret|apply env_only_throw]. Qed.

Lemma env_only_bind {A B} (m : M A) (f : A -> M B) :
  env_only m -> (forall a, env_only (f a)) -> env_only (m ≫= f).
Proof.
  intros Hm Hf s. specialize (Hm s). unfold mbind, M_bind.
  destruct (m s) as [[a|x] s1]; cbn [after snd] in *; [|exact Hm].
  eapply env_step_trans; [exact Hm|apply Hf].
Qed.

Lemma env_only_clock (rt : Runtime) : env_only (new_Date_toISOString rt).
Proof. intros s. repeat split. Qed.

Lemma env_only_generateId (rt : Runtime) : env_only (generateId rt).
Proof. intros s. repeat split. Qed.

Lemma env_only_handleStorageError (e : StorageErrorType) :
  env_only (handleStorageError e).
Proof. intros s. repeat split. Qed.

Lemma env_only_or_now (rt : Runtime) (v : JSVal) : env_only (or_now rt v).
Proof.
  unfold or_now. destruct (truthy v); [apply env_only_ret|].
  apply env_only_bind; [apply env_only_clock|]. intros a. apply env_only_ret.
Qed.

Create HintDb env_only discriminated.

#[global] Hint Resolve env_only_ret env_only_throw env_only_liftE env_only_clock
  env_only_generateId env_only_handleStorageError env_only_or_now : env_only.

(** Decompose a computation along its binds and branches; the lemmas of the
    database close the leaves. *)
Ltac env_only_tac :=
  repeat first
    [ solve [auto 1 with env_only nocore]
    | match goal with
      | |- env_only (if ?b then _ else _) => destruct b
      | |- env_only (match ?x with _ => _ end) => destruct x
      end
    | (apply env_only_bind; [|intros ?]) ].

Lemma env_only_load (d : JSVal) : env_only (load d).
Proof.
  intros s. unfold load. destruct (localStorage s) as [[v|]|];
    try apply env_step_refl.
  repeat split.
Qed.
#[global] Hint Resolve env_only_load : env_only.

Lemma env_only_migrate (rt : Runtime) (todo : JSVal) : env_only (migrate rt todo).
Proof. unfold migrate. env_only_tac. Qed.
#[global] Hint Resolve env_only_migrate : env_only.

Lemma env_only_map_migrate (rt : Runtime) (elems : list JSVal) :
  env_only (map_migrate rt elems).
Proof.
  induction elems as [|x elems IH]; cbn [map_migrate]; env_only_tac.
Qed.
#[global] Hint Resolve env_only_map_migrate : env_only.

Lemma env_only_Storage_loadTodos (rt : Runtime) : env_only (Storage_loadTodos rt).
Proof. unfold Storage_loadTodos. env_only_tac. Qed.
#[global] Hint Resolve env_only_Storage_loadTodos : env_only.

Lemma env_only_validateTodoData (rt : Runtime) (r : RawTodo) :
  env_only (validateTodoData rt r).
Proof. unfold validateTodoData. env_only_tac. Qed.
#[global] Hint Resolve env_only_validateTodoData : env_only.

Lemma env_only_validate_each (rt : Runtime) (rs : list RawTodo) :
  forall i e v, env_only (validate_each rt rs i e v).
Proof.
  induction rs as [|r rs IH]; intros i e v; cbn [validate_each]; env_only_tac.
Qed.
#[global] Hint Resolve env_only_validate_each : env_only.

Lemma env_only_validateTodoArray (rt : Runtime) (rs : list RawTodo) :
  env_only (validateTodoArray rt rs).
Proof. unfold validateTodoArray. env_only_tac. Qed.
#[global] Hint Resolve env_only_validateTodoArray : env_only.

(* ===================================================================== *)
(** ** Sorting *)
(* ===================================================================== *)

Section Sorting.

Context {A : Type} (after_ : A -> A -> bool).

Lemma sort_insert_perm (x : A) (l : list A) :
  Permutation (x :: l) (sort_insert after_ x l).
Proof.
  induction l as [|y l IH]; cbn [sort_insert]; [reflexivity|].
  destruct (after_ x y); [|reflexivity].
  rewrite <- IH. apply perm_swap.
Qed.

Lemma Array_sort_perm (l : list A) : Permutation l (Array_sort after_ l).
Proof.
  induction l as [|x l IH]; cbn; [reflexivity|].
  rewrite <- sort_insert_perm. now constructor.
Qed.

(** A list whose neighbours are in order already is returned as it is. *)
Lemma Array_sort_sorted_id (l : list A) :
  Sorted (fun a b => after_ a b = false) l -> Array_sort after_ l = l.
Proof.
  induction 1 as [|x l Hs IH Hd]; [reflexivity|].
  cbn [Array_sort foldr]. fold (Array_sort after_ l). rewrite IH.
  destruct Hd as [|y l Hxy]; cbn [sort_insert]; [reflexivity|].
  now rewrite Hxy.
Qed.

(** When the comparison is the one of a key, the result is in descending
    order of the key. *)
Variable key : A -> Z.

Lemma sort_insert_sorted (x : A) (l : list A) :
  (forall a b, In a (x :: l) -> In b (x :: l) -> after_ a b = (key a <? key b)%Z) ->
  StronglySorted (fun a b => (key b <= key a)%Z) l ->
  StronglySorted (fun a b => (key b <= key a)%Z) (sort_insert after_ x l).
Proof.
  intros Hk Hs. induction Hs as [|y l Hs IH Hy]; cbn [sort_insert].
  - constructor; constructor.
  - rewrite (Hk x y) by (cbn; auto).
    destruct (Z.ltb_spec (key x) (key y)) as [Hlt|Hge].
    + constructor.
      * apply IH. intros a b Ha Hb. apply Hk; cbn in *; tauto.
      * apply (Permutation_Forall (sort_insert_perm x l)).
        constructor; [lia|exact Hy].
    + constructor; [constructor; assumption|].
      constructor; [exact Hge|].
      eapply Forall_impl; [exact Hy|]. cbn beta. intros a Ha. lia.
Qed.

Lemma Array_sort_sorted (l : list A) :
  (forall a b, In a l -> In b l -> after_ a b = (key a <? key b)%Z) ->
  StronglySorted (fun a b => (key b <= key a)%Z) (Array_sort after_ l).
Proof.
  induction l as [|x l IH]; intros Hk; cbn; [constructor|].
  apply sort_insert_sorted.
  - intros a b Ha Hb. apply Hk.
    + destruct Ha as [Ha|Ha]; [now left|].
      right. eapply Permutation_in; [symmetry; apply Array_sort_perm|exact Ha].
    + destruct Hb as [Hb|Hb]; [now left|].
      right. eapply Permutation_in; [symmetry; apply Array_sort_perm|exact Hb].
  - apply IH. intros a b Ha Hb. apply Hk; now right.
Qed.

End Sorting.

Lemma StronglySorted_omap {A B} (f : A -> option B) (R : B -> B -> Prop)
    (l : list A) :
  StronglySorted (fun a b => forall x y, f a = Some x -> f b = Some y -> R x y) l ->
  StronglySorted R (omap f l).
Proof.
  induction 1 as [|a l Hs IH Ha]; cbn [omap list_omap]; [constructor|].
  destruct (f a) as [x|] eqn:Ea; [|exact IH].
  constructor; [exact IH|].
  rewrite Forall_forall. intros y Hy.
  apply list_elem_of_omap in Hy as (b & Hb & Eb).
  rewrite Forall_forall in Ha. eapply Ha; eauto.
Qed.

Lemma StronglySorted_impl_elem {A} (R R' : A -> A -> Prop) (l : list A) :
  (forall a b, a ∈ l -> b ∈ l -> R a b -> R' a b) ->
  StronglySorted R l -> StronglySorted R' l.
Proof.
  intros Himp Hs. induction Hs as [|a l Hs IH Ha]; [constructor|].
  constructor.
  - apply IH. intros x y Hx Hy. apply Himp; now right.
  - rewrite Forall_forall in *. intros y Hy.
    apply Himp; [now left|now right|auto].
Qed.

(* ===================================================================== *)
(** ** Loading *)
(* ===================================================================== *)

Lemma alloc_all_spec (ts : list Todo) (s : State) :
  alloc_all ts s =
    (Ok (seq (length (heap s)) (length ts)), set_heap (heap s ++ ts) s).
Proof.
  revert s. induction ts as [|t ts IH]; intros s.
  - cbn. rewrite app_nil_r, set_heap_same. reflexivity.
  - cbn [alloc_all]. unfold alloc at 1. munfold. cbn beta iota.
    rewrite IH. cbn. rewrite length_app, <- app_assoc. cbn.
    rewrite Nat.add_1_r. reflexivity.
Qed.

Lemma omap_lookup_seq_app {A} (hp ts : list A) :
  omap (fun l => (hp ++ ts) !! l) (seq (length hp) (length ts)) = ts.
Proof.
  revert hp. induction ts as [|t ts IH]; intros hp; [reflexivity|].
  cbn [length seq omap list_omap].
  rewrite lookup_app_r, Nat.sub_diag by lia. cbn [lookup list_lookup].
  f_equal. specialize (IH (hp ++ [t])).
  rewrite <- app_assoc, length_app in IH. cbn in IH.
  rewrite Nat.add_1_r in IH. exact IH.
Qed.

Section Loading.

Variable rt : Runtime.

(** The state in which a successful [loadTodos()] of the manager ends:
    the valid records are new objects, the array holds them sorted. *)
Definition loaded (ts : list Todo) (s : State) : State :=
  let s3 := set_todos (seq (length (heap s)) (length ts))
                      (set_heap (heap s ++ ts) s) in
  set_emitted (emitted s3 ++ [ev_todos_loaded])
    (set_todos (Array_sort (comes_after rt s3) (todos s3)) s3).

(** The state in which a failed one ends, having got as far as [s']. *)
Definition load_failed (s' : State) : State :=
  set_emitted (emitted s' ++ [ev_error err_load None]) (set_todos [] s').

Lemma loadTodos_cases (s : State) :
  (exists data s1 v s2,
      Storage_loadTodos rt s = (Ok data, s1) /\
      validateTodoArray rt (sd_todos data) s1 = (Ok v, s2) /\
      env_step s s2 /\
      loadTodos rt s = (Ok true, loaded (av_validTodos v) s2))
  \/
  (exists s', env_step s s' /\ loadTodos rt s = (Ok false, load_failed s')).
Proof.
  pose proof (env_only_Storage_loadTodos rt s) as F1.
  unfold loadTodos. munfold. cbn beta iota.
  destruct (Storage_loadTodos rt s) as [[data|x] s1] eqn:E1; cbn [after snd] in F1.
  2: { right. exists s1. split; [exact F1|reflexivity]. }
  pose proof (env_only_validateTodoArray rt (sd_todos data) s1) as F2.
  destruct (validateTodoArray rt (sd_todos data) s1) as [[v|x] s2] eqn:E2;
    cbn [after snd] in F2.
  2: { right. exists s2. split; [|reflexivity].
       eapply env_step_trans; eassumption. }
  left. exists data, s1, v, s2. split; [reflexivity|]. split; [exact E2|].
  split; [eapply env_step_trans; eassumption|].
  rewrite alloc_all_spec. reflexivity.
Qed.

(** [a] is at least as new as [b]. *)
Definition newer_or_equal (a b : Todo) : Prop :=
  exists x y, Date_parse rt (t_createdAt a) = Some x /\
              Date_parse rt (t_createdAt b) = Some y /\ (y <= x)%Z.

Definition created_key (h : list Todo) (l : loc) : Z :=
  match h !! l with
  | Some t => default 0%Z (Date_parse rt (t_createdAt t))
  | None => 0%Z
  end.

Lemma loaded_sorted (ts : list Todo) (s : State) :
  Forall (fun t => is_Some (Date_parse rt (t_createdAt t))) ts ->
  well_formed (loaded ts s) /\
  Permutation (deref_all (loaded ts s)) ts /\
  StronglySorted newer_or_equal (deref_all (loaded ts s)).
Proof.
  intros Hts.
  set (h := heap s ++ ts).
  set (locs := seq (length (heap s)) (length ts)).
  set (s3 := set_todos locs (set_heap h s)).
  assert (Hl : forall l, l ∈ locs ->
                 exists t z, h !! l = Some t /\
                             Date_parse rt (t_createdAt t) = Some z).
  { intros l Hl. apply elem_of_seq in Hl.
    destruct (lookup_lt_is_Some_2 ts (l - length (heap s))) as [t Ht]; [lia|].
    rewrite Forall_forall in Hts.
    destruct (Hts t) as [z Hz]; [eapply list_elem_of_lookup_2; eauto|].
    exists t, z. split; [|exact Hz].
    unfold h. rewrite lookup_app_r by lia. exact Ht. }
  assert (Hp : Permutation (Array_sort (comes_after rt s3) locs) locs)
    by (symmetry; apply Array_sort_perm).
  assert (Hd : deref_all (loaded ts s)
               = omap (fun l => h !! l) (Array_sort (comes_after rt s3) locs))
    by reflexivity.
  split; [|split].
  - unfold well_formed. change (todos (loaded ts s))
      with (Array_sort (comes_after rt s3) locs).
    change (heap (loaded ts s)) with h.
    rewrite Forall_forall. intros l Hin. rewrite Hp in Hin.
    destruct (Hl l Hin) as (t & _ & -> & _). eexists. reflexivity.
  - rewrite Hd, Hp. unfold h, locs. now rewrite omap_lookup_seq_app.
  - rewrite Hd. apply StronglySorted_omap.
    apply (StronglySorted_impl_elem
             (fun a b => (created_key h b <= created_key h a)%Z)).
    + intros a b Ha Hb Hk x y Hx Hy. rewrite Hp in Ha, Hb.
      destruct (Hl a Ha) as (ta & za & Ha1 & Ha2).
      destruct (Hl b Hb) as (tb & zb & Hb1 & Hb2).
      unfold created_key in Hk. rewrite Ha1, Hb1, Ha2, Hb2 in Hk. cbn in Hk.
      rewrite Hx in Ha1. injection Ha1 as ->.
      rewrite Hy in Hb1. injection Hb1 as ->.
      exists za, zb. auto.
    + apply Array_sort_sorted. intros a b Ha Hb.
      apply list_elem_of_In in Ha, Hb.
      destruct (Hl a Ha) as (ta & za & Ha1 & Ha2).
      destruct (Hl b Hb) as (tb & zb & Hb1 & Hb2).
      unfold comes_after, compare_created, created_key.
      change (heap s3) with h. rewrite Ha1, Hb1, Ha2, Hb2. cbn.
      destruct (Z.ltb_spec 0 (zb - za)), (Z.ltb_spec za zb); lia || reflexivity.
Qed.

End Loading.

Lemma loadTodos_success (rt : Runtime) (s : State)
    (data : StoredData) (s1 : State) (v : ArrayValidation) (s2 : State) :
  Storage_loadTodos rt s = (Ok data, s1) ->
  validateTodoArray rt (sd_todos data) s1 = (Ok v, s2) ->
  loadTodos rt s = (Ok true, loaded rt (av_validTodos v) s2).
Proof.
  intros E1 E2. unfold loadTodos. munfold. cbn beta iota.
  rewrite E1. cbn beta iota. rewrite E2. cbn beta iota.
  rewrite alloc_all_spec. reflexivity.
Qed.

Lemma kept_created (rt : Runtime) (rs : list RawTodo) :
  Forall (fun t => is_Some (Date_parse rt (t_createdAt t))) (kept rt rs).
Proof.
  unfold kept. rewrite Forall_forall. intros t Ht.
  apply list_elem_of_fmap in Ht as (r & -> & Hr).
  apply list_elem_of_In, filter_In in Hr as [_ Hv].
  unfold valid_raw in Hv. rewrite !andb_true_iff in Hv.
  destruct Hv as ((_ & Hc) & _). cbn.
  destruct (r_createdAt r) as [| |b|q|c|l|p]; try discriminate.
  cbn in *. rewrite !andb_true_iff in Hc. destruct Hc as (_ & Hc).
  destruct (Date_parse rt c); [eexists; reflexivity|discriminate].
Qed.

Lemma initialize_spec (rt : Runtime) (s : State) :
  initialize rt s =
    (Ok true,
     set_emitted (emitted (after (loadTodos rt s)) ++ [ev_initialized])
       (set_initialized true (after (loadTodos rt s)))).
Proof.
  unfold initialize. munfold. cbn beta iota.
  destruct (loadTodos_cases rt s) as [(d & s1 & v & s2 & _ & _ & _ & ->)
                                     |(s' & _ & ->)]; reflexivity.
Qed.

Lemma env_only_createValidTodo (rt : Runtime) (text : JSVal) :
  env_only (createValidTodo rt text).
Proof. unfold createValidTodo. env_only_tac. Qed.

Lemma saveTodos_frame (rt : Runtime) (s : State) :
  exists ok, result (saveTodos rt s) = Ok ok /\
             heap (after (saveTodos rt s)) = heap s /\
             todos (after (saveTodos rt s)) = todos s.
Proof.
  destruct (setItem rt (setItem_calls s)) as [e|] eqn:E.
  - rewrite (saveTodos_fail rt s e E). exists false. repeat split.
  - rewrite (saveTodos_ok rt s E). exists true. repeat split.
Qed.

(** A successful [addTodo] puts the new record at index 0. *)
Lemma addTodo_at_head (rt : Runtime) (text : JSVal) (s : State) (todo : loc) :
  result (addTodo rt text s) = Ok (Some todo) ->
  todos (after (addTodo rt text s)) = todo :: todos s /\
  is_Some (heap (after (addTodo rt text s)) !! todo).
Proof.
  unfold addTodo. munfold. cbn beta iota.
  destruct (initialized s); cbn [negb]; [|discriminate].
  pose proof (env_only_createValidTodo rt text s) as F.
  destruct (createValidTodo rt text s) as [[c|x] s1]; cbn [after snd] in F;
    [|discriminate].
  destruct F as (Fh & Ft & _).
  destruct (cr_isValid c), (cr_todo c) as [t|]; cbn; try discriminate.
  unfold alloc. cbn beta iota.
  match goal with
  | |- context [saveTodos rt ?st] =>
      destruct (saveTodos_frame rt st) as (ok & Hr & Hh & Htd);
      destruct (saveTodos rt st) as [r s2]
  end.
  cbn [result after fst snd] in *. subst r.
  destruct ok; cbn; [|discriminate].
  intros H. injection H as <-. rewrite Htd, Hh. cbn. rewrite Ft.
  split; [reflexivity|].
  rewrite lookup_app_r, Nat.sub_diag by lia. eexists. reflexivity.
Qed.

(** C7.  [initialize] leaves the list sorted by [createdAt], newest first
    (a sorted arrangement of the records that passed validation); a
    successful [addTodo] places the new record at index 0; and starting
    from an empty list, adding "Buy milk" and then "Walk dog", with both
    saves going through, leaves the list as "Walk dog", "Buy milk". *)
Theorem newest_first (rt : Runtime) :
  (forall s,
      let s' := after (initialize rt s) in
      well_formed s' /\
      StronglySorted (newer_or_equal rt) (deref_all s') /\
      (forall data s1 v s2,
          Storage_loadTodos rt s = (Ok data, s1) ->
          validateTodoArray rt (sd_todos data) s1 = (Ok v, s2) ->
          Permutation (deref_all s') (av_validTodos v)))
  /\
  (forall s text todo,
      result (addTodo rt text s) = Ok (Some todo) ->
      todos (after (addTodo rt text s)) !! 0%nat = Some todo /\
      tail (todos (after (addTodo rt text s))) = todos s)
  /\
  (forall s,
      initialized s = true -> todos s = [] ->
      setItem rt (setItem_calls s) = None ->
      setItem rt (S (setItem_calls s)) = None ->
      let s1 := after (addTodo rt (JStr (js "Buy milk")) s) in
      let s2 := after (addTodo rt (JStr (js "Walk dog")) s1) in
      map (fmap t_text) (contents s2)
        = [Some (js "Walk dog"); Some (js "Buy milk")]).
Proof.
  split; [|split].
  - intros s. cbv zeta. rewrite initialize_spec. cbn [after snd].
    destruct (loadTodos_cases rt s)
      as [(d & s1 & v & s2 & E1 & E2 & _ & E)|(s' & _ & E)];
      rewrite E; cbn [after snd].
    + pose proof (validateTodoArray_spec rt (sd_todos d) s1) as Hv.
      rewrite E2 in Hv. destruct Hv as (Hk & _).
      destruct (loaded_sorted rt (av_validTodos v) s2) as (W & P & S).
      { rewrite Hk. apply kept_created. }
      split; [exact W|]. split; [exact S|].
      intros d' s1' v' s2' E1' E2'. rewrite E1 in E1'. injection E1' as <- <-.
      rewrite E2 in E2'. injection E2' as <- <-. exact P.
    + split; [constructor|]. split; [constructor|].
      intros d s1 v s2 E1 E2. exfalso.
      pose proof (loadTodos_success rt s d s1 v s2 E1 E2) as E'.
      rewrite E' in E. discriminate.
  - intros s text todo H. destruct (addTodo_at_head rt text s todo H) as [-> _].
    split; reflexivity.
  - intros s Hi He Hw1 Hw2. cbv zeta.
    rewrite (addTodo_saved rt (js "Buy milk") s) by
      first [ assumption | vm_compute; congruence | vm_compute; lia
            | vm_compute; reflexivity ].
    cbn [after snd].
    rewrite addTodo_saved by
      first [ assumption | reflexivity | vm_compute; congruence
            | vm_compute; lia | vm_compute; reflexivity ].
    cbn [after snd]. unfold contents, saved, inserted. cbn -[lookup].
    rewrite He. cbn -[lookup].
    rewrite !length_app. cbn -[lookup].
    rewrite <- app_assoc.
    repeat rewrite (lookup_app_r (heap s)) by lia.
    replace (length (heap s) + 1 - length (heap s))%nat with 1%nat by lia.
    rewrite !Nat.sub_diag. reflexivity.
Qed.

(* ===================================================================== *)
(** ** Further properties of the manager *)
(* ===================================================================== *)

(** X1.  Before [initialize()] every mutating operation fails fast: it
    returns its failure value and leaves the manager, the store and the
    environment exactly as they were; in particular it emits nothing and
    writes nothing. *)
Theorem uninitialized_manager_refuses (rt : Runtime) (s : State) :
  initialized s = false ->
  (forall text, addTodo rt text s = (Ok None, s)) /\
  (forall id, toggleTodo rt id s = (Ok false, s)) /\
  (forall id, deleteTodo rt id s = (Ok false, s)) /\
  (forall id updates, updateTodo rt id updates s = (Ok false, s)) /\
  clearAllTodos rt s = (Ok false, s) /\
  (forall ids action, batchOperation rt ids action s = (Ok (false, O), s)).
Proof.
  intros Hi.
  repeat split; intros;
    unfold addTodo, toggleTodo, deleteTodo, updateTodo, clearAllTodos,
           batchOperation;
    munfold; cbn beta iota; rewrite Hi; reflexivity.
Qed.

(** X1, instance: a manager that has just been constructed. *)
Lemma uninitialized_manager_refuses_witness :
  addTodo Browser.reliable (JStr (js "Buy milk")) (constructed None)
    = (Ok None, constructed None) /\
  clearAllTodos Browser.reliable (constructed None)
    = (Ok false, constructed None).
Proof.
  destruct (uninitialized_manager_refuses Browser.reliable (constructed None))
    as (Ha & _ & _ & _ & Hc & _).
  - reflexivity.
  - split; [apply Ha|exact Hc].
Defined.

Lemma findIndex_from_None (s : State) (id : jsstring) (l : list loc) (i : nat) :
  findIndex_from s id l i = None <-> List.find (has_id s id) l = None.
Proof.
  revert i. induction l as [|x l IH]; intros i; cbn; [tauto|].
  destruct (has_id s id x); [split; discriminate|apply IH].
Qed.

Lemma findIndex_None (s : State) (id : jsstring) :
  findIndex id s = None <-> find_todo id s = None.
Proof. apply findIndex_from_None. Qed.

Lemma not_found_step (rt : Runtime) (s : State) (id : jsstring) :
  initialized s = true ->
  find_todo id s = None ->
  toggleTodo rt id s
    = (Ok false, set_emitted (emitted s ++ [ev_not_found op_toggle id]) s) /\
  deleteTodo rt id s
    = (Ok false, set_emitted (emitted s ++ [ev_not_found op_delete id]) s) /\
  (forall updates,
      updateTodo rt id updates s
      = (Ok false, set_emitted (emitted s ++ [ev_not_found op_update id]) s)).
Proof.
  intros Hi Hf. pose proof (proj2 (findIndex_None s id) Hf) as Hx.
  repeat split; intros; unfold toggleTodo, deleteTodo, updateTodo;
    munfold; cbn beta iota; rewrite Hi; cbn [negb]; cbn beta iota;
    rewrite ?Hf, ?Hx; reflexivity.
Qed.

(** X2.  On an initialized manager, [toggleTodo], [deleteTodo] and
    [updateTodo] called with an id that no record of the list has return
    false and emit [not-found] with the operation and the id; nothing else
    changes (for [updateTodo] the updates are not even validated). *)
Theorem unknown_id_is_not_found (rt : Runtime) (s : State) (id : jsstring) :
  initialized s = true ->
  find_todo id s = None ->
  toggleTodo rt id s
    = (Ok false, set_emitted (emitted s ++ [ev_not_found op_toggle id]) s) /\
  deleteTodo rt id s
    = (Ok false, set_emitted (emitted s ++ [ev_not_found op_delete id]) s) /\
  (forall updates,
      updateTodo rt id updates s
      = (Ok false, set_emitted (emitted s ++ [ev_not_found op_update id]) s)).
Proof. exact (not_found_step rt s id). Qed.

(** X2, instance: an id that is not in a list of one record. *)
Lemma unknown_id_is_not_found_witness :
  let rt := Browser.reliable in
  let item := envelope [earlier_record] (js "2023-12-31T10:00:00.001Z") in
  let s := after (initialize rt (constructed (Some (Some item)))) in
  result (deleteTodo rt (js "absent") s) = Ok false /\
  contents (after (deleteTodo rt (js "absent") s)) = contents s.
Proof.
  cbv zeta.
  destruct (unknown_id_is_not_found Browser.reliable
              (after (initialize Browser.reliable
                 (constructed (Some (Some
                    (envelope [earlier_record] (js "2023-12-31T10:00:00.001Z"))))))
              ) (js "absent")) as (_ & Hd & _).
  - reflexivity.
  - reflexivity.
  - rewrite Hd. split; reflexivity.
Defined.

(** Two states that hold the same array, over records with the same ids,
    find the same record. *)
Lemma find_todo_same_ids (s s' : State) (id : jsstring) :
  todos s' = todos s ->
  (forall l, t_id <$> heap s' !! l = t_id <$> heap s !! l) ->
  find_todo id s' = find_todo id s.
Proof.
  intros Ht Hh. unfold find_todo. rewrite Ht.
  assert (He : forall l, has_id s' id l = has_id s id l).
  { intros l. unfold has_id. specialize (Hh l).
    destruct (heap s' !! l), (heap s !! l); cbn in Hh; congruence. }
  clear Ht. generalize (todos s). intros ls.
  induction ls as [|l ls IH]; simpl; [reflexivity|].
  rewrite He, IH. reflexivity.
Qed.

Section ToggleTodo.

Variable rt : Runtime.

(** The state in which [toggleTodo] calls [saveTodos()]. *)
Definition toggled (todo : loc) (t : Todo) (s : State) : State :=
  set_heap (<[todo := with_updatedAt (now_toISOString rt (clock_reads s))
                                     (flip_completed t)]> (heap s))
           (set_clock_reads (S (clock_reads s)) s).

Lemma toggleTodo_saved (s : State) (id : jsstring) (todo : loc) (t : Todo) :
  initialized s = true ->
  find_todo id s = Some todo ->
  heap s !! todo = Some t ->
  setItem rt (setItem_calls s) = None ->
  toggleTodo rt id s =
    (Ok true,
     set_emitted (emitted (saved rt (toggled todo t s)) ++ [ev_todo_toggled todo])
                 (saved rt (toggled todo t s))).
Proof.
  intros Hi Hf Ht Hw. unfold toggleTodo, update_obj, new_Date_toISOString.
  munfold. cbn beta iota. rewrite Hi. cbn [negb]. cbn beta iota.
  rewrite Hf. cbn beta iota.
  assert (Hh : alter (with_updatedAt (now_toISOString rt (clock_reads s))) todo
                 (alter flip_completed todo (heap s))
               = <[todo := with_updatedAt (now_toISOString rt (clock_reads s))
                                          (flip_completed t)]> (heap s)).
  { rewrite list_alter_alter_eq.
    apply list_eq. intros i. destruct (decide (i = todo)) as [->|Hne].
    - rewrite list_lookup_alter_eq, Ht.
      rewrite list_lookup_insert_eq by (apply lookup_lt_is_Some; eauto).
      reflexivity.
    - rewrite list_lookup_alter_ne, list_lookup_insert_ne by congruence.
      reflexivity. }
  match goal with
  | |- context [saveTodos rt ?st] =>
      replace st with (toggled todo t s)
        by (unfold toggled; cbn -[alter insert]; rewrite Hh; reflexivity)
  end.
  rewrite saveTodos_ok by exact Hw. reflexivity.
Qed.

End ToggleTodo.

#[global] Arguments toggled : simpl never.

(** X3.  On an initialized manager whose write goes through, [toggleTodo]
    of an id in the list returns true; the first record with that id has
    [completed] negated and [updatedAt] set to the time of the call, every
    other record and the order are untouched; the persisted item is the
    new list; [todos-saved] and then [todo-toggled] are emitted. *)
Theorem toggleTodo_flips_and_persists
    (rt : Runtime) (s : State) (id : jsstring) (todo : loc) (t : Todo) :
  initialized s = true ->
  find_todo id s = Some todo ->
  heap s !! todo = Some t ->
  setItem rt (setItem_calls s) = None ->
  let r := toggleTodo rt id s in
  let now := now_toISOString rt (clock_reads s) in
  result r = Ok true /\
  todos (after r) = todos s /\
  heap (after r) =
    <[todo := mkTodo (t_id t) (t_text t) (negb (t_completed t))
                     (t_createdAt t) now]> (heap s) /\
  localStorage (after r) =
    Some (Some (envelope (deref_all (after r))
                         (now_toISOString rt (S (clock_reads s))))) /\
  emitted (after r) = emitted s ++ [ev_todos_saved; ev_todo_toggled todo].
Proof.
  intros Hi Hf Ht Hw. cbv zeta.
  rewrite (toggleTodo_saved rt s id todo t Hi Hf Ht Hw).
  unfold saved, toggled. cbn -[insert]. rewrite <- app_assoc.
  repeat split; reflexivity.
Qed.

(** X3, instance: toggling the one record of a list. *)
Lemma toggleTodo_flips_and_persists_witness :
  let rt := Browser.reliable in
  let item := envelope [earlier_record] (js "2023-12-31T10:00:00.001Z") in
  let s := after (initialize rt (constructed (Some (Some item)))) in
  let r := toggleTodo rt (t_id earlier_record) s in
  result r = Ok true /\
  contents (after r)
    = [Some (with_updatedAt (js "2024-01-01T00:00:00.000Z")
                            (with_completed true earlier_record))].
Proof.
  cbv zeta.
  destruct (toggleTodo_flips_and_persists Browser.reliable
              (after (initialize Browser.reliable
                 (constructed (Some (Some
                    (envelope [earlier_record] (js "2023-12-31T10:00:00.001Z")))))))
              (t_id earlier_record) 0%nat earlier_record)
    as (H1 & H2 & H3 & _); [reflexivity|reflexivity|reflexivity|reflexivity|].
  split; [exact H1|]. unfold contents. rewrite H2, H3. reflexivity.
Defined.

(** X4.  Toggling the same id twice, with both writes going through, gives
    the record its original [completed] back; its [updatedAt] is the time
    of the second call, and the other properties are the original ones. *)
Theorem toggleTodo_twice
    (rt : Runtime) (s : State) (id : jsstring) (todo : loc) (t : Todo) :
  initialized s = true ->
  find_todo id s = Some todo ->
  heap s !! todo = Some t ->
  setItem rt (setItem_calls s) = None ->
  setItem rt (S (setItem_calls s)) = None ->
  let s1 := after (toggleTodo rt id s) in
  let r := toggleTodo rt id s1 in
  result r = Ok true /\
  todos (after r) = todos s /\
  heap (after r) =
    <[todo := with_updatedAt (now_toISOString rt (S (S (clock_reads s)))) t]>
      (heap s).
Proof.
  intros Hi Hf Ht Hw1 Hw2. cbv zeta.
  rewrite (toggleTodo_saved rt s id todo t Hi Hf Ht Hw1). cbn [after snd].
  set (t1 := with_updatedAt (now_toISOString rt (clock_reads s)) (flip_completed t)).
  set (s1 := set_emitted _ _).
  assert (Hlt : (todo < length (heap s))%nat) by (apply lookup_lt_is_Some; eauto).
  assert (Hh1 : heap s1 = <[todo := t1]> (heap s)) by reflexivity.
  assert (Ht1 : heap s1 !! todo = Some t1).
  { rewrite Hh1. apply list_lookup_insert_eq, Hlt. }
  assert (Hf1 : find_todo id s1 = Some todo).
  { rewrite <- Hf. apply find_todo_same_ids; [reflexivity|].
    intros l. rewrite Hh1. destruct (decide (l = todo)) as [->|Hne].
    - rewrite list_lookup_insert_eq, Ht by exact Hlt. reflexivity.
    - rewrite list_lookup_insert_ne by congruence. reflexivity. }
  rewrite (toggleTodo_saved rt s1 id todo t1 Hi Hf1 Ht1 Hw2).
  cbn [after snd result fst]. split; [reflexivity|]. split; [reflexivity|].
  subst s1. unfold saved, toggled. cbn -[insert].
  rewrite list_insert_insert_eq.
  unfold t1. destruct t as [a b [|] d u]; reflexivity.
Qed.

(** X4, instance: the one record of a list, toggled twice. *)
Lemma toggleTodo_twice_witness :
  let rt := Browser.reliable in
  let item := envelope [earlier_record] (js "2023-12-31T10:00:00.001Z") in
  let s := after (initialize rt (constructed (Some (Some item)))) in
  let s2 := after (toggleTodo rt (t_id earlier_record)
                     (after (toggleTodo rt (t_id earlier_record) s))) in
  heap s2 = [with_updatedAt (js "2024-01-01T00:00:00.002Z") earlier_record].
Proof.
  cbv zeta.
  destruct (toggleTodo_twice Browser.reliable
              (after (initialize Browser.reliable
                 (constructed (Some (Some
                    (envelope [earlier_record] (js "2023-12-31T10:00:00.001Z")))))))
              (t_id earlier_record) 0%nat earlier_record)
    as (_ & _ & H3);
    [reflexivity|reflexivity|reflexivity|reflexivity|reflexivity|].
  rewrite H3. reflexivity.
Defined.

Lemma findIndex_from_first (s : State) (id : jsstring) (l : list loc) (i k : nat) :
  findIndex_from s id l i = Some k ->
  exists x, l !! (k - i)%nat = Some x /\ has_id s id x = true /\
            List.find (has_id s id) l = Some x /\
            forall j y, (j < k - i)%nat -> l !! j = Some y -> has_id s id y = false.
Proof.
  revert i. induction l as [|x l IH]; intros i H; simpl in H; [discriminate|].
  destruct (has_id s id x) eqn:E.
  - injection H as <-. rewrite Nat.sub_diag. exists x. cbn. rewrite E.
    repeat split; intros; lia.
  - destruct (findIndex_from_Some s id l (S i) k H) as [Hle _].
    destruct (IH (S i) H) as (y & Hy & Hid & Hfind & Hfirst).
    replace (k - i)%nat with (S (k - S i)) by lia.
    exists y. cbn. rewrite E. repeat split; try assumption.
    intros [|j] z Hj Hz; cbn in Hz.
    + injection Hz as <-. exact E.
    + apply (Hfirst j z); [lia|exact Hz].
Qed.

(** X5.  On an initialized manager whose write goes through, [deleteTodo]
    of an id in the list returns true and removes exactly one entry of the
    array: the first whose record has that id.  The records themselves, the
    other entries and their order are untouched, the persisted item is the
    new list, and [todos-saved] and then [todo-deleted] are emitted. *)
Theorem deleteTodo_removes_first
    (rt : Runtime) (s : State) (id : jsstring) (index : nat) :
  initialized s = true ->
  findIndex id s = Some index ->
  setItem rt (setItem_calls s) = None ->
  let r := deleteTodo rt id s in
  exists todo,
    todos s !! index = Some todo /\ find_todo id s = Some todo /\
    (forall j y, (j < index)%nat -> todos s !! j = Some y -> has_id s id y = false) /\
    result r = Ok true /\
    todos (after r) = delete index (todos s) /\
    heap (after r) = heap s /\
    localStorage (after r) =
      Some (Some (envelope (deref_all (after r))
                           (now_toISOString rt (clock_reads s)))) /\
    emitted (after r) = emitted s ++ [ev_todos_saved; ev_todo_deleted todo].
Proof.
  intros Hi Hf Hw. cbv zeta.
  destruct (findIndex_from_first s id (todos s) 0 index Hf)
    as (todo & Hl & _ & Hfind & Hfirst).
  rewrite Nat.sub_0_r in Hl, Hfirst.
  exists todo. split; [exact Hl|]. split; [exact Hfind|]. split; [exact Hfirst|].
  unfold deleteTodo. munfold. cbn beta iota.
  rewrite Hi. cbn [negb]. cbn beta iota. rewrite Hf. cbn beta iota.
  rewrite Hl. rewrite saveTodos_ok by exact Hw.
  unfold saved. cbn -[delete]. rewrite <- app_assoc.
  repeat split; reflexivity.
Qed.

(** A second persisted record, older than [earlier_record]. *)
Definition older_record : Todo :=
  {| t_id := js "lqsq5n2o9k3b";
     t_text := js "Call mom";
     t_completed := true;
     t_createdAt := js "2023-12-30T09:30:00.000Z";
     t_updatedAt := js "2023-12-30T18:00:00.000Z" |}.

(** A manager initialized over a store that holds the two records. *)
Definition two_records (rt : Runtime) : State :=
  after (initialize rt (constructed (Some (Some
    (envelope [older_record; earlier_record] (js "2023-12-31T10:00:00.001Z")))))).

(** X5, instance: deleting the older of two records. *)
Lemma deleteTodo_removes_first_witness :
  let rt := Browser.reliable in
  let s := two_records rt in
  let r := deleteTodo rt (t_id older_record) s in
  contents s = [Some earlier_record; Some older_record] /\
  result r = Ok true /\ contents (after r) = [Some earlier_record].
Proof.
  cbv zeta.
  destruct (deleteTodo_removes_first Browser.reliable
              (two_records Browser.reliable) (t_id older_record) 1%nat)
    as (todo & _ & _ & _ & H1 & H2 & H3 & _);
    [vm_compute; reflexivity|vm_compute; reflexivity|vm_compute; reflexivity|].
  split; [vm_compute; reflexivity|]. split; [exact H1|].
  unfold contents. rewrite H2, H3. vm_compute. reflexivity.
Defined.

(** X6.  On an initialized manager whose write goes through,
    [clearAllTodos] returns true, leaves the list empty, persists an
    envelope with an empty [todos] array, and emits [todos-saved] and then
    [all-todos-cleared]. *)
Theorem clearAllTodos_empties_and_persists (rt : Runtime) (s : State) :
  initialized s = true ->
  setItem rt (setItem_calls s) = None ->
  let r := clearAllTodos rt s in
  result r = Ok true /\
  todos (after r) = [] /\ contents (after r) = [] /\
  localStorage (after r) =
    Some (Some (envelope [] (now_toISOString rt (clock_reads s)))) /\
  emitted (after r) = emitted s ++ [ev_todos_saved; ev_all_todos_cleared].
Proof.
  intros Hi Hw. cbv zeta. unfold clearAllTodos. munfold. cbn beta iota.
  rewrite Hi. cbn [negb]. cbn beta iota.
  rewrite saveTodos_ok by exact Hw.
  unfold saved. cbn. rewrite <- app_assoc. repeat split; reflexivity.
Qed.

(** X6, instance: clearing a list of one record. *)
Lemma clearAllTodos_empties_and_persists_witness :
  let rt := Browser.reliable in
  let item := envelope [earlier_record] (js "2023-12-31T10:00:00.001Z") in
  let s := after (initialize rt (constructed (Some (Some item)))) in
  contents s = [Some earlier_record] /\
  contents (after (clearAllTodos rt s)) = [].
Proof.
  cbv zeta.
  destruct (clearAllTodos_empties_and_persists Browser.reliable
              (after (initialize Browser.reliable
                 (constructed (Some (Some
                    (envelope [earlier_record]
                              (js "2023-12-31T10:00:00.001Z"))))))))
    as (_ & _ & H3 & _); [vm_compute; reflexivity|vm_compute; reflexivity|].
  split; [vm_compute; reflexivity|exact H3].
Defined.

Lemma find_todo_Some (s : State) (id : jsstring) (todo : loc) :
  find_todo id s = Some todo ->
  todo ∈ todos s /\ exists t, heap s !! todo = Some t /\ t_id t = id.
Proof.
  intros H. apply find_some in H as [Hin Hid].
  split; [now apply list_elem_of_In|].
  unfold has_id in Hid. destruct (heap s !! todo) as [t|]; [|discriminate].
  exists t. split; [reflexivity|].
  unfold eqb in Hid. now apply bool_decide_eq_true in Hid.
Qed.

(** X8.  When the write fails, [toggleTodo] of an id in the list returns
    false and emits the [save] error; the record gets its [completed] back
    but keeps the [updatedAt] written before the save was attempted, so the
    content of the list differs from what it was whenever that time is not
    the old [updatedAt]. *)
Theorem toggleTodo_failed_save_keeps_timestamp
    (rt : Runtime) (s : State) (e : StorageErrorType)
    (id : jsstring) (todo : loc) (t : Todo) :
  initialized s = true ->
  setItem rt (setItem_calls s) = Some e ->
  find_todo id s = Some todo ->
  heap s !! todo = Some t ->
  let r := toggleTodo rt id s in
  let now := now_toISOString rt (clock_reads s) in
  result r = Ok false /\
  todos (after r) = todos s /\
  heap (after r) = <[todo := with_updatedAt now t]> (heap s) /\
  localStorage (after r) = localStorage s /\
  emitted (after r) = emitted s ++ [ev_error err_save (Some op_toggle)] /\
  (t_updatedAt t <> now -> contents (after r) <> contents s).
Proof.
  intros Hi Hw Hf Ht. cbv zeta.
  destruct (toggleTodo_keeps_updatedAt rt s e Hi Hw id todo t Hf Ht)
    as (H1 & H2 & H3 & H4).
  split; [exact H1|]. split; [exact H2|]. split; [exact H3|].
  split.
  { unfold toggleTodo, update_obj, new_Date_toISOString. munfold.
    cbn beta iota. rewrite Hi. cbn [negb]. cbn beta iota. rewrite Hf.
    cbn beta iota. rewrite (saveTodos_fail rt _ e) by exact Hw. reflexivity. }
  split; [exact H4|].
  intros Hne Hc. unfold contents in Hc. rewrite H2, H3 in Hc.
  destruct (find_todo_Some s id todo Hf) as (Hin & _).
  apply list_elem_of_In in Hin.
  assert (Hx : <[todo := with_updatedAt (now_toISOString rt (clock_reads s)) t]>
                 (heap s) !! todo = heap s !! todo).
  { revert Hc. generalize (todos s) Hin. intros l Hl Hm.
    induction l as [|x l IH]; [destruct Hl|].
    cbn in Hm. injection Hm as Hm1 Hm2.
    destruct Hl as [->|Hl]; [exact Hm1|exact (IH Hl Hm2)]. }
  rewrite list_lookup_insert_eq in Hx by (apply lookup_lt_is_Some; eauto).
  rewrite Ht in Hx. injection Hx as Hx. apply Hne. rewrite <- Hx at 1. reflexivity.
Qed.

(** X8, instance: toggling the newer of two records while the store is
    full. *)
Lemma toggleTodo_failed_save_keeps_timestamp_witness :
  let rt := Browser.full in
  let s := two_records rt in
  let r := toggleTodo rt (t_id earlier_record) s in
  result r = Ok false /\
  contents (after r)
    = [Some (with_updatedAt (js "2024-01-01T00:00:00.000Z") earlier_record);
       Some older_record].
Proof.
  cbv zeta.
  destruct (toggleTodo_failed_save_keeps_timestamp Browser.full
              (two_records Browser.full) quota_exceeded
              (t_id earlier_record) 1%nat earlier_record)
    as (H1 & H2 & H3 & _);
    [vm_compute; reflexivity|vm_compute; reflexivity|vm_compute; reflexivity
    |vm_compute; reflexivity|].
  split; [exact H1|]. unfold contents. rewrite H2, H3. vm_compute. reflexivity.
Defined.

Lemma set_todos_set_todos (a b : list loc) (s : State) :
  set_todos a (set_todos b s) = set_todos a s.
Proof. reflexivity. Qed.

Lemma batch_loop_delete (rt : Runtime) (ids : list jsstring) :
  forall (processed : nat) (s : State),
    exists n ts,
      batch_loop rt (js "delete") ids processed s = (Ok n, set_todos ts s).
Proof.
  induction ids as [|id ids IH]; intros processed s.
  - exists processed, (todos s). cbn. now rewrite set_todos_same.
  - cbn [batch_loop]. munfold. cbn beta iota.
    destruct (find_todo id s) as [todo|]; [|apply IH].
    change (eqb (js "delete") (js "complete")) with false.
    change (eqb (js "delete") (js "incomplete")) with false.
    change (eqb (js "delete") (js "delete")) with true. cbn beta iota.
    destruct (findIndex id s) as [i|]; [|apply IH].
    destruct (IH (S processed) (set_todos (delete i (todos s)) s))
      as (n & ts & E).
    exists n, ts. rewrite E. reflexivity.
Qed.

(** X9.  The rollback of [batchOperation] puts the array back, not the
    records.  When the write fails on an initialized manager, a batch
    [delete] returns [{success: false, processed: 0}] and leaves the list
    exactly as it was; a batch [complete] of one pending record returns the
    same and emits the [save] error, but the record stays completed, with
    the new [updatedAt]. *)
Theorem batchOperation_failed_save
    (rt : Runtime) (s : State) (e : StorageErrorType) :
  initialized s = true ->
  setItem rt (setItem_calls s) = Some e ->
  (forall ids,
      let r := batchOperation rt ids (js "delete") s in
      result r = Ok (false, O) /\
      todos (after r) = todos s /\ heap (after r) = heap s /\
      contents (after r) = contents s) /\
  (forall id todo t,
      find_todo id s = Some todo ->
      heap s !! todo = Some t ->
      t_completed t = false ->
      let r := batchOperation rt [id] (js "complete") s in
      let now := now_toISOString rt (clock_reads s) in
      result r = Ok (false, O) /\
      todos (after r) = todos s /\
      heap (after r) = <[todo := with_updatedAt now (with_completed true t)]> (heap s) /\
      emitted (after r) = emitted s ++ [ev_error err_save (Some op_batch)]).
Proof.
  intros Hi Hw. split.
  - intros ids. cbv zeta. unfold batchOperation. munfold. cbn beta iota.
    rewrite Hi. cbn [negb].
    destruct ids as [|id ids]; [cbn; repeat split; reflexivity|].
    cbn [length Nat.eqb].
    change (existsb (eqb (js "delete")) validActions) with true. cbn [negb].
    destruct (batch_loop_delete rt (id :: ids) 0 s) as (n & ts & E).
    rewrite E. cbn beta iota.
    destruct (0 <? n)%nat.
    + rewrite (saveTodos_fail rt _ e) by exact Hw.
      unfold save_failed. cbn. repeat split; reflexivity.
    + cbn. repeat split; reflexivity.
  - intros id todo t Hf Ht Hc. cbv zeta.
    unfold batchOperation. munfold. cbn beta iota.
    rewrite Hi. cbn [negb length Nat.eqb].
    change (existsb (eqb (js "complete")) validActions) with true. cbn [negb].
    cbn [batch_loop]. unfold update_obj, new_Date_toISOString. munfold.
    cbn beta iota. rewrite Hf. cbn beta iota. rewrite Ht. cbn [from_option].
    rewrite Hc.
    change (eqb (js "complete") (js "complete")) with true. cbn [negb].
    cbn beta iota. cbn [Nat.ltb Nat.leb].
    rewrite (saveTodos_fail rt _ e) by exact Hw.
    unfold save_failed. cbn -[alter insert].
    split; [reflexivity|]. split; [reflexivity|]. split; [|reflexivity].
    rewrite list_alter_alter_eq.
    apply list_eq. intros i. destruct (decide (i = todo)) as [->|Hne].
    + rewrite list_lookup_alter_eq, Ht.
      rewrite list_lookup_insert_eq by (apply lookup_lt_is_Some; eauto).
      reflexivity.
    + rewrite list_lookup_alter_ne, list_lookup_insert_ne by congruence.
      reflexivity.
Qed.

(** X9, instance: a batch delete of both records and a batch complete of
    the pending one, while the store is full. *)
Lemma batchOperation_failed_save_witness :
  let rt := Browser.full in
  let s := two_records rt in
  contents (after (batchOperation rt [t_id older_record; t_id earlier_record]
                     (js "delete") s)) = contents s /\
  heap (after (batchOperation rt [t_id earlier_record] (js "complete") s))
    = [older_record;
       with_updatedAt (js "2024-01-01T00:00:00.000Z")
                      (with_completed true earlier_record)].
Proof.
  cbv zeta.
  destruct (batchOperation_failed_save Browser.full (two_records Browser.full)
              quota_exceeded) as (Hd & Hc);
    [vm_compute; reflexivity|vm_compute; reflexivity|].
  split.
  - apply (Hd [t_id older_record; t_id earlier_record]).
  - destruct (Hc (t_id earlier_record) 1%nat earlier_record) as (_ & _ & -> & _);
      vm_compute; reflexivity.
Defined.

(* ===================================================================== *)
(** ** Further properties of loading *)
(* ===================================================================== *)

Lemma contents_deref_all (s : State) :
  well_formed s -> contents s = map Some (deref_all s).
Proof.
  unfold contents, deref_all, well_formed.
  induction 1 as [|l ls [t Ht] _ IH]; [reflexivity|].
  cbn [map omap list_omap]. rewrite Ht. cbn [map]. f_equal. exact IH.
Qed.

(** X10.  [initialize()] cannot fail: whatever the store holds, it returns
    true and leaves the manager initialized, over a list whose references
    all point to records, without writing to the store.  When loading
    raises an error, the list is empty and [error] of type [load] is
    emitted before [initialized]. *)
Theorem initialize_always_ready (rt : Runtime) (s : State) :
  let r := initialize rt s in
  result r = Ok true /\
  initialized (after r) = true /\
  well_formed (after r) /\
  localStorage (after r) = localStorage s /\
  setItem_calls (after r) = setItem_calls s /\
  (result (loadTodos rt s) = Ok false ->
   todos (after r) = [] /\
   emitted (after r) = emitted s ++ [ev_error err_load None; ev_initialized]).
Proof.
  cbv zeta. rewrite initialize_spec. cbn [result after fst snd].
  split; [reflexivity|]. split; [reflexivity|].
  destruct (loadTodos_cases rt s)
    as [(d & s1 & v & s2 & E1 & E2 & F & E)|(s' & F & E)];
    rewrite E; cbn [result after fst snd];
    destruct F as (_ & _ & _ & Fe & Fl & Fc).
  - pose proof (validateTodoArray_spec rt (sd_todos d) s1) as Hv.
    rewrite E2 in Hv. destruct Hv as (Hk & _).
    destruct (loaded_sorted rt (av_validTodos v) s2) as (W & _ & _).
    { rewrite Hk. apply kept_created. }
    split; [exact W|]. split; [exact Fl|]. split; [exact Fc|].
    discriminate.
  - split; [constructor|]. split; [exact Fl|]. split; [exact Fc|].
    intros _. split; [reflexivity|].
    unfold load_failed. cbn. rewrite Fe, <- app_assoc. reflexivity.
Qed.

(** X10, instance: the store holds the JSON text [null]. *)
Lemma initialize_always_ready_witness :
  let s := constructed (Some (Some JNull)) in
  let r := initialize Browser.reliable s in
  result r = Ok true /\ initialized (after r) = true /\
  emitted (after r) = [ev_error err_load None; ev_initialized].
Proof.
  cbv zeta.
  destruct (initialize_always_ready Browser.reliable
              (constructed (Some (Some JNull))))
    as (H1 & H2 & _ & _ & _ & H6).
  destruct (H6 eq_refl) as [_ H7].
  exact (conj H1 (conj H2 H7)).
Defined.

(** X11.  When the store can be read and validated without a type error,
    [initialize()] leaves in the list exactly the records that passed
    validation: a rearrangement of them that is sorted by [createdAt], the
    newest first; it emits [todos-loaded] and then [initialized]. *)
Theorem initialize_sorts_valid_records
    (rt : Runtime) (s : State)
    (data : StoredData) (s1 : State) (v : ArrayValidation) (s2 : State) :
  Storage_loadTodos rt s = (Ok data, s1) ->
  validateTodoArray rt (sd_todos data) s1 = (Ok v, s2) ->
  let s' := after (initialize rt s) in
  Permutation (deref_all s') (kept rt (sd_todos data)) /\
  StronglySorted (newer_or_equal rt) (deref_all s') /\
  contents s' = map Some (deref_all s') /\
  emitted s' = emitted s ++ [ev_todos_loaded; ev_initialized].
Proof.
  intros E1 E2. cbv zeta. rewrite initialize_spec. cbn [after snd].
  rewrite (loadTodos_success rt s data s1 v s2 E1 E2). cbn [after snd].
  pose proof (validateTodoArray_spec rt (sd_todos data) s1) as Hv.
  rewrite E2 in Hv. destruct Hv as (Hk & _).
  destruct (loaded_sorted rt (av_validTodos v) s2) as (W & P & S).
  { rewrite Hk. apply kept_created. }
  pose proof (env_only_Storage_loadTodos rt s) as F1. rewrite E1 in F1.
  pose proof (env_only_validateTodoArray rt (sd_todos data) s1) as F2.
  rewrite E2 in F2. cbn [after snd] in F1, F2.
  destruct F1 as (_ & _ & _ & Fe1 & _). destruct F2 as (_ & _ & _ & Fe2 & _).
  split; [rewrite <- Hk; exact P|]. split; [exact S|]. split.
  - exact (contents_deref_all _ W).
  - cbn. rewrite Fe2, Fe1, <- app_assoc. reflexivity.
Qed.

(** X11, instance: two records persisted oldest first come out newest
    first. *)
Lemma initialize_sorts_valid_records_witness :
  let rt := Browser.reliable in
  let s := constructed (Some (Some
             (envelope [older_record; earlier_record]
                       (js "2023-12-31T10:00:00.001Z")))) in
  StronglySorted (newer_or_equal rt) (deref_all (after (initialize rt s))) /\
  deref_all (after (initialize rt s)) = [earlier_record; older_record].
Proof.
  cbv zeta.
  destruct (Storage_loadTodos Browser.reliable
              (constructed (Some (Some
                 (envelope [older_record; earlier_record]
                           (js "2023-12-31T10:00:00.001Z"))))))
    as [[data|x] s1] eqn:E1; [|vm_compute in E1; discriminate].
  destruct (validateTodoArray Browser.reliable (sd_todos data) s1)
    as [[v|x] s2] eqn:E2.
  - destruct (initialize_sorts_valid_records Browser.reliable _ data s1 v s2
                E1 E2) as (_ & S & _).
    split; [exact S|]. vm_compute. reflexivity.
  - exfalso. vm_compute in E1. injection E1 as <- <-.
    vm_compute in E2. discriminate.
Defined.

(* ===================================================================== *)
(** ** Further properties of the validator *)
(* ===================================================================== *)

(** A value on which [v.trim()] can be reached and does not exist. *)
Definition not_trimmable (v : JSVal) : bool := truthy v && negb (is_string v).

Lemma validateTodoText_None (v : JSVal) :
  validateTodoText v = None <-> not_trimmable v = true.
Proof.
  destruct v as [| |b|q|s|l|p]; unfold validateTodoText, not_trimmable.
  5: { destruct (validateTodoText_string s) as (r & Hr & _).
       unfold validateTodoText in Hr. rewrite Hr. cbn.
       rewrite andb_false_r. split; discriminate. }
  all: try destruct b; try destruct (truthy (JNum q)); cbn;
    split; intros; congruence.
Qed.

Lemma validateTodoId_None (v : JSVal) :
  validateTodoId v = None <-> not_trimmable v = true.
Proof.
  destruct v as [| |b|q|s|l|p]; unfold validateTodoId, not_trimmable.
  5: { rewrite truthy_JStr. destruct (eqb s []); cbn; split; discriminate. }
  all: try destruct b; try destruct (truthy (JNum q)); cbn;
    split; intros; congruence.
Qed.

Lemma validateTimestamp_None (rt : Runtime) (v : JSVal) (f : TsField) :
  validateTimestamp rt v f = None <-> not_trimmable v = true.
Proof.
  destruct v as [| |b|q|s|l|p]; unfold validateTimestamp, not_trimmable.
  5: { rewrite truthy_JStr. destruct (eqb s []); cbn; split; discriminate. }
  all: try destruct b; try destruct (truthy (JNum q)); cbn;
    split; intros; congruence.
Qed.

(** A candidate one of whose text, id and timestamps is a truthy value that
    is not a string. *)
Definition ill_typed (r : RawTodo) : bool :=
  not_trimmable (r_text r) || not_trimmable (r_id r)
  || not_trimmable (r_createdAt r) || not_trimmable (r_updatedAt r).

Lemma validateTodoData_throws (rt : Runtime) (r : RawTodo) (s : State) :
  (exists s', validateTodoData rt r s = (Throw TypeError, s')) <->
  ill_typed r = true.
Proof.
  unfold validateTodoData, ill_typed, or_now, new_Date_toISOString.
  pose proof (validateTodoText_None (r_text r)) as Ht.
  pose proof (validateTodoId_None (r_id r)) as Hi.
  pose proof (validateTimestamp_None rt (r_createdAt r) CreatedAt) as Hc.
  pose proof (validateTimestamp_None rt (r_updatedAt r) UpdatedAt) as Hu.
  destruct (validateTodoText (r_text r)) as [tv|].
  2: { rewrite (proj1 Ht eq_refl). cbn. split; [reflexivity|].
       intros _. eexists. reflexivity. }
  destruct (not_trimmable (r_text r)); [destruct Ht as [_ Ht]; discriminate (Ht eq_refl)|].
  destruct (validateTodoId (r_id r)) as [iv|].
  2: { rewrite (proj1 Hi eq_refl). cbn. split; [reflexivity|].
       intros _. eexists. reflexivity. }
  destruct (not_trimmable (r_id r)); [destruct Hi as [_ Hi]; discriminate (Hi eq_refl)|].
  destruct (validateTimestamp rt (r_createdAt r) CreatedAt) as [cv|].
  2: { rewrite (proj1 Hc eq_refl). cbn. split; [reflexivity|].
       intros _. eexists. reflexivity. }
  destruct (not_trimmable (r_createdAt r));
    [destruct Hc as [_ Hc]; discriminate (Hc eq_refl)|].
  destruct (validateTimestamp rt (r_updatedAt r) UpdatedAt) as [uv|].
  2: { rewrite (proj1 Hu eq_refl). munfold. cbn.
       destruct (truthy (r_createdAt r)); cbn; (split; [reflexivity|]);
         intros _; eexists; reflexivity. }
  destruct (not_trimmable (r_updatedAt r));
    [destruct Hu as [_ Hu]; discriminate (Hu eq_refl)|].
  munfold. cbn.
  destruct (truthy (r_createdAt r)), (truthy (r_updatedAt r)); cbn;
    (split; [intros [s' H]; discriminate|discriminate]).
Qed.

(** X12.  [validateTodoData] reports a candidate valid exactly when its
    text is a string that is not blank, is at most 200 characters long and
    has no angle bracket, its id is a non-blank string of letters, digits,
    [_] and [-], its [completed] is a boolean, and both timestamps are
    strings of the ISO form that parse to a date.  For such a candidate it
    reports no error, reads no clock, and returns the candidate with its
    text sanitized.  It raises a TypeError instead of answering exactly
    when the text, the id or a timestamp is a truthy value that is not a
    string. *)
Theorem validateTodoData_accepts_iff (rt : Runtime) (r : RawTodo) (s : State) :
  (forall v s',
      validateTodoData rt r s = (Ok v, s') ->
      td_isValid v = valid_raw rt r /\
      (td_isValid v = true ->
       td_errors v = [] /\ td_sanitizedTodo v = sanitized r /\ s' = s)) /\
  ((exists s', validateTodoData rt r s = (Throw TypeError, s')) <->
   ill_typed r = true).
Proof.
  split; [|apply validateTodoData_throws].
  intros v s' E. pose proof (validateTodoData_spec rt r s) as H.
  rewrite E in H. destruct H as [Hv Hs]. split; [exact Hv|].
  intros Hval. apply Hs. congruence.
Qed.

(** X12, instance: a record as persisted is accepted; one whose text is the
    number 5 makes the validation throw. *)
Lemma validateTodoData_accepts_iff_witness :
  let rt := Browser.reliable in
  let good := mkRawTodo (JStr (js "a1")) (JStr (js "Buy milk")) (JBool false)
                (JStr (js "2023-12-31T10:00:00.000Z"))
                (JStr (js "2023-12-31T10:00:00.000Z")) in
  let bad := mkRawTodo (JStr (js "a1")) (JNum 5) (JBool false)
                (JStr (js "2023-12-31T10:00:00.000Z"))
                (JStr (js "2023-12-31T10:00:00.000Z")) in
  (exists v, validateTodoData rt good (constructed None) = (Ok v, constructed None)
             /\ td_isValid v = true /\ td_errors v = []) /\
  (exists s', validateTodoData rt bad (constructed None) = (Throw TypeError, s')).
Proof.
  cbv zeta. split.
  - destruct (validateTodoData Browser.reliable
                (mkRawTodo (JStr (js "a1")) (JStr (js "Buy milk")) (JBool false)
                   (JStr (js "2023-12-31T10:00:00.000Z"))
                   (JStr (js "2023-12-31T10:00:00.000Z")))
                (constructed None)) as [[v|x] s'] eqn:E;
      [|vm_compute in E; discriminate].
    match type of E with
    | validateTodoData ?rt ?r ?s = _ =>
        destruct (validateTodoData_accepts_iff rt r s) as [H _]
    end.
    destruct (H v s' E) as [Hv Hs].
    assert (Hval : td_isValid v = true) by (rewrite Hv; vm_compute; reflexivity).
    destruct (Hs Hval) as (He & _ & ->).
    exists v. auto.
  - match goal with
    | |- exists s', validateTodoData ?rt ?r ?s = _ =>
        destruct (validateTodoData_accepts_iff rt r s) as [_ H]
    end.
    apply H. vm_compute. reflexivity.
Defined.

Lemma validate_each_errors (rt : Runtime) (rs : list RawTodo) :
  forall (index : nat) (errors : list ArrayMsg) (validTodos : list Todo)
         (s : State),
    match validate_each rt rs index errors validTodos s with
    | (Ok (errors', _), _) =>
        length errors' =
          (length errors
           + length (List.filter (fun r => negb (valid_raw rt r)) rs))%nat
    | (Throw _, _) => True
    end.
Proof.
  induction rs as [|r rs IH]; intros index errors validTodos s.
  - cbn. lia.
  - cbn [validate_each]. munfold.
    pose proof (validateTodoData_spec rt r s) as Hr.
    destruct (validateTodoData rt r s) as [[v|x] s1]; [|exact I].
    destruct Hr as [Hv _]. cbn [List.filter]. rewrite <- Hv.
    destruct (td_isValid v); cbn [negb].
    + apply IH.
    + specialize (IH (S index)
                     (errors ++ [ItemInvalid (index + 1) (td_errors v)])
                     validTodos s1).
      destruct (validate_each rt rs (S index) _ validTodos s1)
        as [[[errors' validTodos']|x] s2]; [|exact I].
      rewrite IH, length_app. cbn. lia.
Qed.

Lemma filter_negb_nil {A} (f : A -> bool) (l : list A) :
  List.filter (fun x => negb (f x)) l = [] <-> Forall (fun x => f x = true) l.
Proof.
  induction l as [|x l IH]; cbn; [split; [constructor|reflexivity]|].
  destruct (f x) eqn:E; cbn.
  - rewrite IH. split; [now constructor|now inversion 1].
  - split; [discriminate|]. inversion 1. congruence.
Qed.

Lemma check_duplicates_grows (rs : list RawTodo) :
  forall index idMap errors,
    exists more, check_duplicates rs index idMap errors = errors ++ more.
Proof.
  induction rs as [|r rs IH]; intros index idMap errors; cbn [check_duplicates].
  - exists []. now rewrite app_nil_r.
  - destruct (truthy (r_id r)); [|apply IH].
    destruct (idMap_get idMap (r_id r)) as [first|]; [|apply IH].
    destruct (IH (S index) idMap (errors ++ [DuplicateId (r_id r) first index]))
      as [more ->].
    eexists. rewrite <- app_assoc. reflexivity.
Qed.

Lemma idMap_get_app (idMap : list (JSVal * nat)) (k id : JSVal) (i : nat) :
  is_Some (idMap_get idMap id) \/ same_value_zero k id = true ->
  is_Some (idMap_get (idMap ++ [(k, i)]) id).
Proof.
  induction idMap as [|[k' i'] idMap IH]; cbn.
  - intros [[x H]|H]; [discriminate|]. rewrite H. eexists. reflexivity.
  - destruct (same_value_zero k' id); [intros _; eexists; reflexivity|exact IH].
Qed.

(** Once an id is in the map, a later candidate with that id is reported. *)
Lemma check_duplicates_seen (rs : list RawTodo) :
  forall index idMap errors r,
    In r rs -> truthy (r_id r) = true ->
    is_Some (idMap_get idMap (r_id r)) ->
    check_duplicates rs index idMap errors <> [].
Proof.
  induction rs as [|x rs IH]; intros index idMap errors r Hin Ht Hs;
    [destruct Hin|].
  cbn [check_duplicates].
  destruct (truthy (r_id x)) eqn:Tx.
  - destruct (idMap_get idMap (r_id x)) as [first|] eqn:Gx.
    + destruct (check_duplicates_grows rs (S index) idMap
                  (errors ++ [DuplicateId (r_id x) first index])) as [more ->].
      destruct errors; discriminate.
    + destruct Hin as [->|Hin]; [rewrite Gx in Hs; destruct Hs; discriminate|].
      apply (IH _ _ _ r Hin Ht). apply idMap_get_app. now left.
  - destruct Hin as [->|Hin]; [congruence|]. now apply (IH _ _ _ r).
Qed.

Lemma check_duplicates_pair (a : list RawTodo) (r1 : RawTodo) (rest : list RawTodo)
    (r2 : RawTodo) :
  In r2 rest -> r_id r2 = r_id r1 ->
  truthy (r_id r1) = true -> is_string (r_id r1) = true ->
  forall index idMap errors,
    check_duplicates (a ++ r1 :: rest) index idMap errors <> [].
Proof.
  intros Hin Hid Ht Hs.
  assert (Hrefl : same_value_zero (r_id r1) (r_id r1) = true).
  { destruct (r_id r1); try discriminate. apply eqb_refl. }
  induction a as [|x a IH]; intros index idMap errors.
  - cbn [app check_duplicates]. rewrite Ht.
    destruct (idMap_get idMap (r_id r1)) as [first|].
    + destruct (check_duplicates_grows rest (S index) idMap
                  (errors ++ [DuplicateId (r_id r1) first index])) as [more ->].
      destruct errors; discriminate.
    + apply (check_duplicates_seen rest _ _ _ r2 Hin); rewrite Hid;
        [exact Ht|]. apply idMap_get_app. now right.
  - cbn [app check_duplicates].
    destruct (truthy (r_id x)); [|apply IH].
    destruct (idMap_get idMap (r_id x)); apply IH.
Qed.

Lemma valid_raw_id (rt : Runtime) (r : RawTodo) :
  valid_raw rt r = true -> truthy (r_id r) = true /\ is_string (r_id r) = true.
Proof.
  unfold valid_raw. rewrite !andb_true_iff. intros ((((_ & Hi) & _) & _) & _).
  destruct (r_id r) as [| |b|q|s|l|p]; try discriminate.
  destruct s; [discriminate|]. split; reflexivity.
Qed.

Lemma kept_app (rt : Runtime) (a b : list RawTodo) :
  kept rt (a ++ b) = kept rt a ++ kept rt b.
Proof. unfold kept. now rewrite List.filter_app, List.map_app. Qed.

Lemma kept_cons_valid (rt : Runtime) (r : RawTodo) (rs : list RawTodo) :
  valid_raw rt r = true ->
  kept rt (r :: rs) = todo_of_raw (sanitized r) :: kept rt rs.
Proof. intros H. unfold kept. cbn. now rewrite H. Qed.

(** X13.  [validateTodoArray] returns in [validTodos] every candidate that
    is valid on its own, sanitized, in the original relative order, and
    nothing else; it reports [isValid] exactly when no duplicate id was
    seen and every candidate is valid.  Duplicates are only reported: of
    two valid candidates with one id both are returned. *)
Theorem validateTodoArray_keeps_every_valid
    (rt : Runtime) (rs : list RawTodo) (s s' : State) (v : ArrayValidation) :
  validateTodoArray rt rs s = (Ok v, s') ->
  av_validTodos v = kept rt rs /\
  (av_isValid v = true <->
     check_duplicates rs 0 [] [] = [] /\
     Forall (fun r => valid_raw rt r = true) rs) /\
  (forall a r1 b r2 c,
      rs = a ++ r1 :: b ++ r2 :: c ->
      valid_raw rt r1 = true -> valid_raw rt r2 = true ->
      r_id r2 = r_id r1 ->
      av_isValid v = false /\
      av_validTodos v =
        kept rt a ++ todo_of_raw (sanitized r1)
                  :: kept rt b ++ todo_of_raw (sanitized r2) :: kept rt c).
Proof.
  intros E.
  pose proof (validateTodoArray_spec rt rs s) as Hs. rewrite E in Hs.
  destruct Hs as (Hk & Hv & more & Hm).
  assert (Hlen : length (av_errors v)
                 = (length (check_duplicates rs 0 [] [])
                    + length (List.filter (fun r => negb (valid_raw rt r)) rs))%nat).
  { pose proof (validate_each_errors rt rs 0 (check_duplicates rs 0 [] []) [] s)
      as Hl.
    unfold validateTodoArray, mbind, M_bind, mret, M_ret in E.
    destruct (validate_each rt rs 0 _ [] s) as [[[e' t']|x] s1];
      [|discriminate].
    injection E as <- <-. exact Hl. }
  assert (Hiff : av_isValid v = true <->
                 check_duplicates rs 0 [] [] = [] /\
                 Forall (fun r => valid_raw rt r = true) rs).
  { rewrite Hv, <- filter_negb_nil. split.
    - intros Hn. destruct (av_errors v); [|discriminate]. cbn in Hlen.
      split; apply length_zero_iff_nil; lia.
    - intros [H1 H2]. rewrite H1, H2 in Hlen. cbn in Hlen.
      apply length_zero_iff_nil in Hlen. now rewrite Hlen. }
  split; [exact Hk|]. split; [exact Hiff|].
  intros a r1 b r2 c -> V1 V2 Hid. split.
  - destruct (av_isValid v) eqn:Ev; [|reflexivity]. exfalso.
    destruct (proj1 Hiff eq_refl) as [Hd _].
    destruct (valid_raw_id rt r1 V1) as [T1 S1].
    revert Hd. apply (check_duplicates_pair a r1 (b ++ r2 :: c) r2);
      try assumption.
    apply in_or_app. right. now left.
  - rewrite Hk, kept_app, kept_cons_valid, kept_app, kept_cons_valid
      by assumption.
    reflexivity.
Qed.

(** X13, instance: the same valid record twice. *)
Lemma validateTodoArray_keeps_every_valid_witness :
  let rt := Browser.reliable in
  let r := mkRawTodo (JStr (js "a1")) (JStr (js "Buy milk")) (JBool false)
             (JStr (js "2023-12-31T10:00:00.000Z"))
             (JStr (js "2023-12-31T10:00:00.000Z")) in
  exists v s',
    validateTodoArray rt [r; r] (constructed None) = (Ok v, s') /\
    av_isValid v = false /\ length (av_validTodos v) = 2%nat.
Proof.
  cbv zeta.
  match goal with
  | |- exists v s', validateTodoArray ?rt ?rs ?s = _ /\ _ =>
      destruct (validateTodoArray rt rs s) as [[v|x] s'] eqn:E;
        [|vm_compute in E; discriminate];
      destruct (validateTodoArray_keeps_every_valid rt rs s s' v E)
        as (_ & _ & H)
  end.
  match type of E with
  | validateTodoArray _ [?r; _] _ = _ =>
      destruct (H [] r [] r [] eq_refl) as [H1 H2];
        [vm_compute; reflexivity|vm_compute; reflexivity|reflexivity|]
  end.
  exists v, s'. split; [reflexivity|]. split; [exact H1|].
  rewrite H2. reflexivity.
Defined.

Lemma validate_each_throws (rt : Runtime) (rs : list RawTodo) :
  Exists (fun r => ill_typed r = true) rs ->
  forall index errors validTodos s,
    exists x s', validate_each rt rs index errors validTodos s = (Throw x, s').
Proof.
  induction 1 as [r rs Hr|r rs _ IH]; intros index errors validTodos s;
    cbn [validate_each]; munfold.
  - apply (validateTodoData_throws rt r s) in Hr as [s' ->].
    eexists _, _. reflexivity.
  - destruct (validateTodoData rt r s) as [[v|x] s1];
      [|eexists _, _; reflexivity].
    destruct (td_isValid v); apply IH.
Qed.

(** X14.  One candidate whose text, id or timestamp is a truthy value that
    is not a string costs the whole list: validation raises a TypeError,
    the manager's [loadTodos] catches it, and [initialize()] ends with an
    empty list (the valid records are dropped too), having emitted [error]
    of type [load] and then [initialized]. *)
Theorem ill_typed_record_empties_list
    (rt : Runtime) (s : State) (data : StoredData) (s1 : State) :
  Storage_loadTodos rt s = (Ok data, s1) ->
  Exists (fun r => ill_typed r = true) (sd_todos data) ->
  let r := initialize rt s in
  result (loadTodos rt s) = Ok false /\
  result r = Ok true /\
  todos (after r) = [] /\ contents (after r) = [] /\
  emitted (after r) = emitted s ++ [ev_error err_load None; ev_initialized].
Proof.
  intros E1 Hex. cbv zeta.
  assert (El : exists s2, env_step s s2 /\
                          loadTodos rt s = (Ok false, load_failed s2)).
  { pose proof (env_only_Storage_loadTodos rt s) as F1. rewrite E1 in F1.
    pose proof (env_only_validateTodoArray rt (sd_todos data) s1) as F2.
    unfold loadTodos. munfold. cbn beta iota. rewrite E1. cbn beta iota.
    unfold validateTodoArray in *. munfold.
    destruct (validate_each_throws rt (sd_todos data) Hex 0
                (check_duplicates (sd_todos data) 0 [] []) [] s1)
      as (x & s2 & E2).
    unfold mbind, M_bind in F2. rewrite E2 in *. cbn beta iota.
    exists s2. split; [|reflexivity].
    eapply env_step_trans; [exact F1|exact F2]. }
  destruct El as (s2 & F & El).
  rewrite initialize_spec, El. cbn [result after fst snd].
  destruct F as (_ & _ & _ & Fe & _).
  repeat split; try reflexivity.
  unfold load_failed. cbn. rewrite Fe, <- app_assoc. reflexivity.
Qed.

(** A persisted record whose text is the number 5. *)
Definition numeric_text_record : JSVal :=
  JObj [(k_id, JStr (js "n1")); (k_text, JNum 5); (k_completed, JBool false);
        (k_createdAt, JStr (js "2023-12-29T08:00:00.000Z"));
        (k_updatedAt, JStr (js "2023-12-29T08:00:00.000Z"))].

(** X14, instance: a valid record persisted next to one whose text is a
    number. *)
Lemma ill_typed_record_empties_list_witness :
  let s := constructed (Some (Some
             (JObj [(k_todos, JArr [json_of_todo earlier_record;
                                    numeric_text_record])]))) in
  contents (after (initialize Browser.reliable s)) = [] /\
  emitted (after (initialize Browser.reliable s))
    = [ev_error err_load None; ev_initialized].
Proof.
  cbv zeta.
  match goal with
  | |- contents (after (initialize ?rt ?s)) = _ /\ _ =>
      destruct (Storage_loadTodos rt s) as [[data|x] s1] eqn:E1;
        [|vm_compute in E1; discriminate];
      destruct (ill_typed_record_empties_list rt s data s1 E1)
        as (_ & _ & _ & H4 & H5)
  end.
  - vm_compute in E1. injection E1 as <- <-.
    apply Exists_cons_tl, Exists_cons_hd. vm_compute. reflexivity.
  - exact (conj H4 H5).
Defined.

Lemma in_push_if {A} (c : bool) (m x : A) (errors : list A) :
  In x (push_if c m errors) -> In x errors \/ (c = true /\ x = m).
Proof.
  destruct c; cbn; [|tauto].
  intros H. apply in_app_or in H as [H|[H|[]]]; auto.
Qed.

(** X15.  The messages "must be a string" of [validateTodoText],
    [validateTodoId] and [validateTimestamp], and the message "at least 1
    character" of [validateTodoText], are never reported: a truthy value
    that is not a string makes the validator raise a TypeError at
    [.trim()] before those checks are reached, a falsy one is reported as
    empty only, and a non-empty string has length at least 1. *)
Theorem type_messages_are_never_reported (rt : Runtime) (v : JSVal) :
  (forall r, validateTodoText v = Some r ->
             ~ In TextNotString (tv_errors r) /\ ~ In TextTooShort (tv_errors r)) /\
  (forall r, validateTodoId v = Some r -> ~ In IdNotString (v_errors r)) /\
  (forall f r, validateTimestamp rt v f = Some r ->
               ~ In (TsNotString f) (v_errors r)) /\
  (truthy v = true -> is_string v = false ->
   validateTodoText v = None /\ validateTodoId v = None /\
   forall f, validateTimestamp rt v f = None) /\
  (truthy v = false ->
   validateTodoText v = Some (mkTextValidation false [TextEmpty] []) /\
   validateTodoId v = Some (mkValidation false [IdEmpty]) /\
   forall f, validateTimestamp rt v f = Some (mkValidation false [TsEmpty f])).
Proof.
  assert (Hlen : forall s : jsstring,
             eqb s [] = false -> (length s <? Rules.text_minLength)%nat = false).
  { intros s E. apply Nat.ltb_ge. apply eqb_nil_false in E.
    destruct s; [congruence|]. unfold Rules.text_minLength. cbn. lia. }
  split; [|split; [|split; [|split]]].
  - intros r H. unfold validateTodoText in H.
    destruct v as [| |b|q|s|l|p].
    5: { rewrite truthy_JStr in H. destruct (eqb s []) eqn:Es.
         - cbn in H. injection H as <-. cbn.
           split; intros [H|[]]; discriminate.
         - cbn [negb call_trim mbind option_bind is_string js_length str_of
                andb] in H.
           rewrite (Hlen s Es) in H. injection H as <-. cbn [tv_errors].
           split; intros H;
             repeat (apply in_push_if in H as [H|[Hc Hx]];
                     [|first [discriminate Hx|discriminate Hc]]);
             destruct H. }
    all: try destruct b; try destruct (truthy (JNum q)) eqn:Eq;
      cbn in H; try discriminate; injection H as <-; cbn;
      split; intros [H|[]]; discriminate.
  - intros r H. unfold validateTodoId in H.
    destruct v as [| |b|q|s|l|p].
    5: { rewrite truthy_JStr in H. destruct (eqb s []) eqn:Es.
         - cbn in H. injection H as <-. cbn. intros [H|[]]; discriminate.
         - cbn [negb call_trim mbind option_bind is_string str_of andb] in H.
           injection H as <-. cbn [v_errors].
           intros H;
             repeat (apply in_push_if in H as [H|[Hc Hx]];
                     [|first [discriminate Hx|discriminate Hc]]);
             destruct H. }
    all: try destruct b; try destruct (truthy (JNum q)) eqn:Eq;
      cbn in H; try discriminate; injection H as <-; cbn;
      intros [H|[]]; discriminate.
  - intros f r H. unfold validateTimestamp in H.
    destruct v as [| |b|q|s|l|p].
    5: { rewrite truthy_JStr in H. destruct (eqb s []) eqn:Es.
         - cbn in H. injection H as <-. cbn. intros [H|[]]; discriminate.
         - cbn [negb call_trim mbind option_bind is_string str_of andb] in H.
           injection H as <-. cbn [v_errors].
           intros H;
             repeat (apply in_push_if in H as [H|[Hc Hx]];
                     [|first [discriminate Hx|discriminate Hc]]);
             destruct H. }
    all: try destruct b; try destruct (truthy (JNum q)) eqn:Eq;
      cbn in H; try discriminate; injection H as <-; cbn;
      intros [H|[]]; discriminate.
  - intros Ht Hs.
    assert (Hn : not_trimmable v = true)
      by (unfold not_trimmable; rewrite Ht, Hs; reflexivity).
    split; [now apply validateTodoText_None|].
    split; [now apply validateTodoId_None|].
    intros f. now apply validateTimestamp_None.
  - intros Ht.
    unfold validateTodoText, validateTodoId, validateTimestamp. rewrite Ht.
    assert (E : sanitizeInput v = []).
    { destruct v as [| |b|q|s|l|p]; try reflexivity.
      rewrite truthy_JStr in Ht. apply negb_false_iff in Ht.
      unfold sanitizeInput. now rewrite Ht. }
    cbn. rewrite E. repeat split; reflexivity.
Qed.

(** X15, instance: the number 5 makes each of the three validators throw,
    and [undefined] is reported as empty. *)
Lemma type_messages_are_never_reported_witness :
  validateTodoText (JNum 5) = None /\
  validateTodoText JUndefined = Some (mkTextValidation false [TextEmpty] []).
Proof.
  destruct (type_messages_are_never_reported Browser.reliable (JNum 5))
    as (_ & _ & _ & H5 & _).
  destruct (type_messages_are_never_reported Browser.reliable JUndefined)
    as (_ & _ & _ & _ & Hu).
  split; [apply H5; reflexivity|apply Hu; reflexivity].
Defined.

Lemma replaceAll_Forall (P : N -> Prop) (c : N) (by_ s : jsstring) :
  Forall P by_ ->
  Forall (fun d => d <> c -> P d) s ->
  Forall P (replaceAll c by_ s).
Proof.
  intros Hb Hs. unfold replaceAll.
  induction Hs as [|d s Hd _ IH]; cbn; [constructor|].
  apply Forall_app. split; [|exact IH].
  destruct (N.eqb_spec d c); [exact Hb|]. constructor; [auto|constructor].
Qed.

(** A character that may appear in sanitized text: not an angle bracket,
    not a double or single quote, not a control character. *)
Definition plain_char (c : N) : Prop :=
  c <> 60 /\ c <> 62 /\ c <> 34 /\ c <> 39 /\ 31 < c /\ c <> 127.

Lemma sanitizeInput_length (v : JSVal) :
  (length (sanitizeInput v) <= 200)%nat.
Proof.
  unfold sanitizeInput. destruct v; try (cbn; lia).
  destruct (eqb s []); [cbn; lia|].
  match goal with
  | |- context [(Rules.text_maxLength <? length ?x)%nat] =>
      destruct (Nat.ltb_spec Rules.text_maxLength (length x)) as [H|H]
  end.
  - rewrite length_take. unfold Rules.text_maxLength. lia.
  - exact H.
Qed.

Lemma sanitizeInput_plain (v : JSVal) : Forall plain_char (sanitizeInput v).
Proof.
  unfold sanitizeInput. destruct v; try constructor.
  destruct (eqb s []); [constructor|].
  set (s0 := replaceAll 38 (js "&amp;") (trim s)).
  assert (H1 : Forall (fun c => c <> 60) (replaceAll 60 (js "&lt;") s0)).
  { apply replaceAll_Forall; [repeat constructor; discriminate|].
    apply Forall_forall. auto. }
  assert (H2 : Forall (fun c => c <> 60 /\ c <> 62)
                 (replaceAll 62 (js "&gt;") (replaceAll 60 (js "&lt;") s0))).
  { apply replaceAll_Forall;
      [repeat constructor; discriminate|].
    eapply Forall_impl; [exact H1|]. cbn beta. auto. }
  assert (H3 : Forall (fun c => c <> 60 /\ c <> 62 /\ c <> 34)
                 (replaceAll 34 (js "&quot;")
                    (replaceAll 62 (js "&gt;")
                       (replaceAll 60 (js "&lt;") s0)))).
  { apply replaceAll_Forall;
      [repeat constructor; discriminate|].
    eapply Forall_impl; [exact H2|]. cbn beta. tauto. }
  assert (H4 : Forall (fun c => c <> 60 /\ c <> 62 /\ c <> 34 /\ c <> 39)
                 (replaceAll 39 (js "&#39;")
                    (replaceAll 34 (js "&quot;")
                       (replaceAll 62 (js "&gt;")
                          (replaceAll 60 (js "&lt;") s0))))).
  { apply replaceAll_Forall;
      [repeat constructor; discriminate|].
    eapply Forall_impl; [exact H3|]. cbn beta. tauto. }
  match goal with
  | |- Forall _ (if _ then take _ ?x else ?x) =>
      assert (H5 : Forall plain_char x)
  end.
  { apply Forall_forall. intros c Hc.
    apply list_elem_of_In, filter_In in Hc as [Hin Hf].
    rewrite Forall_forall in H4. apply list_elem_of_In in Hin.
    destruct (H4 c Hin) as (A1 & A2 & A3 & A4).
    apply negb_true_iff, orb_false_iff in Hf as [F1 F2].
    apply N.leb_gt in F1. apply N.eqb_neq in F2.
    unfold plain_char. tauto. }
  match goal with
  | |- Forall _ (if ?b then _ else _) => destruct b
  end; [apply Forall_take|]; exact H5.
Qed.

(** X16.  Whatever it is given, [sanitizeInput] returns at most 200
    characters, none of which is [<], [>], a double or single quote, or a
    control character (code 0 to 31, or 127); for the empty string and for
    anything that is not a string it returns the empty string. *)
Theorem sanitizeInput_is_plain (v : JSVal) :
  (length (sanitizeInput v) <= 200)%nat /\
  Forall plain_char (sanitizeInput v) /\
  (is_string v = false \/ v = JStr [] -> sanitizeInput v = []).
Proof.
  split; [apply sanitizeInput_length|]. split; [apply sanitizeInput_plain|].
  intros [H| ->]; [|reflexivity]. destruct v; try reflexivity. discriminate.
Qed.

(* ===================================================================== *)
(** ** Updating a record *)
(* ===================================================================== *)

Lemma eqb_true (a b : jsstring) : eqb a b = true <-> a = b.
Proof. unfold eqb. apply bool_decide_eq_true. Qed.

(** The verdict of the loop of [validateUpdates] on one key of the object
    with properties [props]. *)
Definition field_ok (props : list (jsstring * JSVal)) (field : jsstring) : bool :=
  if eqb field k_text then text_ok (assoc k_text props)
  else if eqb field k_completed then is_boolean (assoc k_completed props)
  else false.

(** [k] is among the keys the loop visits. *)
Definition mentions (k : jsstring) (fields : list jsstring) : bool :=
  existsb (fun f => eqb f k) fields.

(** What the loop has put into [sanitizedUpdates] after visiting [fields]. *)
Definition accepted (props : list (jsstring * JSVal)) (fields : list jsstring)
    (p : Patch) : Patch :=
  mkPatch
    (if mentions k_text fields && text_ok (assoc k_text props)
     then Some (sanitizeInput (assoc k_text props)) else p_text p)
    (if mentions k_completed fields && is_boolean (assoc k_completed props)
     then Some (bool_of (assoc k_completed props)) else p_completed p)
    (p_updatedAt p).

Lemma no_errors_app {A} (a b : list A) :
  no_errors (a ++ b) = no_errors a && no_errors b.
Proof. destruct a, b; reflexivity. Qed.

Lemma validate_fields_spec (props : list (jsstring * JSVal))
    (fields : list jsstring) :
  (mentions k_text fields = true -> not_trimmable (assoc k_text props) = false) ->
  forall errors p,
    exists errors',
      validate_fields (JObj props) fields errors p
        = Some (errors', accepted props fields p) /\
      no_errors errors' = no_errors errors && forallb (field_ok props) fields.
Proof.
  induction fields as [|field rest IH]; intros Hm errors p.
  - exists errors. split.
    + cbn. destruct p; reflexivity.
    + cbn. now rewrite andb_true_r.
  - assert (Hm' : mentions k_text rest = true ->
                  not_trimmable (assoc k_text props) = false).
    { intros H. apply Hm. unfold mentions in *. cbn [existsb].
      rewrite H. apply orb_true_r. }
    specialize (IH Hm').
    cbn [validate_fields forallb]. unfold field_ok at 1.
    destruct (eqb field k_text) eqn:Et.
    + apply eqb_true in Et. subst field.
      cbn [get_prop mbind option_bind].
      destruct (validateTodoText (assoc k_text props)) as [tv|] eqn:Etv.
      2: { apply validateTodoText_None in Etv. rewrite Hm in Etv; [discriminate|].
           unfold mentions. cbn [existsb]. now rewrite eqb_refl. }
      destruct (validateTodoText_spec _ _ Etv) as (H1 & H2 & H3).
      cbn [mbind option_bind]. rewrite <- H1.
      destruct (tv_isValid tv) eqn:Ev; cbn [negb].
      * destruct (IH errors (mkPatch (Some (tv_sanitizedText tv))
                               (p_completed p) (p_updatedAt p)))
          as (errors' & E & N).
        exists errors'. split; [|exact N]. rewrite E. f_equal. f_equal.
        unfold accepted, mentions. cbn [existsb p_text p_completed p_updatedAt].
        rewrite eqb_refl, <- H1, H3. cbn [orb andb].
        replace (eqb k_text k_completed) with false by (vm_compute; reflexivity).
        cbn [orb]. rewrite andb_true_r.
        destruct (existsb _ rest); reflexivity.
      * destruct (IH (errors ++ tv_errors tv) p) as (errors' & E & N).
        exists errors'. split.
        -- rewrite E. f_equal. f_equal.
           unfold accepted, mentions. cbn [existsb].
           rewrite <- H1. rewrite !andb_false_r.
           replace (eqb k_text k_completed) with false by (vm_compute; reflexivity).
           reflexivity.
        -- rewrite N, no_errors_app, <- H2. cbn. now rewrite andb_false_r.
    + destruct (eqb field k_completed) eqn:Ec.
      * apply eqb_true in Ec. subst field.
        cbn [get_prop mbind option_bind].
        destruct (validateCompleted_spec (assoc k_completed props)) as (H1 & H2).
        rewrite <- H1.
        destruct (v_isValid (validateCompleted (assoc k_completed props))) eqn:Ev;
          cbn [negb].
        -- destruct (IH errors (mkPatch (p_text p)
                                  (Some (bool_of (assoc k_completed props)))
                                  (p_updatedAt p)))
             as (errors' & E & N).
           exists errors'. split; [|exact N]. rewrite E. f_equal. f_equal.
           unfold accepted, mentions. cbn [existsb p_text p_completed p_updatedAt].
           rewrite eqb_refl, <- H1, Et. cbn [orb andb].
           destruct (existsb (fun f => eqb f k_completed) rest); reflexivity.
        -- destruct (IH (errors ++ v_errors (validateCompleted (assoc k_completed props))) p)
             as (errors' & E & N).
           exists errors'. split.
           ++ rewrite E. f_equal. f_equal.
              unfold accepted, mentions. cbn [existsb].
              rewrite <- H1, Et, !andb_false_r. reflexivity.
           ++ rewrite N, no_errors_app, <- H2. cbn. now rewrite andb_false_r.
      * destruct (IH (errors ++ [FieldNotAllowed field]) p) as (errors' & E & N).
        exists errors'. split.
        -- rewrite E. f_equal. f_equal.
           unfold accepted, mentions. cbn [existsb]. rewrite Et, Ec. reflexivity.
        -- rewrite N, no_errors_app. cbn. now rewrite andb_false_r.
Qed.

Lemma validate_fields_throws (props : list (jsstring * JSVal))
    (fields : list jsstring) :
  mentions k_text fields = true ->
  not_trimmable (assoc k_text props) = true ->
  forall errors p, validate_fields (JObj props) fields errors p = None.
Proof.
  intros Hm Hn. apply validateTodoText_None in Hn.
  induction fields as [|field rest IH]; intros errors p; [discriminate|].
  cbn [validate_fields]. unfold mentions in *. cbn [existsb] in Hm.
  destruct (eqb field k_text) eqn:Et.
  - cbn [get_prop mbind option_bind]. rewrite Hn. reflexivity.
  - cbn [orb] in Hm. specialize (IH Hm).
    destruct (eqb field k_completed).
    + cbn [get_prop mbind option_bind].
      destruct (negb _); apply IH.
    + apply IH.
Qed.

Lemma field_ok_mentions (props : list (jsstring * JSVal)) (keys : list jsstring) :
  forallb (field_ok props) keys = true ->
  (mentions k_text keys = true -> text_ok (assoc k_text props) = true) /\
  (mentions k_completed keys = true ->
   is_boolean (assoc k_completed props) = true) /\
  (keys <> [] -> mentions k_text keys || mentions k_completed keys = true).
Proof.
  unfold mentions. induction keys as [|k keys IH]; cbn [forallb existsb].
  - intros _. repeat split; try discriminate. congruence.
  - intros H. apply andb_true_iff in H as [Hk H].
    destruct (IH H) as (I1 & I2 & _). unfold field_ok in Hk.
    destruct (eqb k k_text) eqn:Et.
    + apply eqb_true in Et. subst k.
      replace (eqb k_text k_completed) with false by (vm_compute; reflexivity).
      cbn [orb]. repeat split; auto.
    + destruct (eqb k k_completed) eqn:Ec; [|discriminate].
      cbn [orb]. repeat split; auto. intros _. apply orb_true_r.
Qed.

Lemma text_ok_trimmable (v : JSVal) :
  text_ok v = true -> not_trimmable v = false.
Proof.
  destruct v; try discriminate. intros _. unfold not_trimmable. cbn.
  apply andb_false_r.
Qed.

(** The patch [validateUpdates] returns for an object whose keys were all
    accepted: the sanitized text, the new flag, and the time of the call
    unless the object is empty. *)
Definition patch_of (rt : Runtime) (props : list (jsstring * JSVal))
    (s : State) : Patch :=
  let keys := map fst props in
  mkPatch
    (if mentions k_text keys
     then Some (sanitizeInput (assoc k_text props)) else None)
    (if mentions k_completed keys
     then Some (bool_of (assoc k_completed props)) else None)
    (if no_errors props then None
     else Some (now_toISOString rt (clock_reads s))).

Lemma validateUpdates_obj
    (rt : Runtime) (props : list (jsstring * JSVal)) (s : State) :
  (mentions k_text (map fst props) = true ->
   not_trimmable (assoc k_text props) = false) ->
  exists errors,
    no_errors errors = forallb (field_ok props) (map fst props) /\
    validateUpdates rt (JObj props) s =
      let p := accepted props (map fst props) (mkPatch None None None) in
      if is_Some_b (p_text p) || is_Some_b (p_completed p)
      then (Ok (mkUpdatesValidation (no_errors errors) errors
                  (Some (mkPatch (p_text p) (p_completed p)
                           (Some (now_toISOString rt (clock_reads s)))))),
            set_clock_reads (S (clock_reads s)) s)
      else (Ok (mkUpdatesValidation (no_errors errors) errors (Some p)), s).
Proof.
  intros Hm.
  destruct (validate_fields_spec props (map fst props) Hm [] (mkPatch None None None))
    as (errors & E & N).
  exists errors. split; [exact N|].
  unfold validateUpdates. cbn [truthy is_object negb orb own_keys].
  rewrite E. cbv zeta. unfold new_Date_toISOString. munfold. cbn.
  destruct (is_Some_b _ || is_Some_b _); reflexivity.
Qed.

Lemma validateUpdates_valid
    (rt : Runtime) (props : list (jsstring * JSVal)) (s : State) :
  forallb (field_ok props) (map fst props) = true ->
  validateUpdates rt (JObj props) s =
    (Ok (mkUpdatesValidation true [] (Some (patch_of rt props s))),
     if no_errors props then s else set_clock_reads (S (clock_reads s)) s).
Proof.
  intros Hv. destruct (field_ok_mentions props _ Hv) as (H1 & H2 & H3).
  destruct (validateUpdates_obj rt props s) as (errors & N & E).
  { intros Hm. apply text_ok_trimmable, H1, Hm. }
  rewrite E. rewrite Hv in N. destruct errors; [|discriminate]. clear E N.
  cbv zeta. unfold accepted, patch_of. cbn [p_text p_completed p_updatedAt].
  destruct props as [|[k x] props].
  - reflexivity.
  - specialize (H3 ltac:(discriminate)). cbn [no_errors].
    destruct (mentions k_text (map fst ((k, x) :: props))) eqn:Mt;
      destruct (mentions k_completed (map fst ((k, x) :: props))) eqn:Mc;
      try discriminate;
      try rewrite (H1 eq_refl); try rewrite (H2 eq_refl); reflexivity.
Qed.

(** The keys of an array are its indexes, written in decimal: strings that
    start with a digit. *)
Lemma toString_aux_head (radix : N) (fuel : nat) :
  forall n acc,
    radix <= 10 -> radix <> 0 ->
    (exists c rest, acc = c :: rest /\ is_digit c = true) ->
    exists c rest, toString_aux radix fuel n acc = c :: rest /\ is_digit c = true.
Proof.
  induction fuel as [|fuel IH]; intros n acc Hr Hr0 Ha; cbn [toString_aux];
    [exact Ha|].
  assert (Hd : is_digit (digit (n mod radix)) = true).
  { pose proof (N.mod_lt n radix Hr0) as Hm. unfold digit, is_digit.
    set (d := n mod radix) in *.
    destruct (N.ltb_spec d 10); [|lia].
    apply andb_true_iff. split; apply N.leb_le; lia. }
  destruct (n / radix =? 0); [eexists _, _; split; [reflexivity|exact Hd]|].
  apply IH; [exact Hr|exact Hr0|]. eexists _, _. split; [reflexivity|exact Hd].
Qed.

Lemma index_key_head (i : nat) :
  exists c rest, toString 10 (N.of_nat i) = c :: rest /\ is_digit c = true.
Proof.
  unfold toString. cbn [toString_aux].
  assert (Hd : is_digit (digit (N.of_nat i mod 10)) = true).
  { pose proof (N.mod_lt (N.of_nat i) 10 ltac:(discriminate)) as Hm.
    unfold digit, is_digit. set (d := N.of_nat i mod 10) in *.
    destruct (N.ltb_spec d 10); [|lia].
    apply andb_true_iff. split; apply N.leb_le; lia. }
  destruct (N.of_nat i / 10 =? 0); [eexists _, _; split; [reflexivity|exact Hd]|].
  apply toString_aux_head; [lia|discriminate|].
  eexists _, _. split; [reflexivity|exact Hd].
Qed.

Lemma index_key_not_allowed (i : nat) :
  eqb (toString 10 (N.of_nat i)) k_text = false /\
  eqb (toString 10 (N.of_nat i)) k_completed = false.
Proof.
  destruct (index_key_head i) as (c & rest & -> & Hc).
  unfold is_digit in Hc. apply andb_true_iff in Hc as [_ Hc].
  apply N.leb_le in Hc.
  split; unfold eqb; apply bool_decide_eq_false; intros E;
    vm_compute in E; injection E as E _; lia.
Qed.

Lemma validate_fields_not_allowed (updates : JSVal) (fields : list jsstring) :
  Forall (fun f => eqb f k_text = false /\ eqb f k_completed = false) fields ->
  forall errors p,
    validate_fields updates fields errors p
      = Some (errors ++ map FieldNotAllowed fields, p).
Proof.
  induction 1 as [|f fields [Ht Hc] _ IH]; intros errors p.
  - cbn. now rewrite app_nil_r.
  - cbn [validate_fields map]. rewrite Ht, Hc, IH, <- app_assoc. reflexivity.
Qed.

(** [validateUpdates] on an array: every index is a key that may not be
    updated. *)
Lemma validateUpdates_array (rt : Runtime) (elems : list JSVal) (s : State) :
  validateUpdates rt (JArr elems) s =
    (Ok (mkUpdatesValidation
           (no_errors elems)
           (map (fun i => FieldNotAllowed (toString 10 (N.of_nat i)))
                (seq 0 (length elems)))
           (Some (mkPatch None None None))), s).
Proof.
  unfold validateUpdates. cbn [truthy is_object negb orb own_keys].
  rewrite validate_fields_not_allowed.
  - munfold. cbn. rewrite List.map_map.
    destruct elems; reflexivity.
  - apply Forall_forall. intros f Hf.
    apply list_elem_of_In, in_map_iff in Hf as (i & <- & _).
    apply index_key_not_allowed.
Qed.

(** X17.  [validateUpdates] answers "not an object" for a falsy value or one
    that is not an object, without reading the clock.  An array is an
    object whose keys are its indexes, none of which may be updated: it is
    accepted, with nothing to update, only when it is empty, and refused
    with one message for each index otherwise.  For any other object it
    raises a TypeError exactly when the object has a [text] that is a
    truthy value other than a string; otherwise it accepts exactly when
    every key is [text] or [completed], the text (if given) is a valid task
    text and [completed] (if given) is a boolean.  On acceptance it returns
    the sanitized text, the flag and, unless the object is empty, the time
    of the call as [updatedAt]. *)
Theorem validateUpdates_accepts_iff
    (rt : Runtime) (updates : JSVal) (s : State) :
  (truthy updates = false \/ is_object updates = false ->
   validateUpdates rt updates s
     = (Ok (mkUpdatesValidation false [UpdatesNotObject] None), s)) /\
  (forall elems, updates = JArr elems ->
     validateUpdates rt updates s
       = (Ok (mkUpdatesValidation
                (no_errors elems)
                (map (fun i => FieldNotAllowed (toString 10 (N.of_nat i)))
                     (seq 0 (length elems)))
                (Some (mkPatch None None None))), s)) /\
  (forall props, updates = JObj props ->
     let keys := map fst props in
     (mentions k_text keys && not_trimmable (assoc k_text props) = true ->
      validateUpdates rt updates s = (Throw TypeError, s)) /\
     (mentions k_text keys && not_trimmable (assoc k_text props) = false ->
      exists v s',
        validateUpdates rt updates s = (Ok v, s') /\
        uv_isValid v = forallb (field_ok props) keys /\
        (uv_isValid v = false -> uv_errors v <> []) /\
        (uv_isValid v = true ->
         uv_errors v = [] /\
         uv_sanitizedUpdates v = Some (patch_of rt props s) /\
         s' = if no_errors props then s
              else set_clock_reads (S (clock_reads s)) s))).
Proof.
  split; [|split].
  - intros H. unfold validateUpdates.
    destruct H as [-> | ->]; [|rewrite orb_true_r]; reflexivity.
  - intros elems ->. apply validateUpdates_array.
  - intros props ->. cbv zeta. split.
    + intros H. apply andb_true_iff in H as [Hm Hn].
      unfold validateUpdates. cbn [truthy is_object negb orb own_keys].
      rewrite (validate_fields_throws props _ Hm Hn). reflexivity.
    + intros H.
      destruct (forallb (field_ok props) (map fst props)) eqn:Hv.
      * rewrite (validateUpdates_valid rt props s Hv).
        eexists _, _. split; [reflexivity|]. cbn.
        split; [reflexivity|]. split; [discriminate|]. auto.
      * destruct (validateUpdates_obj rt props s) as (errors & N & E).
        { intros Hm. rewrite Hm in H. exact H. }
        rewrite E. cbv zeta. rewrite Hv in N.
        destruct (is_Some_b _ || is_Some_b _);
          eexists _, _; (split; [reflexivity|]); cbn; rewrite N;
          (split; [reflexivity|]);
          (split; [intros _ ->; discriminate|discriminate]).
Qed.

(** X17, instance: a string is not an object, an array of two elements is
    refused with a message for each index, a numeric text raises the
    TypeError, and a text with a flag is accepted and sanitized. *)
Lemma validateUpdates_accepts_iff_witness :
  let rt := Browser.reliable in
  let s := constructed None in
  validateUpdates rt (JStr (js "x")) s
    = (Ok (mkUpdatesValidation false [UpdatesNotObject] None), s) /\
  validateUpdates rt (JArr [JBool true; JStr (js "x")]) s
    = (Ok (mkUpdatesValidation false
             [FieldNotAllowed (js "0"); FieldNotAllowed (js "1")]
             (Some (mkPatch None None None))), s) /\
  validateUpdates rt (JObj [(k_text, JNum 5)]) s = (Throw TypeError, s) /\
  exists v s',
    validateUpdates rt (JObj [(k_text, JStr (js " Tea & cake "));
                              (k_completed, JBool true)]) s = (Ok v, s') /\
    uv_sanitizedUpdates v
      = Some (mkPatch (Some (js "Tea &amp; cake")) (Some true)
                (Some (js "2024-01-01T00:00:00.000Z"))).
Proof.
  cbv zeta. split; [|split; [|split]].
  - apply (validateUpdates_accepts_iff Browser.reliable (JStr (js "x"))
             (constructed None)).
    right. reflexivity.
  - destruct (validateUpdates_accepts_iff Browser.reliable
                (JArr [JBool true; JStr (js "x")]) (constructed None))
      as (_ & H & _).
    rewrite (H _ eq_refl). vm_compute. reflexivity.
  - destruct (validateUpdates_accepts_iff Browser.reliable
                (JObj [(k_text, JNum 5)]) (constructed None)) as (_ & _ & H).
    destruct (H _ eq_refl) as [H1 _]. apply H1. vm_compute. reflexivity.
  - destruct (validateUpdates_accepts_iff Browser.reliable
                (JObj [(k_text, JStr (js " Tea & cake "));
                       (k_completed, JBool true)]) (constructed None))
      as (_ & _ & H).
    destruct (H _ eq_refl) as [_ H2].
    destruct H2 as (v & s' & E & Hv & _ & Hp); [vm_compute; reflexivity|].
    exists v, s'. split; [exact E|].
    destruct Hp as (_ & Hp & _); [rewrite Hv; vm_compute; reflexivity|].
    rewrite Hp. vm_compute. reflexivity.
Defined.

Lemma alter_is_insert {A} (f : A -> A) (i : nat) (x : A) (l : list A) :
  l !! i = Some x -> alter f i l = <[i := f x]> l.
Proof.
  intros H. apply list_eq. intros j. destruct (decide (j = i)) as [->|Hne].
  - rewrite list_lookup_alter_eq, H.
    rewrite list_lookup_insert_eq by (apply lookup_lt_is_Some; eauto).
    reflexivity.
  - rewrite list_lookup_alter_ne, list_lookup_insert_ne by congruence.
    reflexivity.
Qed.

(** [updateTodo] once the record has been found. *)
Lemma updateTodo_found
    (rt : Runtime) (s : State) (id : jsstring) (updates : JSVal) (todo : loc) :
  initialized s = true ->
  find_todo id s = Some todo ->
  updateTodo rt id updates s =
    match validateUpdates rt updates s with
    | (Ok validation, s1) =>
        match uv_isValid validation, uv_sanitizedUpdates validation with
        | true, Some sanitizedUpdates =>
            let s2 := set_heap (alter (assign_patch sanitizedUpdates) todo (heap s1)) s1 in
            match saveTodos rt s2 with
            | (Ok true, s3) =>
                (Ok true,
                 set_emitted (emitted s3 ++ [ev_todo_updated todo sanitizedUpdates]) s3)
            | (Ok false, s3) =>
                (Ok false,
                 set_emitted (emitted s3 ++ [ev_error err_save (Some op_update)])
                   (set_heap (alter (fun t => default t (heap s1 !! todo)) todo
                                (heap s3)) s3))
            | (Throw e, s3) => (Throw e, s3)
            end
        | _, _ =>
            (Ok false,
             set_emitted (emitted s1
                          ++ [ev_validation_error op_update (uv_errors validation)])
                         s1)
        end
    | (Throw e, s1) => (Throw e, s1)
    end.
Proof.
  intros Hi Hf. unfold updateTodo, update_obj. munfold. cbn beta iota.
  rewrite Hi. cbn [negb]. cbn beta iota. rewrite Hf. cbn beta iota.
  destruct (validateUpdates rt updates s) as [[v|x] s1]; [|reflexivity].
  destruct (uv_isValid v), (uv_sanitizedUpdates v) as [p|]; try reflexivity.
  cbn beta iota zeta. cbn [heap set_heap].
  match goal with
  | |- context [saveTodos rt ?st] => destruct (saveTodos rt st) as [[[|]|x] s3]
  end; reflexivity.
Qed.

(** X7.  When the write fails on an initialized manager, [addTodo],
    [deleteTodo] and [clearAllTodos] return their failure value, and so
    does [updateTodo], except when the validation of the updates raises an
    error for an id that is in the list (a truthy [text] that is not a
    string): that error leaves [updateTodo].  In every case the content of
    the list is exactly as it was before the call, record by record and in
    order. *)
Theorem failed_save_restores_list
    (rt : Runtime) (s : State) (e : StorageErrorType) :
  initialized s = true ->
  well_formed s ->
  setItem rt (setItem_calls s) = Some e ->
  (forall text,
      result (addTodo rt (JStr text) s) = Ok None /\
      contents (after (addTodo rt (JStr text) s)) = contents s) /\
  (forall id,
      result (deleteTodo rt id s) = Ok false /\
      contents (after (deleteTodo rt id s)) = contents s) /\
  (forall id updates,
      result (updateTodo rt id updates s) =
        match find_todo id s, result (validateUpdates rt updates s) with
        | Some _, Throw x => Throw x
        | _, _ => Ok false
        end /\
      contents (after (updateTodo rt id updates s)) = contents s) /\
  (result (clearAllTodos rt s) = Ok false /\
   contents (after (clearAllTodos rt s)) = contents s).
Proof.
  intros Hi Hwf Hw. split; [|split; [|split]].
  - intros text.
    destruct (addTodo_rolls_back rt s e Hi Hw text Hwf) as (H1 & H2 & _).
    auto.
  - intros id. destruct (findIndex id s) as [index|] eqn:Hf.
    + destruct (deleteTodo_rolls_back rt s e Hi Hw id index Hf) as (H1 & H2 & _).
      auto.
    + apply findIndex_None in Hf.
      destruct (not_found_step rt s id Hi Hf) as (_ & -> & _).
      split; reflexivity.
  - intros id updates. destruct (find_todo id s) as [todo|] eqn:Hf.
    + destruct (find_todo_Some s id todo Hf) as (_ & t & Ht & _).
      split; [|exact (updateTodo_rolls_back rt s e id updates todo t Hi Hw Hf Ht)].
      rewrite (updateTodo_found rt s id updates todo Hi Hf).
      pose proof (validateUpdates_frame rt updates s) as Hfr.
      destruct (validateUpdates rt updates s) as [[v|x] s1];
        cbn [after snd result fst] in *; [|reflexivity].
      destruct (uv_isValid v), (uv_sanitizedUpdates v) as [p|]; try reflexivity.
      cbv zeta.
      rewrite (saveTodos_fail rt _ e)
        by (destruct Hfr as [-> | ->]; exact Hw).
      reflexivity.
    + destruct (not_found_step rt s id Hi Hf) as (_ & _ & ->).
      split; reflexivity.
  - destruct (clearAllTodos_rolls_back rt s e Hi Hw) as (H1 & H2 & _). auto.
Qed.

(** X7, instance: a delete, an update and a clear that cannot be saved. *)
Lemma failed_save_restores_list_witness :
  let rt := Browser.full in
  let s := two_records rt in
  let updates := JObj [(k_text, JStr (js "Tea"))] in
  contents (after (deleteTodo rt (t_id older_record) s))
    = [Some earlier_record; Some older_record] /\
  result (updateTodo rt (t_id older_record) updates s) = Ok false /\
  contents (after (updateTodo rt (t_id older_record) updates s))
    = [Some earlier_record; Some older_record] /\
  contents (after (clearAllTodos rt s))
    = [Some earlier_record; Some older_record].
Proof.
  cbv zeta.
  destruct (failed_save_restores_list Browser.full (two_records Browser.full)
              quota_exceeded)
    as (_ & Hd & Hu & _ & Hc).
  - vm_compute. reflexivity.
  - vm_compute. repeat constructor; eexists; reflexivity.
  - vm_compute. reflexivity.
  - destruct (Hd (t_id older_record)) as [_ ->].
    destruct (Hu (t_id older_record) (JObj [(k_text, JStr (js "Tea"))]))
      as [Hr ->].
    rewrite Hc, Hr.
    repeat split; vm_compute; reflexivity.
Defined.

(** X18.  On an initialized manager whose write goes through, [updateTodo]
    with an object that [validateUpdates] accepts returns true and changes
    the first record with the given id only: its text becomes the sanitized
    new text and its [completed] the new flag (each only if given), its
    [updatedAt] the time of the call; [id] and [createdAt] are never
    changed.  The new list is persisted, and [todos-saved] and then
    [todo-updated] are emitted.  With the empty object the call succeeds
    the same way and changes nothing, not even [updatedAt]. *)
Theorem updateTodo_applies_valid_updates
    (rt : Runtime) (s : State) (id : jsstring)
    (props : list (jsstring * JSVal)) (todo : loc) (t : Todo) :
  initialized s = true ->
  find_todo id s = Some todo ->
  heap s !! todo = Some t ->
  forallb (field_ok props) (map fst props) = true ->
  setItem rt (setItem_calls s) = None ->
  let keys := map fst props in
  let r := updateTodo rt id (JObj props) s in
  let t' :=
    {| t_id := t_id t;
       t_text := if mentions k_text keys
                 then sanitizeInput (assoc k_text props) else t_text t;
       t_completed := if mentions k_completed keys
                      then bool_of (assoc k_completed props) else t_completed t;
       t_createdAt := t_createdAt t;
       t_updatedAt := if no_errors props then t_updatedAt t
                      else now_toISOString rt (clock_reads s) |} in
  result r = Ok true /\
  todos (after r) = todos s /\
  heap (after r) = <[todo := t']> (heap s) /\
  localStorage (after r) =
    Some (Some (envelope (deref_all (after r))
                  (now_toISOString rt (if no_errors props then clock_reads s
                                       else S (clock_reads s))))) /\
  emitted (after r)
    = emitted s ++ [ev_todos_saved; ev_todo_updated todo (patch_of rt props s)].
Proof.
  intros Hi Hf Ht Hv Hw. cbv zeta.
  rewrite (updateTodo_found rt s id (JObj props) todo Hi Hf).
  rewrite (validateUpdates_valid rt props s Hv). cbn beta iota zeta.
  cbn [uv_isValid uv_sanitizedUpdates].
  assert (Hh : forall s1, heap s1 = heap s ->
             alter (assign_patch (patch_of rt props s)) todo (heap s1)
             = <[todo := assign_patch (patch_of rt props s) t]> (heap s)).
  { intros s1 ->. apply alter_is_insert, Ht. }
  assert (Ha : assign_patch (patch_of rt props s) t =
    {| t_id := t_id t;
       t_text := if mentions k_text (map fst props)
                 then sanitizeInput (assoc k_text props) else t_text t;
       t_completed := if mentions k_completed (map fst props)
                      then bool_of (assoc k_completed props) else t_completed t;
       t_createdAt := t_createdAt t;
       t_updatedAt := if no_errors props then t_updatedAt t
                      else now_toISOString rt (clock_reads s) |}).
  { unfold assign_patch, patch_of. cbn [p_text p_completed p_updatedAt].
    destruct (mentions k_text (map fst props)),
      (mentions k_completed (map fst props)), (no_errors props); reflexivity. }
  rewrite <- Ha.
  destruct (no_errors props).
  - rewrite (Hh s eq_refl).
    rewrite saveTodos_ok by exact Hw.
    unfold saved. cbn -[insert]. rewrite <- app_assoc. repeat split; reflexivity.
  - rewrite (Hh (set_clock_reads (S (clock_reads s)) s) eq_refl).
    rewrite saveTodos_ok by exact Hw.
    unfold saved. cbn -[insert]. rewrite <- app_assoc. repeat split; reflexivity.
Qed.

(** X18, instance: a new text and flag for the one record of a list. *)
Lemma updateTodo_applies_valid_updates_witness :
  let rt := Browser.reliable in
  let item := envelope [earlier_record] (js "2023-12-31T10:00:00.001Z") in
  let s := after (initialize rt (constructed (Some (Some item)))) in
  let r := updateTodo rt (t_id earlier_record)
             (JObj [(k_text, JStr (js " Tea & cake "));
                    (k_completed, JBool true)]) s in
  result r = Ok true /\
  contents (after r)
    = [Some (mkTodo (t_id earlier_record) (js "Tea &amp; cake") true
                    (t_createdAt earlier_record)
                    (js "2024-01-01T00:00:00.000Z"))].
Proof.
  cbv zeta.
  destruct (updateTodo_applies_valid_updates Browser.reliable
              (after (initialize Browser.reliable
                 (constructed (Some (Some
                    (envelope [earlier_record] (js "2023-12-31T10:00:00.001Z")))))))
              (t_id earlier_record)
              [(k_text, JStr (js " Tea & cake ")); (k_completed, JBool true)]
              0%nat earlier_record)
    as (H1 & H2 & H3 & _);
    [reflexivity|reflexivity|reflexivity|vm_compute; reflexivity|reflexivity|].
  split; [exact H1|]. unfold contents. rewrite H2, H3. vm_compute. reflexivity.
Defined.



(** X20.  [updateTodo] has no handler around the validation: on an
    initialized manager, for an id in the list and an object whose [text]
    is a truthy value that is not a string (a number, [true], an array, an
    object), the TypeError raised by [text.trim()] leaves [updateTodo]
    itself; nothing is emitted and nothing has changed. *)
Theorem updateTodo_throws_on_ill_typed_text
    (rt : Runtime) (s : State) (id : jsstring)
    (props : list (jsstring * JSVal)) (todo : loc) :
  initialized s = true ->
  find_todo id s = Some todo ->
  mentions k_text (map fst props) = true ->
  not_trimmable (assoc k_text props) = true ->
  updateTodo rt id (JObj props) s = (Throw TypeError, s).
Proof.
  intros Hi Hf Hm Hn.
  rewrite (updateTodo_found rt s id (JObj props) todo Hi Hf).
  unfold validateUpdates. cbn [truthy is_object negb orb own_keys].
  rewrite (validate_fields_throws props _ Hm Hn). reflexivity.
Qed.

(** X20, instance: the text 5. *)
Lemma updateTodo_throws_on_ill_typed_text_witness :
  let rt := Browser.reliable in
  let item := envelope [earlier_record] (js "2023-12-31T10:00:00.001Z") in
  let s := after (initialize rt (constructed (Some (Some item)))) in
  result (updateTodo rt (t_id earlier_record) (JObj [(k_text, JNum 5)]) s)
    = Throw TypeError.
Proof.
  cbv zeta.
  rewrite (updateTodo_throws_on_ill_typed_text Browser.reliable
             (after (initialize Browser.reliable
                (constructed (Some (Some
                   (envelope [earlier_record] (js "2023-12-31T10:00:00.001Z")))))))
             (t_id earlier_record) [(k_text, JNum 5)] 0%nat);
    reflexivity.
Defined.

(* ===================================================================== *)
(** ** Import and export *)
(* ===================================================================== *)

(** The check [StorageManager.importData] makes on an element of
    [data.todos]: its [text] is a non-empty string. *)
Definition import_ok (todo : JSVal) : bool :=
  match get_prop todo k_text with
  | Some (JStr s) => negb (eqb s [])
  | _ => false
  end.

(** The array [StorageManager.importData] goes on to save, if any: the
    text parses to an object whose [todos] is an array of elements that
    pass the check. *)
Definition importable (jsonData : JSONText) : option (list JSVal) :=
  match jsonData with
  | Some (JObj props) =>
      match assoc k_todos props with
      | JArr elems => if forallb import_ok elems then Some elems else None
      | _ => None
      end
  | _ => None
  end.

(** The state after the write of [StorageManager.saveTodos(elems)] went
    through, and after it failed with [e]. *)
Definition written (rt : Runtime) (elems : list JSVal) (s : State) : State :=
  set_localStorage
    (Some (Some (JObj [(k_todos, JArr elems); (k_version, JStr version);
                       (k_lastSync, JStr (now_toISOString rt (clock_reads s)))])))
    (set_setItem_calls (S (setItem_calls s))
       (set_clock_reads (S (clock_reads s)) s)).

Lemma check_import_spec (elems : list JSVal) (s : State) :
  if forallb import_ok elems then check_import elems s = (Ok tt, s)
  else exists e, check_import elems s = (Throw e, s).
Proof.
  induction elems as [|e elems IH]; [reflexivity|].
  cbn [check_import forallb]. unfold import_ok at 1. munfold.
  destruct (get_prop e k_text) as [v|] eqn:Ev; [|cbn; eexists; reflexivity].
  cbn [liftE]. unfold mret, M_ret. cbn beta iota.
  destruct v as [| |b|q|t|l|p]; cbn [truthy is_string negb orb andb];
    try (eexists; reflexivity).
  - destruct b; eexists; reflexivity.
  - destruct (negb (Qnum q =? 0)%Z); eexists; reflexivity.
  - rewrite orb_false_r. destruct (eqb t []); cbn [negb andb].
    + eexists; reflexivity.
    + exact IH.
Qed.

Lemma Storage_saveTodos_spec (rt : Runtime) (elems : list JSVal) (s : State) :
  Storage_saveTodos rt elems s =
    match setItem rt (setItem_calls s) with
    | None => (Ok true, written rt elems s)
    | Some e =>
        (Ok false,
         set_storage_errors (storage_errors s ++ [e])
           (set_setItem_calls (S (setItem_calls s))
              (set_clock_reads (S (clock_reads s)) s)))
    end.
Proof.
  unfold Storage_saveTodos, save, handleStorageError, new_Date_toISOString.
  munfold. cbn. destruct (setItem rt (setItem_calls s)); reflexivity.
Qed.

Lemma Storage_importData_spec (rt : Runtime) (jsonData : JSONText) (s : State) :
  Storage_importData rt jsonData s =
    match importable jsonData with
    | Some elems => Storage_saveTodos rt elems s
    | None => (Ok false, s)
    end.
Proof.
  unfold Storage_importData, try_catch, importable. munfold.
  destruct jsonData as [[| |b|q|t|l|props]|]; try reflexivity.
  cbn [get_prop liftE]. unfold mret, M_ret. cbn beta iota.
  destruct (assoc k_todos props) as [| |b|q|t|elems|p]; try reflexivity.
  pose proof (check_import_spec elems s) as Hc.
  destruct (forallb import_ok elems).
  - rewrite Hc. rewrite Storage_saveTodos_spec.
    destruct (setItem rt (setItem_calls s)); reflexivity.
  - destruct Hc as [e ->]. reflexivity.
Qed.

(** X21.  [StorageManager.importData] never throws and is all or nothing.
    It goes on to write exactly when the text parses to an object whose
    [todos] is an array of elements that each have a non-empty string as
    [text]; in every other case (text that does not parse, [null], a missing
    or non-array [todos], one element without such a text) it returns
    false, attempts no write and leaves everything as it was.  What it
    writes is the given array as it is, neither validated nor sanitized,
    under a new envelope: the other properties of the imported object are
    dropped.  It returns true exactly when that write goes through. *)
Theorem Storage_importData_all_or_nothing
    (rt : Runtime) (jsonData : JSONText) (s : State) :
  (importable jsonData = None ->
   Storage_importData rt jsonData s = (Ok false, s)) /\
  (forall elems,
      importable jsonData = Some elems ->
      (setItem rt (setItem_calls s) = None ->
       Storage_importData rt jsonData s = (Ok true, written rt elems s)) /\
      (forall e,
          setItem rt (setItem_calls s) = Some e ->
          let r := Storage_importData rt jsonData s in
          result r = Ok false /\
          localStorage (after r) = localStorage s /\
          storage_errors (after r) = storage_errors s ++ [e] /\
          setItem_calls (after r) = S (setItem_calls s))).
Proof.
  rewrite Storage_importData_spec. split.
  - intros ->. reflexivity.
  - intros elems ->. rewrite Storage_saveTodos_spec. split.
    + intros ->. reflexivity.
    + intros e ->. cbv zeta. repeat split.
Qed.

(** X21, instance: an array with one element without text is refused as a
    whole; an element that only has a text is written. *)
Lemma Storage_importData_all_or_nothing_witness :
  let rt := Browser.reliable in
  let s := constructed None in
  let good := JObj [(k_text, JStr (js "<b>"))] in
  Storage_importData rt
    (Some (JObj [(k_todos, JArr [good; JObj [(k_id, JStr (js "a"))]])])) s
    = (Ok false, s) /\
  Storage_importData rt (Some (JObj [(k_todos, JArr [good])])) s
    = (Ok true, written rt [good] s).
Proof.
  cbv zeta. split.
  - apply (Storage_importData_all_or_nothing Browser.reliable). reflexivity.
  - destruct (Storage_importData_all_or_nothing Browser.reliable
                (Some (JObj [(k_todos,
                              JArr [JObj [(k_text, JStr (js "<b>"))]])]))
                (constructed None)) as [_ H].
    destruct (H _ eq_refl) as [H1 _]. apply H1. reflexivity.
Defined.

Lemma importData_spec (rt : Runtime) (jsonData : JSONText) (s : State) :
  importData rt jsonData s =
    match importable jsonData with
    | None => (Ok false, s)
    | Some elems =>
        match setItem rt (setItem_calls s) with
        | Some e =>
            (Ok false,
             set_storage_errors (storage_errors s ++ [e])
               (set_setItem_calls (S (setItem_calls s))
                  (set_clock_reads (S (clock_reads s)) s)))
        | None =>
            let s2 := after (loadTodos rt (written rt elems s)) in
            (Ok true, set_emitted (emitted s2 ++ [ev_data_imported]) s2)
        end
    end.
Proof.
  unfold importData, try_catch. munfold. rewrite Storage_importData_spec.
  destruct (importable jsonData) as [elems|]; [|reflexivity].
  rewrite Storage_saveTodos_spec.
  destruct (setItem rt (setItem_calls s)); [reflexivity|].
  cbv zeta.
  destruct (loadTodos_cases rt (written rt elems s))
    as [(d & s1 & v & s2 & _ & _ & _ & ->)|(s' & _ & ->)]; reflexivity.
Qed.

(** X22.  [importData] of the manager never throws and never emits [error]
    of type [import].  When the storage manager refuses the text, or its
    write fails, it returns false, emits nothing and leaves the list and
    the persisted item as they were.  When the write goes through it
    returns true and the list is what a reload of the imported item gives:
    it emits [todos-loaded] and then [data-imported], or, when the reload
    raises an error, [error] of type [load] and then [data-imported], the
    list being empty. *)
Theorem importData_outcomes
    (rt : Runtime) (jsonData : JSONText) (s : State) :
  let r := importData rt jsonData s in
  (importable jsonData = None -> r = (Ok false, s)) /\
  (forall elems,
      importable jsonData = Some elems ->
      (forall e,
          setItem rt (setItem_calls s) = Some e ->
          result r = Ok false /\
          heap (after r) = heap s /\ todos (after r) = todos s /\
          emitted (after r) = emitted s /\
          localStorage (after r) = localStorage s) /\
      (setItem rt (setItem_calls s) = None ->
       result r = Ok true /\
       after r =
         (let s2 := after (loadTodos rt (written rt elems s)) in
          set_emitted (emitted s2 ++ [ev_data_imported]) s2) /\
       localStorage (after r) = localStorage (written rt elems s) /\
       (emitted (after r) = emitted s ++ [ev_todos_loaded; ev_data_imported] \/
        emitted (after r)
          = emitted s ++ [ev_error err_load None; ev_data_imported] /\
        todos (after r) = []))).
Proof.
  cbv zeta. rewrite importData_spec. split.
  - intros ->. reflexivity.
  - intros elems ->. split.
    + intros e ->. repeat split.
    + intros ->. cbv zeta. split; [reflexivity|]. split; [reflexivity|].
      cbn [after snd].
      destruct (loadTodos_cases rt (written rt elems s))
        as [(d & s1 & v & s2 & _ & _ & F & ->)|(s' & F & ->)];
        destruct F as (_ & _ & _ & Fe & Fl & _); cbn [after snd].
      * split; [exact Fl|]. left. unfold loaded. cbn.
        rewrite Fe, <- app_assoc. reflexivity.
      * split; [exact Fl|]. right. unfold load_failed. cbn.
        rewrite Fe, <- app_assoc. split; reflexivity.
Qed.

(** X22, instance: importing one record without id or timestamps into a
    manager that holds another record replaces the list; importing text
    that does not parse changes nothing. *)
Lemma importData_outcomes_witness :
  let rt := Browser.reliable in
  let item := envelope [earlier_record] (js "2023-12-31T10:00:00.001Z") in
  let s := after (initialize rt (constructed (Some (Some item)))) in
  importData rt None s = (Ok false, s) /\
  (let r := importData rt
              (Some (JObj [(k_todos, JArr [JObj [(k_text, JStr (js "Tea"))]])]))
              s in
   result r = Ok true /\
   map (fmap t_text) (contents (after r)) = [Some (js "Tea")]).
Proof.
  cbv zeta. split.
  - apply (importData_outcomes Browser.reliable None). reflexivity.
  - match goal with
    | |- result (importData ?rt ?j ?s) = _ /\ _ =>
        destruct (importData_outcomes rt j s) as [_ H];
        destruct (H _ eq_refl) as [_ H2];
        destruct H2 as (H3 & H4 & _); [reflexivity|]
    end.
    split; [exact H3|]. rewrite H4. vm_compute. reflexivity.
Defined.

(* ===================================================================== *)
(** ** Export followed by import *)
(* ===================================================================== *)

Lemma validateTodoData_Throw
    (rt : Runtime) (r : RawTodo) (s s' : State) (x : Exn) :
  validateTodoData rt r s = (Throw x, s') -> ill_typed r = true.
Proof.
  unfold validateTodoData, ill_typed, or_now, new_Date_toISOString.
  pose proof (validateTodoText_None (r_text r)) as Ht.
  pose proof (validateTodoId_None (r_id r)) as Hi.
  pose proof (validateTimestamp_None rt (r_createdAt r) CreatedAt) as Hc.
  pose proof (validateTimestamp_None rt (r_updatedAt r) UpdatedAt) as Hu.
  destruct (validateTodoText (r_text r)) as [tv|];
    [|rewrite (proj1 Ht eq_refl); reflexivity].
  destruct (validateTodoId (r_id r)) as [iv|];
    [|rewrite (proj1 Hi eq_refl), orb_true_r; reflexivity].
  destruct (validateTimestamp rt (r_createdAt r) CreatedAt) as [cv|];
    [|rewrite (proj1 Hc eq_refl), orb_true_r; reflexivity].
  destruct (validateTimestamp rt (r_updatedAt r) UpdatedAt) as [uv|];
    [|rewrite (proj1 Hu eq_refl), orb_true_r; reflexivity].
  munfold. cbn.
  destruct (truthy (r_createdAt r)), (truthy (r_updatedAt r)); cbn; discriminate.
Qed.

Lemma valid_raw_typed (rt : Runtime) (r : RawTodo) :
  valid_raw rt r = true -> ill_typed r = false.
Proof.
  unfold valid_raw, ill_typed, not_trimmable. rewrite !andb_true_iff.
  intros ((((H1 & H2) & _) & H4) & H5).
  destruct (r_text r), (r_id r), (r_createdAt r), (r_updatedAt r);
    try discriminate.
  cbn. rewrite !andb_false_r. reflexivity.
Qed.

Lemma validateTodoData_valid (rt : Runtime) (r : RawTodo) (s : State) :
  valid_raw rt r = true ->
  exists v, validateTodoData rt r s = (Ok v, s) /\
            td_isValid v = true /\ td_sanitizedTodo v = sanitized r.
Proof.
  intros Hv. pose proof (validateTodoData_spec rt r s) as H.
  destruct (validateTodoData rt r s) as [[v|x] s'] eqn:E.
  - destruct H as [H1 H2]. destruct (H2 Hv) as (_ & H3 & ->).
    exists v. split; [reflexivity|]. split; congruence.
  - apply validateTodoData_Throw in E.
    rewrite (valid_raw_typed rt r Hv) in E. discriminate.
Qed.

Lemma validate_each_valid (rt : Runtime) (rs : list RawTodo) :
  Forall (fun r => valid_raw rt r = true) rs ->
  forall index errors validTodos s,
    validate_each rt rs index errors validTodos s
      = (Ok (errors, validTodos ++ map (fun r => todo_of_raw (sanitized r)) rs), s).
Proof.
  induction 1 as [|r rs Hr _ IH]; intros index errors validTodos s.
  - cbn. now rewrite app_nil_r.
  - cbn [validate_each]. munfold.
    destruct (validateTodoData_valid rt r s Hr) as (v & -> & Hv & Hs).
    cbn beta iota. rewrite Hv, IH, Hs, <- app_assoc. reflexivity.
Qed.

(** A record of the list as [JSON.parse] gives it back from the persisted
    text. *)
Definition raw_of_todo (t : Todo) : RawTodo :=
  mkRawTodo (JStr (t_id t)) (JStr (t_text t)) (JBool (t_completed t))
            (JStr (t_createdAt t)) (JStr (t_updatedAt t)).

(** The record with its text sanitized once more. *)
Definition resanitized (t : Todo) : Todo :=
  mkTodo (t_id t) (sanitizeInput (JStr (t_text t))) (t_completed t)
         (t_createdAt t) (t_updatedAt t).

(** A record that validation accepts when it is read back. *)
Definition revalidates (rt : Runtime) (t : Todo) : bool :=
  valid_raw rt (raw_of_todo t).

Lemma nonblank_nonempty (s : jsstring) : blank s = false -> s <> [].
Proof. intros H ->. discriminate. Qed.

Lemma revalidates_nonempty (rt : Runtime) (t : Todo) :
  revalidates rt t = true ->
  t_id t <> [] /\ t_text t <> [] /\ t_createdAt t <> [] /\ t_updatedAt t <> [].
Proof.
  unfold revalidates, valid_raw, text_ok, id_ok, timestamp_ok, raw_of_todo.
  cbn [r_text r_id r_completed r_createdAt r_updatedAt].
  rewrite !andb_true_iff, !negb_true_iff. intros H.
  repeat split; apply nonblank_nonempty; tauto.
Qed.

Lemma truthy_nonempty (s : jsstring) : s <> [] -> truthy (JStr s) = true.
Proof. intros H. rewrite truthy_JStr. now apply negb_true_iff, eqb_nil_false. Qed.

Lemma migrate_persisted (rt : Runtime) (t : Todo) (s : State) :
  revalidates rt t = true ->
  migrate rt (json_of_todo t) s = (Ok (raw_of_todo t), s).
Proof.
  intros H. destruct (revalidates_nonempty rt t H) as (Hi & Ht & Hc & Hu).
  unfold migrate, or_now. munfold.
  replace (get_prop (json_of_todo t) k_id) with (Some (JStr (t_id t)))
    by (vm_compute; reflexivity).
  replace (get_prop (json_of_todo t) k_text) with (Some (JStr (t_text t)))
    by (vm_compute; reflexivity).
  replace (get_prop (json_of_todo t) k_completed)
    with (Some (JBool (t_completed t))) by (vm_compute; reflexivity).
  replace (get_prop (json_of_todo t) k_createdAt)
    with (Some (JStr (t_createdAt t))) by (vm_compute; reflexivity).
  replace (get_prop (json_of_todo t) k_updatedAt)
    with (Some (JStr (t_updatedAt t))) by (vm_compute; reflexivity).
  cbn [liftE]. unfold mret, M_ret. cbn beta iota.
  rewrite !truthy_nonempty by assumption. cbn beta iota.
  unfold raw_of_todo, js_or. rewrite truthy_nonempty by assumption.
  destruct (t_completed t); reflexivity.
Qed.

Lemma map_migrate_persisted (rt : Runtime) (ts : list Todo) (s : State) :
  Forall (fun t => revalidates rt t = true) ts ->
  map_migrate rt (map json_of_todo ts) s = (Ok (map raw_of_todo ts), s).
Proof.
  induction 1 as [|t ts Ht _ IH]; [reflexivity|].
  cbn [map map_migrate]. munfold. rewrite migrate_persisted by exact Ht.
  cbn beta iota. rewrite IH. reflexivity.
Qed.

Lemma Storage_loadTodos_persisted
    (rt : Runtime) (ts : list Todo) (lastSync : jsstring) (s : State) :
  localStorage s = Some (Some (envelope ts lastSync)) ->
  Forall (fun t => revalidates rt t = true) ts ->
  Storage_loadTodos rt s
    = (Ok (mkStoredData (envelope ts lastSync) (map raw_of_todo ts)), s).
Proof.
  intros Hl Hv. unfold Storage_loadTodos, load. munfold. rewrite Hl.
  cbn beta iota.
  replace (get_prop (envelope ts lastSync) k_todos)
    with (Some (JArr (map json_of_todo ts))) by reflexivity.
  cbn [liftE]. unfold mret, M_ret. cbn beta iota.
  rewrite map_migrate_persisted by exact Hv. reflexivity.
Qed.

Lemma kept_persisted (rt : Runtime) (ts : list Todo) :
  Forall (fun t => revalidates rt t = true) ts ->
  Forall (fun r => valid_raw rt r = true) (map raw_of_todo ts) /\
  map (fun r => todo_of_raw (sanitized r)) (map raw_of_todo ts)
    = map resanitized ts.
Proof.
  intros H. split.
  - apply Forall_map. exact H.
  - rewrite List.map_map. reflexivity.
Qed.

(** Reading back a persisted list all of whose records are accepted. *)
Lemma loadTodos_persisted
    (rt : Runtime) (ts : list Todo) (lastSync : jsstring) (s : State) :
  localStorage s = Some (Some (envelope ts lastSync)) ->
  Forall (fun t => revalidates rt t = true) ts ->
  loadTodos rt s = (Ok true, loaded rt (map resanitized ts) s).
Proof.
  intros Hl Hv. destruct (kept_persisted rt ts Hv) as [Hk Hm].
  assert (E2 : validateTodoArray rt (map raw_of_todo ts) s
               = (Ok (mkArrayValidation
                        (no_errors (check_duplicates (map raw_of_todo ts) 0 [] []))
                        (check_duplicates (map raw_of_todo ts) 0 [] [])
                        (map resanitized ts)), s)).
  { unfold validateTodoArray. munfold.
    rewrite (validate_each_valid rt _ Hk). cbn. rewrite Hm. reflexivity. }
  rewrite (loadTodos_success rt s _ s _ s
             (Storage_loadTodos_persisted rt ts lastSync s Hl Hv) E2).
  reflexivity.
Qed.

Lemma Sorted_map {A B} (R : A -> A -> Prop) (R' : B -> B -> Prop)
    (f : A -> B) (l : list A) :
  (forall a b, R a b -> R' (f a) (f b)) ->
  Sorted R l -> Sorted R' (map f l).
Proof.
  intros Hf. induction 1 as [|a l Hs IH Hd]; cbn; constructor; [exact IH|].
  destruct Hd; cbn; constructor. auto.
Qed.

(** In a heap that ends with records in newest-first order, the addresses
    of these records are in the order the sort leaves alone. *)
Lemma seq_in_order (rt : Runtime) (st : State) (ts : list Todo) :
  Sorted (newer_or_equal rt) ts ->
  forall h, heap st = h ++ ts ->
  Sorted (fun a b => comes_after rt st a b = false)
         (seq (length h) (length ts)).
Proof.
  induction 1 as [|t ts Hs IH Hd]; intros h Hh; cbn [length seq];
    constructor.
  - specialize (IH (h ++ [t])). rewrite length_app in IH. cbn in IH.
    rewrite Nat.add_1_r in IH. apply IH. rewrite <- app_assoc. exact Hh.
  - destruct Hd as [|t2 ts' (x & y & Hx & Hy & Hxy)]; cbn [length seq];
      constructor.
    unfold comes_after, compare_created. rewrite Hh.
    rewrite lookup_app_r, Nat.sub_diag by lia. cbn [lookup list_lookup].
    rewrite lookup_app_r by lia.
    replace (S (length h) - length h)%nat with 1%nat by lia.
    cbn [lookup list_lookup]. rewrite Hy, Hx.
    apply Z.ltb_ge. lia.
Qed.

Lemma map_lookup_seq_app {A} (hp ts : list A) :
  map (fun l => (hp ++ ts) !! l) (seq (length hp) (length ts)) = map Some ts.
Proof.
  revert hp. induction ts as [|t ts IH]; intros hp; [reflexivity|].
  cbn [length seq map].
  rewrite lookup_app_r, Nat.sub_diag by lia. cbn [lookup list_lookup].
  f_equal. specialize (IH (hp ++ [t])).
  rewrite <- app_assoc, length_app in IH. cbn in IH.
  rewrite Nat.add_1_r in IH. exact IH.
Qed.

Lemma loaded_in_order (rt : Runtime) (ts : list Todo) (s : State) :
  Sorted (newer_or_equal rt) ts ->
  todos (loaded rt ts s) = seq (length (heap s)) (length ts) /\
  contents (loaded rt ts s) = map Some ts.
Proof.
  intros Hs.
  assert (Ht : todos (loaded rt ts s) = seq (length (heap s)) (length ts)).
  { unfold loaded. cbn. apply Array_sort_sorted_id.
    apply seq_in_order; [exact Hs|reflexivity]. }
  split; [exact Ht|].
  unfold contents. rewrite Ht. apply map_lookup_seq_app.
Qed.

Lemma map_Some_resanitized (ts : list Todo) :
  map (fun t => Some (resanitized t)) ts = map Some ts <->
  Forall (fun t => sanitizeInput (JStr (t_text t)) = t_text t) ts.
Proof.
  induction ts as [|t ts IH]; cbn [map].
  - split; [constructor|reflexivity].
  - split.
    + intros H. injection H as H1 H2. constructor; [|now apply IH].
      apply (f_equal t_text) in H1. exact H1.
    + intros H. inversion H as [|? ? H1 H2]; subst. f_equal; [|now apply IH].
      f_equal. unfold resanitized. rewrite H1. destruct t; reflexivity.
Qed.

(** X23.  Export followed by import.  Over a store that holds the list as
    the manager last saved it, every record of which validation accepts
    again, the list being in newest-first order: [exportData] returns the
    persisted envelope and changes nothing, and [importData] of that text,
    when its write goes through, returns true and replaces the list by new
    objects, in the same order, with the same [id], [completed],
    [createdAt] and [updatedAt], and with the text sanitized once more.
    So the round trip leaves the content of the list unchanged exactly
    when every text is left as it is by [sanitizeInput]; a text holding an
    ampersand or a quote is escaped again. *)
Theorem export_import_round_trip
    (rt : Runtime) (s : State) (ts : list Todo) (lastSync : jsstring) :
  localStorage s = Some (Some (envelope ts lastSync)) ->
  contents s = map Some ts ->
  Forall (fun t => revalidates rt t = true) ts ->
  Sorted (newer_or_equal rt) ts ->
  setItem rt (setItem_calls s) = None ->
  exportData rt s = (Ok (Some (envelope ts lastSync)), s) /\
  let r := importData rt (Some (envelope ts lastSync)) s in
  result r = Ok true /\
  todos (after r) = seq (length (heap s)) (length ts) /\
  contents (after r) = map (fun t => Some (resanitized t)) ts /\
  (contents (after r) = contents s <->
   Forall (fun t => sanitizeInput (JStr (t_text t)) = t_text t) ts) /\
  localStorage (after r)
    = Some (Some (envelope ts (now_toISOString rt (clock_reads s)))) /\
  emitted (after r) = emitted s ++ [ev_todos_loaded; ev_data_imported].
Proof.
  intros Hl Hc Hv Hs Hw. split.
  - unfold exportData, Storage_exportData. munfold.
    rewrite (Storage_loadTodos_persisted rt ts lastSync s Hl Hv).
    cbn beta iota. unfold stringify_data, envelope. cbn [sd_data sd_todos].
    replace (set_assoc k_todos (JArr (map json_of_raw (map raw_of_todo ts)))
               [(k_todos, JArr (map json_of_todo ts));
                (k_version, JStr version); (k_lastSync, JStr lastSync)])
      with [(k_todos, JArr (map json_of_raw (map raw_of_todo ts)));
            (k_version, JStr version); (k_lastSync, JStr lastSync)]
      by reflexivity.
    rewrite List.map_map. reflexivity.
  - cbv zeta. rewrite importData_spec.
    assert (Hi : importable (Some (envelope ts lastSync))
                 = Some (map json_of_todo ts)).
    { unfold importable, envelope.
      replace (assoc k_todos _) with (JArr (map json_of_todo ts)) by reflexivity.
      assert (Hf : forallb import_ok (map json_of_todo ts) = true).
      { apply forallb_forall. intros e He. apply in_map_iff in He as (t & <- & Ht).
        rewrite Forall_forall in Hv.
        destruct (revalidates_nonempty rt t) as (_ & Hn & _).
        { apply Hv, list_elem_of_In, Ht. }
        unfold import_ok.
        replace (get_prop (json_of_todo t) k_text) with (Some (JStr (t_text t)))
          by (vm_compute; reflexivity).
        now apply negb_true_iff, eqb_nil_false. }
      rewrite Hf. reflexivity. }
    rewrite Hi, Hw. cbv zeta.
    rewrite (loadTodos_persisted rt ts (now_toISOString rt (clock_reads s))
               (written rt (map json_of_todo ts) s)) by (reflexivity || exact Hv).
    cbn [after snd result fst].
    assert (Hs' : Sorted (newer_or_equal rt) (map resanitized ts)).
    { revert Hs. apply Sorted_map. intros a b H. exact H. }
    destruct (loaded_in_order rt (map resanitized ts)
                (written rt (map json_of_todo ts) s) Hs') as [Ht Hd].
    rewrite length_map in Ht.
    split; [reflexivity|]. split; [exact Ht|].
    change (contents (set_emitted
                        (emitted (loaded rt (map resanitized ts)
                                    (written rt (map json_of_todo ts) s))
                         ++ [ev_data_imported])
                        (loaded rt (map resanitized ts)
                           (written rt (map json_of_todo ts) s))))
      with (contents (loaded rt (map resanitized ts)
                        (written rt (map json_of_todo ts) s))).
    rewrite Hd, List.map_map, Hc.
    split; [reflexivity|]. split; [apply map_Some_resanitized|].
    split; [reflexivity|].
    unfold loaded. cbn. rewrite <- app_assoc. reflexivity.
Qed.

(** X23, instance: a list of two records whose texts need no escaping. *)
Lemma export_import_round_trip_witness :
  let rt := Browser.reliable in
  let item := envelope [earlier_record; older_record]
                       (js "2023-12-31T10:00:00.001Z") in
  let s := after (initialize rt (constructed (Some (Some item)))) in
  exportData rt s = (Ok (Some item), s) /\
  result (importData rt (Some item) s) = Ok true /\
  contents (after (importData rt (Some item) s)) = contents s /\
  todos s = [0; 1]%nat /\
  todos (after (importData rt (Some item) s)) = [2; 3]%nat.
Proof.
  cbv zeta.
  destruct (export_import_round_trip Browser.reliable
              (after (initialize Browser.reliable
                 (constructed (Some (Some
                    (envelope [earlier_record; older_record]
                              (js "2023-12-31T10:00:00.001Z")))))))
              [earlier_record; older_record] (js "2023-12-31T10:00:00.001Z"))
    as (H1 & H2 & H3 & _ & H5 & _).
  - reflexivity.
  - vm_compute. reflexivity.
  - repeat constructor; vm_compute; reflexivity.
  - repeat constructor.
    eexists _, _. split; [vm_compute; reflexivity|].
    split; [vm_compute; reflexivity|]. vm_compute. discriminate.
  - reflexivity.
  - split; [exact H1|]. split; [exact H2|]. split.
    + apply H5. repeat constructor; vm_compute; reflexivity.
    + split; [vm_compute; reflexivity|]. rewrite H3. vm_compute. reflexivity.
Defined.

(* ===================================================================== *)
(** ** Generated identifiers *)
(* ===================================================================== *)

(** A character of [[a-zA-Z0-9_-]]. *)
Definition id_char (c : N) : bool :=
  is_lower c || is_upper c || is_digit c || (c =? 95) || (c =? 45).

Lemma digit_36 (d : N) : d < 36 -> is_lower (digit d) || is_digit (digit d) = true.
Proof.
  intros H. unfold digit, is_lower, is_digit.
  destruct (N.ltb_spec d 10).
  - apply orb_true_iff. right. apply andb_true_iff. split; apply N.leb_le; lia.
  - apply orb_true_iff. left. apply andb_true_iff. split; apply N.leb_le; lia.
Qed.

Lemma toString_aux_36 (fuel : nat) :
  forall n acc,
    Forall (fun c => is_lower c || is_digit c = true) acc ->
    Forall (fun c => is_lower c || is_digit c = true) (toString_aux 36 fuel n acc).
Proof.
  induction fuel as [|fuel IH]; intros n acc Ha; cbn [toString_aux]; [exact Ha|].
  assert (Ha' : Forall (fun c => is_lower c || is_digit c = true)
                       (digit (n mod 36) :: acc)).
  { constructor; [|exact Ha]. apply digit_36. apply N.mod_lt. discriminate. }
  destruct (n / 36 =? 0); [exact Ha'|]. apply IH, Ha'.
Qed.

Lemma toString_aux_nonempty (radix : N) (fuel : nat) :
  forall n acc, acc <> [] -> toString_aux radix fuel n acc <> [].
Proof.
  induction fuel as [|fuel IH]; intros n acc Ha; cbn [toString_aux]; [exact Ha|].
  destruct (n / radix =? 0); [discriminate|]. apply IH. discriminate.
Qed.

(** [n.toString(36)] is a non-empty string of digits and lower-case
    letters. *)
Lemma toString36_chars (n : N) :
  toString36 n <> [] /\
  Forall (fun c => is_lower c || is_digit c = true) (toString36 n).
Proof.
  unfold toString36, toString. split.
  - cbn [toString_aux]. destruct (n / 36 =? 0); [discriminate|].
    apply toString_aux_nonempty. discriminate.
  - apply toString_aux_36. constructor.
Qed.

Lemma id_char_range (c : N) : id_char c = true -> 45 <= c <= 122.
Proof.
  unfold id_char, is_lower, is_upper, is_digit.
  rewrite !orb_true_iff, !andb_true_iff, !N.leb_le, !N.eqb_eq. lia.
Qed.

Lemma id_char_not_ws (c : N) : id_char c = true -> is_ws c = false.
Proof.
  intros H. apply id_char_range in H. unfold is_ws.
  repeat (apply orb_false_iff; split);
    try (apply N.eqb_neq; lia).
  apply andb_false_iff. left. apply N.leb_gt. lia.
Qed.

Lemma id_ok_chars (s : jsstring) :
  s <> [] -> Forall (fun c => id_char c = true) s -> id_ok (JStr s) = true.
Proof.
  intros Hn Hc. unfold id_ok, Rules.id_pattern.
  apply andb_true_iff. split; [|apply andb_true_iff; split].
  - apply negb_true_iff. destruct s as [|c s]; [congruence|].
    inversion Hc; subst. cbn. rewrite id_char_not_ws by assumption. reflexivity.
  - now apply negb_true_iff, eqb_nil_false.
  - apply forallb_forall. intros c Hin. rewrite Forall_forall in Hc.
    apply Hc, list_elem_of_In, Hin.
Qed.

(** Sanitized text passes every check of [validateTodoText] but, possibly,
    the one for blank text. *)
Lemma text_ok_sanitized (v : JSVal) :
  text_ok (JStr (sanitizeInput v)) = negb (blank (sanitizeInput v)).
Proof.
  unfold text_ok.
  assert (Hl : (200 <? length (sanitizeInput v))%nat = false).
  { apply Nat.ltb_ge, sanitizeInput_length. }
  assert (Hp : Rules.text_pattern (sanitizeInput v) = true).
  { unfold Rules.text_pattern. apply forallb_forall. intros c Hc.
    pose proof (sanitizeInput_plain v) as H. rewrite Forall_forall in H.
    destruct (H c) as (A1 & A2 & _); [apply list_elem_of_In, Hc|].
    apply negb_true_iff, orb_false_iff. split; now apply N.eqb_neq. }
  rewrite Hl, Hp. cbn. now rewrite !andb_true_r.
Qed.

(** X24.  The records [createValidTodo] builds are accepted when they are
    read back, with one exception.  For a valid text, over a clock whose
    ISO string is a timestamp the validator accepts and a random source
    that yields characters of [[a-zA-Z0-9_-]] only, the generated id passes
    [validateTodoId], and [validateTodoData] accepts the new record exactly
    when its sanitized text is not blank: a text made of control characters
    and white space gives a record that the next load drops. *)
Theorem created_record_is_accepted_again
    (rt : Runtime) (text : jsstring) (s : State) :
  timestamp_ok rt (JStr (now_toISOString rt (clock_reads s))) = true ->
  Forall (fun c => id_char c = true) (Math_random36 rt (random_reads s)) ->
  trim text <> [] -> (length text <= 200)%nat ->
  Rules.text_pattern text = true ->
  exists t s',
    createValidTodo rt (JStr text) s
      = (Ok (mkCreateResult true [] (Some t)), s') /\
    t_text t = sanitizeInput (JStr text) /\
    id_ok (JStr (t_id t)) = true /\
    valid_raw rt (raw_of_todo t) = negb (blank (t_text t)) /\
    (blank (t_text t) = false ->
     forall s0, exists v,
       validateTodoData rt (raw_of_todo t) s0 = (Ok v, s0) /\
       td_isValid v = true).
Proof.
  intros Hts Hr Ht Hl Hp.
  rewrite (createValidTodo_valid rt text s Ht Hl Hp).
  eexists _, _. split; [reflexivity|]. split; [reflexivity|].
  assert (Hid : id_ok (JStr (t_id (new_todo rt text s))) = true).
  { cbn [t_id new_todo]. destruct (toString36_chars (Date_now rt (S (clock_reads s))))
      as [Hn Hc].
    apply id_ok_chars.
    - intros E. apply app_eq_nil in E as [E _]. contradiction.
    - apply Forall_app. split; [|exact Hr].
      eapply Forall_impl; [exact Hc|]. cbn beta. intros c H.
      unfold id_char. apply orb_true_iff in H as [-> | ->];
        rewrite ?orb_true_r; reflexivity. }
  assert (Hv : valid_raw rt (raw_of_todo (new_todo rt text s))
               = negb (blank (t_text (new_todo rt text s)))).
  { unfold valid_raw, raw_of_todo.
    cbn [r_text r_id r_completed r_createdAt r_updatedAt is_boolean].
    rewrite Hid. cbn [t_text t_createdAt t_updatedAt new_todo].
    rewrite Hts, text_ok_sanitized. now rewrite !andb_true_r. }
  split; [exact Hid|]. split; [exact Hv|].
  intros Hb s0. rewrite Hb in Hv.
  destruct (validateTodoData_valid rt _ s0 Hv) as (v & E & Hval & _).
  exists v. split; assumption.
Qed.

(** X24, instance: the record made for "Buy milk" is accepted again, the
    one made for a text of one control character is not. *)
Lemma created_record_is_accepted_again_witness :
  let rt := Browser.reliable in
  let s := constructed None in
  (exists t s',
      createValidTodo rt (JStr (js "Buy milk")) s
        = (Ok (mkCreateResult true [] (Some t)), s') /\
      valid_raw rt (raw_of_todo t) = true) /\
  (exists t s',
      createValidTodo rt (JStr [7]) s
        = (Ok (mkCreateResult true [] (Some t)), s') /\
      t_text t = [] /\ valid_raw rt (raw_of_todo t) = false).
Proof.
  cbv zeta.
  assert (Hr : Forall (fun c => id_char c = true)
                 (Math_random36 Browser.reliable
                    (random_reads (constructed None)))).
  { apply Forall_forall. intros c Hc. apply list_elem_of_In in Hc.
    revert c Hc. apply forallb_forall. vm_compute. reflexivity. }
  split.
  - destruct (created_record_is_accepted_again Browser.reliable
                (js "Buy milk") (constructed None))
      as (t & s' & E & Ht & _ & Hv & _);
      [vm_compute; reflexivity|exact Hr|vm_compute; discriminate
      |vm_compute; lia|vm_compute; reflexivity|].
    exists t, s'. split; [exact E|]. rewrite Hv, Ht. vm_compute. reflexivity.
  - destruct (created_record_is_accepted_again Browser.reliable
                [7] (constructed None))
      as (t & s' & E & Ht & _ & Hv & _);
      [vm_compute; reflexivity|exact Hr|vm_compute; discriminate
      |vm_compute; lia|vm_compute; reflexivity|].
    exists t, s'. split; [exact E|]. rewrite Hv, Ht.
    split; vm_compute; reflexivity.
Defined.

(* ===================================================================== *)
(** ** Batch completion *)
(* ===================================================================== *)

(** The action that sets [completed] to [b]. *)
Definition action_for (b : bool) : jsstring :=
  if b then js "complete" else js "incomplete".

(** [l] is the record that some id of the batch designates: the first
    record of the list with that id. *)
Definition hit (ids : list jsstring) (s : State) (l : loc) : Prop :=
  exists id, In id ids /\ find_todo id s = Some l.

(** What the loop of [batchOperation] does to the record [t] at [l] when
    the action sets [completed] to [b]: a designated record that is not in
    that state gets the flag and the time of one of the clock readings
    [lo], ..., [hi - 1]; any other record is left as it is. *)
Definition batch_effect (rt : Runtime) (ids : list jsstring) (b : bool)
    (s : State) (lo hi : nat) (l : loc) (t t' : Todo) : Prop :=
  (hit ids s l /\ t_completed t = negb b /\
   exists k, (lo <= k < hi)%nat /\
             t' = with_updatedAt (now_toISOString rt k) (with_completed b t))
  \/
  ((~ hit ids s l \/ t_completed t = b) /\ t' = t).

Lemma batch_miss (rt : Runtime) (action id : jsstring) (rest : list jsstring)
    (processed : nat) (s : State) :
  find_todo id s = None ->
  batch_loop rt action (id :: rest) processed s
    = batch_loop rt action rest processed s.
Proof.
  intros Hf. cbn [batch_loop]. munfold. cbn beta iota. rewrite Hf. reflexivity.
Qed.

Lemma batch_step (rt : Runtime) (b : bool) (id : jsstring)
    (rest : list jsstring) (processed : nat) (s : State) (todo : loc)
    (t0 : Todo) :
  find_todo id s = Some todo ->
  heap s !! todo = Some t0 ->
  batch_loop rt (action_for b) (id :: rest) processed s =
    if Bool.eqb (t_completed t0) b
    then batch_loop rt (action_for b) rest processed s
    else batch_loop rt (action_for b) rest (S processed)
           (set_heap (<[todo := with_updatedAt (now_toISOString rt (clock_reads s))
                                  (with_completed b t0)]> (heap s))
              (set_clock_reads (S (clock_reads s)) s)).
Proof.
  intros Hf Ht.
  assert (Hh : alter (with_updatedAt (now_toISOString rt (clock_reads s))) todo
                 (alter (with_completed b) todo (heap s))
               = <[todo := with_updatedAt (now_toISOString rt (clock_reads s))
                             (with_completed b t0)]> (heap s)).
  { rewrite list_alter_alter_eq.
    rewrite (alter_is_insert _ _ _ _ Ht). reflexivity. }
  cbn [batch_loop]. unfold update_obj, new_Date_toISOString. munfold.
  cbn beta iota. rewrite Hf. cbn beta iota. rewrite Ht. cbn [from_option].
  destruct b; unfold action_for.
  - change (eqb (js "complete") (js "complete")) with true. cbn beta iota.
    destruct (t_completed t0); cbn [negb Bool.eqb]; [reflexivity|].
    cbn beta iota. cbn -[alter insert batch_loop]. rewrite Hh. reflexivity.
  - change (eqb (js "incomplete") (js "complete")) with false.
    change (eqb (js "incomplete") (js "incomplete")) with true. cbn beta iota.
    destruct (t_completed t0); cbn [negb Bool.eqb]; [|reflexivity].
    cbn beta iota. cbn -[alter insert batch_loop]. rewrite Hh. reflexivity.
Qed.

Lemma hit_cons (ids : list jsstring) (id : jsstring) (s : State) (l : loc) :
  hit (id :: ids) s l <-> find_todo id s = Some l \/ hit ids s l.
Proof.
  unfold hit. split.
  - intros (x & [<-|Hin] & Hf); [now left|]. right. now exists x.
  - intros [Hf|(x & Hin & Hf)]; [exists id|exists x]; cbn; auto.
Qed.

Lemma batch_loop_sets (rt : Runtime) (b : bool) (ids : list jsstring) :
  forall (processed : nat) (s : State),
    exists s',
      batch_loop rt (action_for b) ids processed s
        = (Ok (processed + (clock_reads s' - clock_reads s))%nat, s') /\
      (clock_reads s <= clock_reads s')%nat /\
      s' = set_clock_reads (clock_reads s') (set_heap (heap s') s) /\
      forall l t,
        heap s !! l = Some t ->
        exists t', heap s' !! l = Some t' /\
                   batch_effect rt ids b s (clock_reads s) (clock_reads s') l t t'.
Proof.
  induction ids as [|id rest IH]; intros processed s.
  - exists s. cbn [batch_loop]. rewrite Nat.sub_diag, Nat.add_0_r.
    split; [reflexivity|]. split; [lia|]. split; [destruct s; reflexivity|].
    intros l t Ht. exists t. split; [exact Ht|]. right. split; [|reflexivity].
    left. intros (x & [] & _).
  - destruct (find_todo id s) as [todo|] eqn:Hf.
    + destruct (find_todo_Some s id todo Hf) as (_ & t0 & Ht0 & _).
      rewrite (batch_step rt b id rest processed s todo t0 Hf Ht0).
      destruct (Bool.eqb (t_completed t0) b) eqn:Eb.
      * apply Bool.eqb_prop in Eb.
        destruct (IH processed s) as (s' & E & Hle & Hfr & Heff).
        exists s'. split; [exact E|]. split; [exact Hle|]. split; [exact Hfr|].
        intros l t Ht. destruct (Heff l t Ht) as (t' & Ht' & He).
        exists t'. split; [exact Ht'|].
        destruct He as [(Hh & Hc & Hk)|[Hn ->]].
        -- left. split; [apply hit_cons; now right|]. split; assumption.
        -- right. split; [|reflexivity].
           destruct (decide (l = todo)) as [->|Hne].
           ++ right. congruence.
           ++ destruct Hn as [Hn|Hn]; [|now right]. left.
              intros H. apply hit_cons in H as [H|H]; [congruence|auto].
      * apply Bool.eqb_false_iff in Eb.
        set (t1 := with_updatedAt (now_toISOString rt (clock_reads s))
                                  (with_completed b t0)).
        set (s1 := set_heap (<[todo := t1]> (heap s))
                     (set_clock_reads (S (clock_reads s)) s)).
        assert (Hlen : (todo < length (heap s))%nat)
          by (apply lookup_lt_is_Some; eauto).
        assert (Hfind : forall x, find_todo x s1 = find_todo x s).
        { intros x. apply find_todo_same_ids; [reflexivity|].
          intros l. unfold s1. cbn [heap set_heap].
          destruct (decide (l = todo)) as [->|Hne].
          - rewrite list_lookup_insert_eq by exact Hlen. rewrite Ht0. reflexivity.
          - rewrite list_lookup_insert_ne by congruence. reflexivity. }
        assert (Hhit : forall l, hit rest s1 l <-> hit rest s l).
        { intros l. unfold hit. split; intros (x & Hin & Hx); exists x;
            (split; [exact Hin|]); [rewrite <- Hfind|rewrite Hfind]; exact Hx. }
        destruct (IH (S processed) s1) as (s' & E & Hle & Hfr & Heff).
        change (clock_reads s1) with (S (clock_reads s)) in *.
        exists s'. split; [|split; [lia|split]].
        -- rewrite E. f_equal. f_equal. lia.
        -- etransitivity; [exact Hfr|reflexivity].
        -- intros l t Ht. destruct (decide (l = todo)) as [->|Hne].
           ++ assert (t = t0) by congruence. subst t.
              destruct (Heff todo t1) as (t' & Ht' & He).
              { unfold s1. cbn [heap set_heap].
                now rewrite list_lookup_insert_eq by exact Hlen. }
              exists t'. split; [exact Ht'|].
              destruct He as [(_ & Hc & _)|[_ ->]].
              ** exfalso. unfold t1 in Hc. cbn in Hc. destruct b; discriminate.
              ** left. split; [apply hit_cons; now left|].
                 split; [destruct (t_completed t0), b; cbn; congruence|].
                 exists (clock_reads s). split; [lia|reflexivity].
           ++ destruct (Heff l t) as (t' & Ht' & He).
              { unfold s1. cbn [heap set_heap].
                now rewrite list_lookup_insert_ne by congruence. }
              exists t'. split; [exact Ht'|].
              destruct He as [(Hh & Hc & k & Hk & Hk')|[Hn ->]].
              ** left. split; [apply hit_cons; right; now apply Hhit|].
                 split; [exact Hc|]. exists k. split; [lia|exact Hk'].
              ** right. split; [|reflexivity].
                 destruct Hn as [Hn|Hn]; [|now right]. left.
                 intros H. apply hit_cons in H as [H|H]; [congruence|].
                 apply Hn, Hhit, H.
    + rewrite (batch_miss rt _ id rest processed s Hf).
      destruct (IH processed s) as (s' & E & Hle & Hfr & Heff).
      exists s'. split; [exact E|]. split; [exact Hle|]. split; [exact Hfr|].
      intros l t Ht. destruct (Heff l t Ht) as (t' & Ht' & He).
      exists t'. split; [exact Ht'|].
      destruct He as [(Hh & Hc & Hk)|[Hn ->]].
      * left. split; [apply hit_cons; now right|]. split; assumption.
      * right. split; [|reflexivity].
        destruct Hn as [Hn|Hn]; [|now right]. left.
        intros H. apply hit_cons in H as [H|H]; [congruence|auto].
Qed.

(** X25.  A batch [complete] or [incomplete] that has something to do and
    whose write goes through.  On an initialized manager, when some id of
    the batch designates a record that is not yet in the requested state,
    [batchOperation] returns [{success: true, processed: n}] with [n > 0];
    every designated record that was not in that state now is, with one of
    the [n] times read during the call as [updatedAt]; every other record
    is exactly as before (ids that are absent, repeated, or whose record is
    in the requested state already are passed over); the order of the list
    is unchanged; the new list is persisted; [todos-saved] and then
    [batch-operation] are emitted. *)
Theorem batchOperation_sets_completed
    (rt : Runtime) (s : State) (ids : list jsstring) (b : bool) :
  initialized s = true ->
  (exists l t, hit ids s l /\ heap s !! l = Some t /\ t_completed t = negb b) ->
  setItem rt (setItem_calls s) = None ->
  let r := batchOperation rt ids (action_for b) s in
  exists n,
    result r = Ok (true, n) /\ (0 < n)%nat /\
    todos (after r) = todos s /\
    (forall l t,
        heap s !! l = Some t ->
        exists t',
          heap (after r) !! l = Some t' /\
          batch_effect rt ids b s (clock_reads s) (clock_reads s + n) l t t') /\
    localStorage (after r)
      = Some (Some (envelope (deref_all (after r))
                      (now_toISOString rt (clock_reads s + n)%nat))) /\
    emitted (after r)
      = emitted s ++ [ev_todos_saved; ev_batch_operation (action_for b) n].
Proof.
  intros Hi (l0 & t0 & Hh0 & Ht0 & Hc0) Hw. cbv zeta.
  destruct (batch_loop_sets rt b ids 0 s) as (s' & E & Hle & Hfr & Heff).
  set (n := (clock_reads s' - clock_reads s)%nat) in *.
  assert (Hn : (0 < n)%nat).
  { destruct (Heff l0 t0 Ht0) as (t' & _ & [(_ & _ & k & Hk & _)|[[Hx|Hx] _]]).
    - unfold n. lia.
    - contradiction.
    - rewrite Hx in Hc0. destruct b; discriminate. }
  assert (Hc : clock_reads s' = (clock_reads s + n)%nat) by (unfold n; lia).
  assert (Hne : ids <> []).
  { destruct Hh0 as (x & Hin & _). intros ->. destruct Hin. }
  exists n.
  unfold batchOperation, try_catch. munfold. cbn beta iota.
  rewrite Hi. cbn [negb].
  destruct ids as [|id ids]; [congruence|]. cbn [length Nat.eqb].
  replace (existsb (eqb (action_for b)) validActions) with true
    by (destruct b; reflexivity).
  cbn [negb]. rewrite E. cbn beta iota. cbn [Nat.add].
  replace (0 <? n)%nat with true by (symmetry; apply Nat.ltb_lt, Hn).
  assert (Hw' : setItem rt (setItem_calls s') = None).
  { rewrite Hfr. exact Hw. }
  rewrite (saveTodos_ok rt s' Hw'). cbn beta iota.
  unfold saved. cbn [result after fst snd].
  split; [reflexivity|]. split; [exact Hn|].
  split; [cbn; rewrite Hfr; reflexivity|].
  split.
  { intros l t Ht. destruct (Heff l t Ht) as (t' & Ht' & He).
    exists t'. split; [exact Ht'|]. rewrite <- Hc. exact He. }
  split.
  { cbn. rewrite Hc. reflexivity. }
  cbn. rewrite Hfr. cbn. rewrite <- app_assoc. reflexivity.
Qed.

(** X25, instance: completing both records of a list one of which is
    completed already, together with an id that is not in the list. *)
Lemma batchOperation_sets_completed_witness :
  let rt := Browser.reliable in
  let s := two_records rt in
  let r := batchOperation rt [t_id older_record; js "absent"; t_id earlier_record]
             (js "complete") s in
  exists n, result r = Ok (true, n) /\ (0 < n)%nat /\ todos (after r) = todos s.
Proof.
  cbv zeta.
  destruct (batchOperation_sets_completed Browser.reliable
              (two_records Browser.reliable)
              [t_id older_record; js "absent"; t_id earlier_record] true)
    as (n & H1 & H2 & H3 & _).
  - vm_compute. reflexivity.
  - exists 1%nat, earlier_record. split; [|split; vm_compute; reflexivity].
    exists (t_id earlier_record). split; [cbn; auto|vm_compute; reflexivity].
  - vm_compute. reflexivity.
  - exists n. split; [exact H1|]. split; [exact H2|exact H3].
Defined.

(* ===================================================================== *)
(** ** Looking a record up *)
(* ===================================================================== *)

(** [getTodoById(id)], [None] for [null]: a record is an object, so the
    [|| null] only replaces the [undefined] of a failed search. *)
Definition getTodoById (id : jsstring) (s : State) : option loc :=
  find_todo id s.

Lemma find_delete_first {A} (p : A -> bool) (i : nat) :
  forall l,
    (forall j y, (j < i)%nat -> l !! j = Some y -> p y = false) ->
    is_Some (l !! i) ->
    List.find p (delete i l) = List.find p (drop (S i) l).
Proof.
  induction i as [|i IH]; intros [|x l] Hfirst [y Hy]; try discriminate.
  - cbn. now rewrite drop_0.
  - cbn [delete list_delete List.find].
    rewrite (Hfirst 0%nat x) by (lia || reflexivity).
    change (drop (S (S i)) (x :: l)) with (drop (S i) l).
    apply IH; [|eexists; exact Hy].
    intros j z Hj Hz. apply (Hfirst (S j) z); [lia|exact Hz].
Qed.

Lemma find_delete_other {A} (p : A -> bool) (i : nat) :
  forall l x,
    l !! i = Some x -> p x = false ->
    List.find p (delete i l) = List.find p l.
Proof.
  induction i as [|i IH]; intros [|y l] x Hx Hp; try discriminate.
  - cbn in Hx. injection Hx as ->. cbn. now rewrite Hp.
  - cbn [delete list_delete List.find]. destruct (p y); [reflexivity|].
    apply (IH l x); assumption.
Qed.

Lemma deleteTodo_saved (rt : Runtime) (s : State) (id : jsstring)
    (index : nat) (todo : loc) :
  initialized s = true ->
  findIndex id s = Some index ->
  todos s !! index = Some todo ->
  setItem rt (setItem_calls s) = None ->
  deleteTodo rt id s =
    (Ok true,
     set_emitted (emitted (saved rt (set_todos (delete index (todos s)) s))
                  ++ [ev_todo_deleted todo])
       (saved rt (set_todos (delete index (todos s)) s))).
Proof.
  intros Hi Hf Hl Hw. unfold deleteTodo. munfold. cbn beta iota.
  rewrite Hi. cbn [negb]. cbn beta iota. rewrite Hf. cbn beta iota.
  rewrite Hl. rewrite saveTodos_ok by exact Hw. reflexivity.
Qed.

(** X26.  After a successful [deleteTodo(id)], [getTodoById] of any other
    id returns what it returned before, and [getTodoById(id)] returns the
    next record of the list that has this id: null when no other entry of
    the list had it, the later duplicate otherwise (a reload keeps
    duplicates). *)
Theorem getTodoById_after_delete
    (rt : Runtime) (s : State) (id : jsstring) (index : nat) :
  initialized s = true ->
  findIndex id s = Some index ->
  setItem rt (setItem_calls s) = None ->
  let s' := after (deleteTodo rt id s) in
  (forall id', id' <> id -> getTodoById id' s' = getTodoById id' s) /\
  getTodoById id s' = List.find (has_id s id) (drop (S index) (todos s)) /\
  ((forall j y, todos s !! j = Some y -> has_id s id y = true -> j = index) ->
   getTodoById id s' = None).
Proof.
  intros Hi Hf Hw. cbv zeta.
  destruct (findIndex_from_first s id (todos s) 0 index Hf)
    as (todo & Hl & Hid & _ & Hfirst).
  rewrite Nat.sub_0_r in Hl, Hfirst.
  rewrite (deleteTodo_saved rt s id index todo Hi Hf Hl Hw).
  cbn [after snd].
  assert (Hfind : forall x,
             getTodoById x (set_emitted
               (emitted (saved rt (set_todos (delete index (todos s)) s))
                ++ [ev_todo_deleted todo])
               (saved rt (set_todos (delete index (todos s)) s)))
             = List.find (has_id s x) (delete index (todos s))).
  { intros x. reflexivity. }
  assert (Hnext : List.find (has_id s id) (delete index (todos s))
                  = List.find (has_id s id) (drop (S index) (todos s))).
  { apply find_delete_first; [exact Hfirst|eexists; exact Hl]. }
  split; [|split].
  - intros id' Hne. rewrite Hfind. unfold getTodoById, find_todo.
    apply (find_delete_other _ _ _ todo Hl).
    unfold has_id in *. destruct (heap s !! todo) as [t|]; [|reflexivity].
    apply eqb_true in Hid. subst id.
    destruct (eqb (t_id t) id') eqn:E; [|reflexivity].
    apply eqb_true in E. congruence.
  - rewrite Hfind. exact Hnext.
  - intros Hu. rewrite Hfind, Hnext.
    destruct (List.find (has_id s id) (drop (S index) (todos s))) as [y|] eqn:E;
      [|reflexivity].
    apply find_some in E as [Hin Hy].
    apply list_elem_of_In, list_elem_of_lookup in Hin as [k Hk].
    rewrite lookup_drop in Hk. specialize (Hu _ _ Hk Hy). lia.
Qed.

(** X26, instance: after the newer of two records is deleted, its id is
    not found and the older record still is. *)
Lemma getTodoById_after_delete_witness :
  let rt := Browser.reliable in
  let s := two_records rt in
  let s' := after (deleteTodo rt (t_id earlier_record) s) in
  getTodoById (t_id earlier_record) s = Some 1%nat /\
  getTodoById (t_id earlier_record) s' = None /\
  getTodoById (t_id older_record) s' = Some 0%nat.
Proof.
  cbv zeta.
  destruct (getTodoById_after_delete Browser.reliable
              (two_records Browser.reliable) (t_id earlier_record) 0%nat)
    as (H1 & _ & H3);
    [vm_compute; reflexivity|vm_compute; reflexivity|vm_compute; reflexivity|].
  split; [vm_compute; reflexivity|]. split.
  - apply H3. intros [|[|[|j]]] y Hy Hid; try reflexivity;
      vm_compute in Hy; try discriminate Hy.
    injection Hy as <-. vm_compute in Hid. discriminate Hid.
  - rewrite H1; [vm_compute; reflexivity|]. vm_compute. discriminate.
Defined.

(** X27.  What a session saves, the next session shows.  When [saveTodos]
    goes through on a list every record of which validation accepts again
    and which is in newest-first order, a manager constructed over the same
    store and initialized holds the same records in the same order, each
    with its text sanitized once more, and emits [todos-loaded] and then
    [initialized]. *)
Theorem restart_restores_saved_list (rt : Runtime) (s : State) :
  setItem rt (setItem_calls s) = None ->
  Forall (fun t => revalidates rt t = true) (deref_all s) ->
  Sorted (newer_or_equal rt) (deref_all s) ->
  let saving := saveTodos rt s in
  let r := initialize rt (constructed (localStorage (after saving))) in
  result saving = Ok true /\
  result r = Ok true /\ initialized (after r) = true /\
  contents (after r) = map (fun t => Some (resanitized t)) (deref_all s) /\
  (Forall (fun t => sanitizeInput (JStr (t_text t)) = t_text t) (deref_all s) ->
   contents (after r) = map Some (deref_all s)) /\
  emitted (after r) = [ev_todos_loaded; ev_initialized].
Proof.
  intros Hw Hv Hs. cbv zeta.
  rewrite (saveTodos_ok rt s Hw). cbn [result after fst snd].
  split; [reflexivity|].
  rewrite initialize_spec. cbn [result after fst snd].
  split; [reflexivity|]. split; [reflexivity|].
  rewrite (loadTodos_persisted rt (deref_all s)
             (now_toISOString rt (clock_reads s))
             (constructed (localStorage (saved rt s))))
    by (reflexivity || exact Hv).
  cbn [after snd].
  assert (Hs' : Sorted (newer_or_equal rt) (map resanitized (deref_all s))).
  { revert Hs. apply Sorted_map. intros a b H. exact H. }
  destruct (loaded_in_order rt (map resanitized (deref_all s))
              (constructed (localStorage (saved rt s))) Hs') as [_ Hc].
  assert (Hcont : contents
            (set_emitted
               (emitted (loaded rt (map resanitized (deref_all s))
                           (constructed (localStorage (saved rt s))))
                ++ [ev_initialized])
               (set_initialized true
                  (loaded rt (map resanitized (deref_all s))
                     (constructed (localStorage (saved rt s))))))
            = map (fun t => Some (resanitized t)) (deref_all s)).
  { change (contents (loaded rt (map resanitized (deref_all s))
                        (constructed (localStorage (saved rt s))))
            = map (fun t => Some (resanitized t)) (deref_all s)).
    rewrite Hc, List.map_map. reflexivity. }
  split; [exact Hcont|]. split; [|reflexivity].
  intros Hfix. rewrite Hcont. now apply map_Some_resanitized.
Qed.

(** X27, instance: the list left by adding "Buy milk" and then "Walk dog"
    is the list a new session starts with. *)
Lemma restart_restores_saved_list_witness :
  let rt := Browser.reliable in
  let s0 := after (initialize rt (constructed None)) in
  let s1 := after (addTodo rt (JStr (js "Buy milk")) s0) in
  let s2 := after (addTodo rt (JStr (js "Walk dog")) s1) in
  let r := initialize rt (constructed (localStorage (after (saveTodos rt s2)))) in
  map (fmap t_text) (contents s2) = [Some (js "Walk dog"); Some (js "Buy milk")] /\
  contents (after r) = contents s2.
Proof.
  cbv zeta. split; [vm_compute; reflexivity|].
  match goal with
  | |- contents (after (initialize ?rt
         (constructed (localStorage (after (saveTodos ?rt ?s)))))) = _ =>
      pose proof (restart_restores_saved_list rt s) as H;
      remember (deref_all s) as ts eqn:E in H
  end.
  vm_compute in E. subst ts. cbv zeta in H.
  destruct H as (_ & _ & _ & _ & H & _).
  - vm_compute. reflexivity.
  - repeat constructor; vm_compute; reflexivity.
  - repeat constructor.
    eexists _, _. split; [vm_compute; reflexivity|].
    split; [vm_compute; reflexivity|]. vm_compute. discriminate.
  - rewrite H; [vm_compute; reflexivity|].
    repeat constructor; vm_compute; reflexivity.
Defined.

(* ===================================================================== *)
(** ** Batch deletion *)
(* ===================================================================== *)

(** No two entries of the list have the same id. *)
Definition distinct_ids (s : State) : Prop :=
  forall i j x y id,
    todos s !! i = Some x -> todos s !! j = Some y ->
    has_id s id x = true -> has_id s id y = true -> i = j.

(** The record at [l] has one of the ids of the batch. *)
Definition listed (ids : list jsstring) (s : State) (l : loc) : bool :=
  existsb (fun id => has_id s id l) ids.

Lemma has_id_set_todos (s : State) (l : list loc) (id : jsstring) (x : loc) :
  has_id (set_todos l s) id x = has_id s id x.
Proof. reflexivity. Qed.

Lemma distinct_ids_delete (s : State) (i : nat) :
  distinct_ids s -> distinct_ids (set_todos (delete i (todos s)) s).
Proof.
  intros Hd j k x y id Hx Hy Hix Hiy. cbn [todos set_todos] in Hx, Hy.
  rewrite has_id_set_todos in Hix, Hiy.
  destruct (decide (j < i)%nat) as [Hj|Hj], (decide (k < i)%nat) as [Hk|Hk].
  - rewrite list_lookup_delete_lt in Hx, Hy by assumption. eapply Hd; eassumption.
  - rewrite list_lookup_delete_lt in Hx by assumption.
    rewrite list_lookup_delete_ge in Hy by lia.
    specialize (Hd _ _ _ _ _ Hx Hy Hix Hiy). lia.
  - rewrite list_lookup_delete_ge in Hx by lia.
    rewrite list_lookup_delete_lt in Hy by assumption.
    specialize (Hd _ _ _ _ _ Hx Hy Hix Hiy). lia.
  - rewrite list_lookup_delete_ge in Hx, Hy by lia.
    specialize (Hd _ _ _ _ _ Hx Hy Hix Hiy). lia.
Qed.

(** Deleting the only entry that satisfies [q] is filtering [q] out. *)
Lemma filter_delete_only {A} (p q : A -> bool) (i : nat) :
  forall l x,
    l !! i = Some x -> q x = true ->
    (forall j y, l !! j = Some y -> q y = true -> j = i) ->
    List.filter p (delete i l) = List.filter (fun y => negb (q y) && p y) l.
Proof.
  induction i as [|i IH]; intros [|z l] x Hx Hq Hu; try discriminate.
  - cbn in Hx. injection Hx as ->.
    change (delete 0%nat (x :: l)) with l. cbn [List.filter].
    rewrite Hq. cbn [negb andb].
    apply filter_ext_in. intros y Hy.
    destruct (q y) eqn:E; [|reflexivity]. exfalso.
    apply list_elem_of_In, list_elem_of_lookup in Hy as [k Hk].
    specialize (Hu (S k) y Hk E). discriminate.
  - change (delete (S i) (z :: l)) with (z :: delete i l).
    cbn [List.filter].
    assert (Hz : q z = false).
    { destruct (q z) eqn:E; [|reflexivity].
      specialize (Hu 0%nat z eq_refl E). discriminate. }
    rewrite Hz. cbn [negb andb]. rewrite (IH l x Hx Hq).
    + reflexivity.
    + intros j y Hy Hqy. specialize (Hu (S j) y Hy Hqy). lia.
Qed.

Lemma batch_loop_deletes (rt : Runtime) (ids : list jsstring) :
  forall (processed : nat) (s : State),
    distinct_ids s ->
    let rest := List.filter (fun l => negb (listed ids s l)) (todos s) in
    batch_loop rt (js "delete") ids processed s
      = (Ok (processed + (length (todos s) - length rest))%nat, set_todos rest s).
Proof.
  induction ids as [|id ids IH]; intros processed s Hd; cbv zeta.
  - cbn [batch_loop listed existsb negb].
    rewrite filter_all by (apply Forall_forall; reflexivity).
    rewrite Nat.sub_diag, Nat.add_0_r, set_todos_same. reflexivity.
  - cbn [batch_loop]. munfold. cbn beta iota.
    destruct (find_todo id s) as [todo|] eqn:Hf.
    + change (eqb (js "delete") (js "complete")) with false.
      change (eqb (js "delete") (js "incomplete")) with false.
      change (eqb (js "delete") (js "delete")) with true. cbn beta iota.
      destruct (findIndex id s) as [i|] eqn:Hi;
        [|apply findIndex_None in Hi; congruence].
      destruct (findIndex_from_first s id (todos s) 0 i Hi)
        as (x & Hx & Hidx & _ & _).
      rewrite Nat.sub_0_r in Hx.
      rewrite (IH (S processed) (set_todos (delete i (todos s)) s)
                 (distinct_ids_delete s i Hd)).
      cbv zeta. cbn [todos set_todos]. rewrite set_todos_set_todos.
      assert (E : List.filter
                    (fun l => negb (listed ids (set_todos (delete i (todos s)) s) l))
                    (delete i (todos s))
                  = List.filter (fun l => negb (listed (id :: ids) s l)) (todos s)).
      { rewrite (filter_delete_only _ (has_id s id) i (todos s) x Hx Hidx).
        - apply filter_ext. intros l. unfold listed. cbn [existsb].
          now rewrite negb_orb.
        - intros j y Hy Hq. exact (Hd j i y x id Hy Hx Hq Hidx). }
      rewrite E. f_equal. f_equal.
      pose proof (filter_length_le
                    (fun l => negb (listed ids (set_todos (delete i (todos s)) s) l))
                    (delete i (todos s))) as Hle.
      rewrite E in Hle.
      assert (Hl : length (delete i (todos s)) = (length (todos s) - 1)%nat).
      { rewrite length_delete; [reflexivity|eexists; exact Hx]. }
      assert (Hpos : (i < length (todos s))%nat)
        by (apply lookup_lt_is_Some; eauto).
      lia.
    + rewrite (IH processed s Hd). cbv zeta.
      assert (E : List.filter (fun l => negb (listed ids s l)) (todos s)
                  = List.filter (fun l => negb (listed (id :: ids) s l)) (todos s)).
      { apply filter_ext_in. intros l Hl. unfold listed. cbn [existsb].
        unfold find_todo in Hf.
        rewrite (find_none _ _ Hf l Hl). reflexivity. }
      rewrite E. reflexivity.
Qed.

(** X28.  A batch [delete] whose write goes through, over a list in which
    no two entries have the same id.  When some id of the batch is in the
    list, [batchOperation] returns [{success: true, processed: n}], where
    [n] is the number of entries removed; the list is left with exactly
    the entries whose id is not in the batch, in their order (absent and
    repeated ids are passed over); no record is changed; the new list is
    persisted; [todos-saved] and then [batch-operation] are emitted. *)
Theorem batchOperation_deletes_listed
    (rt : Runtime) (s : State) (ids : list jsstring) :
  initialized s = true ->
  distinct_ids s ->
  (exists id, In id ids /\ is_Some (find_todo id s)) ->
  setItem rt (setItem_calls s) = None ->
  let r := batchOperation rt ids (js "delete") s in
  let rest := List.filter (fun l => negb (listed ids s l)) (todos s) in
  let n := (length (todos s) - length rest)%nat in
  result r = Ok (true, n) /\ (0 < n)%nat /\
  todos (after r) = rest /\ heap (after r) = heap s /\
  localStorage (after r)
    = Some (Some (envelope (deref_all (after r))
                    (now_toISOString rt (clock_reads s)))) /\
  emitted (after r)
    = emitted s ++ [ev_todos_saved; ev_batch_operation (js "delete") n].
Proof.
  intros Hi Hd (id & Hin & [todo Hf]) Hw. cbv zeta.
  assert (Hn : (0 < length (todos s)
                    - length (List.filter (fun l => negb (listed ids s l))
                                          (todos s)))%nat).
  { apply find_some in Hf as [Ht Hid].
    assert (Hl : listed ids s todo = true).
    { unfold listed. apply existsb_exists. exists id. split; assumption. }
    clear - Ht Hl. induction (todos s) as [|x l IH]; [destruct Ht|].
    cbn [List.filter length].
    pose proof (filter_length_le (fun l0 => negb (listed ids s l0)) l) as Hle.
    destruct Ht as [->|Ht].
    - rewrite Hl. cbn [negb]. lia.
    - specialize (IH Ht). destruct (negb (listed ids s x)); cbn [length]; lia. }
  unfold batchOperation, try_catch. munfold. cbn beta iota.
  rewrite Hi. cbn [negb].
  destruct ids as [|id0 ids]; [destruct Hin|]. cbn [length Nat.eqb].
  change (existsb (eqb (js "delete")) validActions) with true. cbn [negb].
  rewrite (batch_loop_deletes rt (id0 :: ids) 0 s Hd). cbv zeta.
  cbn beta iota. cbn [Nat.add].
  match goal with
  | |- context [(0 <? ?k)%nat] =>
      replace (0 <? k)%nat with true by (symmetry; apply Nat.ltb_lt, Hn)
  end.
  rewrite saveTodos_ok by exact Hw.
  unfold saved. cbn. rewrite <- app_assoc.
  repeat split; try reflexivity. exact Hn.
Qed.

Lemma has_id_true (s : State) (id : jsstring) (l : loc) :
  has_id s id l = true -> exists t, heap s !! l = Some t /\ t_id t = id.
Proof.
  unfold has_id. destruct (heap s !! l) as [t|]; [|discriminate].
  intros H. exists t. split; [reflexivity|].
  unfold eqb in H. now apply bool_decide_eq_true in H.
Qed.

(** X28, instance: of two records, the older one is deleted by a batch
    that names it twice, next to an id that is not in the list. *)
Lemma batchOperation_deletes_listed_witness :
  let rt := Browser.reliable in
  let s := two_records rt in
  let r := batchOperation rt [t_id older_record; js "absent"; t_id older_record]
             (js "delete") s in
  result r = Ok (true, 1%nat) /\ contents (after r) = [Some earlier_record].
Proof.
  cbv zeta.
  destruct (batchOperation_deletes_listed Browser.reliable
              (two_records Browser.reliable)
              [t_id older_record; js "absent"; t_id older_record])
    as (H1 & _ & H3 & H4 & _).
  - vm_compute. reflexivity.
  - intros i j x y id Hx Hy Hix Hiy.
    apply has_id_true in Hix as (t1 & Ht1 & E1).
    apply has_id_true in Hiy as (t2 & Ht2 & E2).
    destruct i as [|[|i]], j as [|[|j]]; try reflexivity;
      vm_compute in Hx; vm_compute in Hy;
      try discriminate Hx; try discriminate Hy;
      injection Hx as <-; injection Hy as <-;
      vm_compute in Ht1; vm_compute in Ht2;
      injection Ht1 as <-; injection Ht2 as <-;
      rewrite <- E2 in E1; vm_compute in E1; discriminate E1.
  - exists (t_id older_record). split; [cbn; auto|].
    vm_compute. eexists. reflexivity.
  - vm_compute. reflexivity.
  - split.
    + rewrite H1. vm_compute. reflexivity.
    + unfold contents. rewrite H3, H4. vm_compute. reflexivity.
Defined.
